(** * Product API (server.js): a shallow embedding and its properties

    The development follows the monolithic server file: the error classes,
    the three middlewares, the in-memory [products] array, the root route
    and the seven product routes, the global error handler and the catch-all 404 handler, in the
    order in which the file registers them on the Express application. The
    router-module layout (middleware/validation.js and the products router)
    has the same validation middleware and the same create, update, delete
    and get-by-id handlers; its list, search and stats handlers, which
    differ, are embedded in the module [Router].

    Conventions of the embedding.
    - JavaScript numbers are [JsNum]: the three special values and
      rationals for the finite ones, without a negative zero. [parseInt]
      and the arithmetic of the statistics round to the nearest double
      ([roundDouble]). The arithmetic on page numbers and indices
      ([idx_sub], [idx_mul], [idx_add], [idx_div]) follows the rules for
      NaN and the infinities and is exact on finite operands: the code
      rounds these results too, which no slice of an array and no
      comparison with its length shows, an array holding fewer than 2^32
      elements.
    - JavaScript strings are [string]; a character is a code unit below 256.
    - The request carries what Express hands to the handlers: the parsed
      JSON body, the query parameters of a plain [key=value] query string,
      the header table and the path split into its segments. Every query
      parameter is given once and without brackets, so that its value is
      a string (a repeated or bracketed parameter is an array or an
      object, on which the handlers' [toLowerCase] throws), and the
      segments are written without %-escapes, so that the segment that a
      route matches is the one that [:id] is given. A body that the JSON
      parser rejects is not a request of this kind: [serve] takes the
      parser's error beside the request.
    - The module-level array [products] is the state threaded through the
      handlers; [uuidv4()] is an oracle whose answer for the current request
      is part of the environment. *)

From Stdlib Require Import ZArith QArith Qround Qreduction String Ascii List Bool Lia.
From Stdlib Require Qcanon.
From Stdlib Require Import Decimal DecimalString DecimalPos.
From stdpp Require Import base list gmap strings.
Import ListNotations.

Set Warnings "-register-all".

Local Open Scope string_scope.

(* ================================================================= *)
(** ** JavaScript values *)

Module Js.

Inductive JsNum : Type :=
| NaN
| PosInf
| NegInf
| Fin (q : Q).

(** Values that [JSON.parse] can put into a request body, plus
    [JUndefined] for a property that is absent. *)
Inductive JsVal : Type :=
| JUndefined
| JNull
| JBool (b : bool)
| JNum (n : JsNum)
| JStr (s : string)
| JArr (items : list JsVal)
| JObj (props : list (string * JsVal)).

Inductive JsType : Type :=
| TUndefined | TObject | TBoolean | TNumber | TString.

Definition typeof (v : JsVal) : JsType :=
  match v with
  | JUndefined => TUndefined
  | JNull => TObject
  | JBool _ => TBoolean
  | JNum _ => TNumber
  | JStr _ => TString
  | JArr _ => TObject
  | JObj _ => TObject
  end.

Definition num_truthy (n : JsNum) : bool :=
  match n with
  | NaN => false
  | PosInf | NegInf => true
  | Fin q => negb (Qeq_bool q 0)
  end.

(** [ToBoolean]: what [!v] negates and [Boolean(v)] returns. *)
Definition truthy (v : JsVal) : bool :=
  match v with
  | JUndefined | JNull => false
  | JBool b => b
  | JNum n => num_truthy n
  | JStr s => negb (String.eqb s EmptyString)
  | JArr _ | JObj _ => true
  end.

Definition falsy (v : JsVal) : bool := negb (truthy v).

(** [x <= y] on numbers: false as soon as one side is [NaN]. *)
Definition num_leb (x y : JsNum) : bool :=
  match x, y with
  | NaN, _ | _, NaN => false
  | NegInf, _ => true
  | _, PosInf => true
  | PosInf, _ => false
  | _, NegInf => false
  | Fin a, Fin b => Qle_bool a b
  end.

(** [x < y] on numbers. *)
Definition num_ltb (x y : JsNum) : bool :=
  match x, y with
  | NaN, _ | _, NaN => false
  | PosInf, _ => false
  | _, NegInf => false
  | NegInf, _ => true
  | _, PosInf => true
  | Fin a, Fin b => negb (Qle_bool b a)
  end.

Definition zero : JsNum := Fin 0.

(* --------------------------------------------------------------- *)
(** *** Doubles *)

(** [floor (log2 (n / d))] for positive [n] and [d]. *)
Definition floorLog2 (n d : Z) : Z :=
  let e := (Z.log2 n - Z.log2 d)%Z in
  if (d * 2 ^ Z.max e 0 <=? n * 2 ^ Z.max (- e) 0)%Z then e else (e - 1)%Z.

(** The integer nearest to [num / den], the even one of two that are
    equally near. *)
Definition roundHalfEven (num den : Z) : Z :=
  let q := (num / den)%Z in
  match (2 * (num mod den) ?= den)%Z with
  | Lt => q
  | Gt => (q + 1)%Z
  | Eq => if Z.even q then q else (q + 1)%Z
  end.

(** The double nearest to [z / den] (IEEE 754 binary64, round to nearest,
    ties to even): a significand of 53 bits on the exponent of the value,
    of fewer bits below 2^-1022, and an infinity from 2^1024 - 2^970 on. *)
Definition roundFraction (z : Z) (den : positive) : JsNum :=
  let n := Z.abs z in
  let d := Z.pos den in
  if (n =? 0)%Z then Fin 0
  else
    let e := floorLog2 n d in
    let ex := Z.max (e - 52) (-1074) in
    let up := (2 ^ Z.max ex 0)%Z in
    let down := (2 ^ Z.max (- ex) 0)%Z in
    let m := roundHalfEven (n * down) (d * up) in
    if (2 ^ 1024 * down <=? m * up)%Z
    then (if (z <? 0)%Z then NegInf else PosInf)
    else Fin (Qred ((Z.sgn z * m * up) # Z.to_pos down)).

(** The number that the real [q] becomes. *)
Definition roundDouble (q : Q) : JsNum :=
  let r := Qred q in roundFraction (Qnum r) (Qden r).

(** [x + y] on numbers. *)
Definition num_add (x y : JsNum) : JsNum :=
  match x, y with
  | NaN, _ | _, NaN => NaN
  | PosInf, NegInf | NegInf, PosInf => NaN
  | PosInf, _ | _, PosInf => PosInf
  | NegInf, _ | _, NegInf => NegInf
  | Fin a, Fin b => roundDouble (a + b)
  end.

Definition q_sign (q : Q) : comparison := (0 ?= q)%Q.

(** [x / y] on numbers, for a divisor that is not negative (the only
    divisor of the statistics is an array length). *)
Definition num_div (x y : JsNum) : JsNum :=
  match x, y with
  | NaN, _ | _, NaN => NaN
  | (PosInf | NegInf), (PosInf | NegInf) => NaN
  | PosInf, Fin _ => PosInf
  | NegInf, Fin _ => NegInf
  | Fin _, (PosInf | NegInf) => Fin 0
  | Fin a, Fin b =>
      if Qeq_bool b 0 then
        match q_sign a with
        | Eq => NaN
        | Lt => PosInf
        | Gt => NegInf
        end
      else roundDouble (a / b)
  end.

(* --------------------------------------------------------------- *)
(** *** Page numbers and indices *)

Definition num_opp (x : JsNum) : JsNum :=
  match x with
  | NaN => NaN
  | PosInf => NegInf
  | NegInf => PosInf
  | Fin a => Fin (- a)
  end.

(** The sign of a number: -1, 0 or 1, and 0 for [NaN]. *)
Definition num_sgn (x : JsNum) : Z :=
  match x with
  | NaN => 0
  | PosInf => 1
  | NegInf => -1
  | Fin a => Z.sgn (Qnum a)
  end.

(** [x + y], [x - y], [x * y] and [x / y] on page numbers and indices. *)
Definition idx_add (x y : JsNum) : JsNum :=
  match x, y with
  | NaN, _ | _, NaN => NaN
  | PosInf, NegInf | NegInf, PosInf => NaN
  | PosInf, _ | _, PosInf => PosInf
  | NegInf, _ | _, NegInf => NegInf
  | Fin a, Fin b => Fin (a + b)
  end.

Definition idx_sub (x y : JsNum) : JsNum := idx_add x (num_opp y).

Definition idx_mul (x y : JsNum) : JsNum :=
  match x, y with
  | NaN, _ | _, NaN => NaN
  | Fin a, Fin b => Fin (a * b)
  | _, _ =>
      match (num_sgn x * num_sgn y)%Z with
      | Z0 => NaN
      | Zpos _ => PosInf
      | Zneg _ => NegInf
      end
  end.

Definition idx_div (x y : JsNum) : JsNum :=
  match x, y with
  | NaN, _ | _, NaN => NaN
  | (PosInf | NegInf), (PosInf | NegInf) => NaN
  | (PosInf | NegInf), Fin b => if Qle_bool 0 b then x else num_opp x
  | Fin _, (PosInf | NegInf) => Fin 0
  | Fin a, Fin b =>
      if Qeq_bool b 0 then
        match q_sign a with
        | Eq => NaN
        | Lt => PosInf
        | Gt => NegInf
        end
      else Fin (a / b)
  end.

(** [Math.ceil(x)] *)
Definition Math_ceil (x : JsNum) : JsNum :=
  match x with
  | Fin a => Fin (inject_Z (Qceiling a))
  | _ => x
  end.

(** [Math.max(x, y)] and [Math.min(x, y)]. *)
Definition num_max (x y : JsNum) : JsNum :=
  match x, y with
  | NaN, _ | _, NaN => NaN
  | _, _ => if num_leb x y then y else x
  end.

Definition num_min (x y : JsNum) : JsNum :=
  match x, y with
  | NaN, _ | _, NaN => NaN
  | _, _ => if num_leb x y then x else y
  end.

(** [Math.max(...xs)] and [Math.min(...xs)]: the empty call returns the
    neutral infinity. *)
Definition Math_max (xs : list JsNum) : JsNum := fold_left num_max xs NegInf.
Definition Math_min (xs : list JsNum) : JsNum := fold_left num_min xs PosInf.

(* --------------------------------------------------------------- *)
(** *** Strings *)

(** White space and line terminators among the code units below 256. *)
Definition isWhiteSpace (c : ascii) : bool :=
  let n := nat_of_ascii c in
  (((9 <=? n) && (n <=? 13)) || (n =? 32) || (n =? 160))%nat.

Fixpoint trimStart (s : string) : string :=
  match s with
  | EmptyString => EmptyString
  | String c r => if isWhiteSpace c then trimStart r else s
  end.

Fixpoint trimEnd (s : string) : string :=
  match s with
  | EmptyString => EmptyString
  | String c r =>
      match trimEnd r with
      | EmptyString => if isWhiteSpace c then EmptyString else String c EmptyString
      | r' => String c r'
      end
  end.

Definition trim (s : string) : string := trimEnd (trimStart s).

Definition lowerChar (c : ascii) : ascii :=
  let n := nat_of_ascii c in
  if (((65 <=? n) && (n <=? 90))
      || ((192 <=? n) && (n <=? 222) && negb (n =? 215)))%nat
  then ascii_of_nat (n + 32) else c.

Fixpoint toLowerCase (s : string) : string :=
  match s with
  | EmptyString => EmptyString
  | String c r => String (lowerChar c) (toLowerCase r)
  end.

(** [s.includes(t)] *)
Fixpoint includes (s t : string) : bool :=
  String.prefix t s ||
  match s with
  | EmptyString => false
  | String _ r => includes r t
  end.

(* --------------------------------------------------------------- *)
(** *** parseInt *)

Definition digitValue (c : ascii) : option Z :=
  let n := Z.of_nat (nat_of_ascii c) in
  if ((48 <=? n) && (n <=? 57))%Z then Some (n - 48)%Z
  else if ((97 <=? n) && (n <=? 102))%Z then Some (n - 87)%Z
  else if ((65 <=? n) && (n <=? 70))%Z then Some (n - 55)%Z
  else None.

Definition digitIn (radix : Z) (c : ascii) : option Z :=
  match digitValue c with
  | Some d => if (d <? radix)%Z then Some d else None
  | None => None
  end.

(** The longest prefix of digits of [s], read in [radix] on top of
    [acc]; [seen] tells whether a digit has been read. *)
Fixpoint parseDigits (radix : Z) (s : string) (seen : bool) (acc : Z)
  : option Z :=
  match s with
  | EmptyString => if seen then Some acc else None
  | String c r =>
      match digitIn radix c with
      | Some d => parseDigits radix r true (acc * radix + d)%Z
      | None => if seen then Some acc else None
      end
  end.

Definition stripHexPrefix (s : string) : option string :=
  match s with
  | String "0" (String "x" r) => Some r
  | String "0" (String "X" r) => Some r
  | _ => None
  end.

Definition parseUnsigned (s : string) : option Z :=
  match stripHexPrefix s with
  | Some r => parseDigits 16 r false 0
  | None => parseDigits 10 s false 0
  end.

(** The integer that [parseInt(s)] reads without a radix; [None] when [s]
    starts with no digit. *)
Definition parseIntString (s : string) : option Z :=
  match trimStart s with
  | String "-" r => Z.opp <$> parseUnsigned r
  | String "+" r => parseUnsigned r
  | r => parseUnsigned r
  end.

(** [parseInt(v)] for a query parameter: the integer read, as a number
    (the nearest double, an infinity when the digits are too many), and
    [NaN] without a digit; an absent parameter is [undefined], whose
    string form has no digit. *)
Definition parseInt (v : option string) : JsNum :=
  match v with
  | Some s =>
      match parseIntString s with
      | Some z => roundDouble (inject_Z z)
      | None => NaN
      end
  | None => NaN
  end.

(** [n || d] for the result of [parseInt]: [NaN] and [0] are falsy. *)
Definition orDefault (n d : JsNum) : JsNum :=
  if num_truthy n then n else d.

(** [xs.slice(start, end)] on integers: a negative index counts from the
    end, and both are clamped to the array. *)
Definition sliceIndex (len k : Z) : Z :=
  if (k <? 0)%Z then Z.max (len + k) 0 else Z.min k len.

Definition sliceInt {A : Type} (xs : list A) (start stop : Z) : list A :=
  let len := Z.of_nat (length xs) in
  let k := sliceIndex len start in
  let final := sliceIndex len stop in
  take (Z.to_nat (final - k)) (drop (Z.to_nat k) xs).

(** The integer part of a rational. *)
Definition truncate (q : Q) : Z := Z.quot (Qnum q) (Z.pos (Qden q)).

(** [ToIntegerOrInfinity] of an index into an array of length [len]:
    [NaN] is 0, and an infinity is as good as the length, which the clamp
    does not tell from it. *)
Definition toIntegerWithin (len : Z) (k : JsNum) : Z :=
  match k with
  | NaN => 0
  | PosInf => len
  | NegInf => - len
  | Fin q => truncate q
  end.

(** [xs.slice(start, end)] *)
Definition slice {A : Type} (xs : list A) (start stop : JsNum) : list A :=
  let len := Z.of_nat (length xs) in
  sliceInt xs (toIntegerWithin len start) (toIntegerWithin len stop).

End Js.
Import Js.

(* ================================================================= *)
(** ** Custom error classes *)

(** An [Error] object: [statusCode] is [None] on the errors that the
    runtime raises itself (a [TypeError] has no such property). *)
Record JsError : Type := {
  errName : string;
  message : string;
  statusCode : option Z
}.

Definition NotFoundError (msg : string) : JsError :=
  {| errName := "NotFoundError"; message := msg; statusCode := Some 404%Z |}.

Definition ValidationError (msg : string) : JsError :=
  {| errName := "ValidationError"; message := msg; statusCode := Some 400%Z |}.

Definition AuthenticationError (msg : string) : JsError :=
  {| errName := "AuthenticationError"; message := msg; statusCode := Some 401%Z |}.

Definition TypeError (msg : string) : JsError :=
  {| errName := "TypeError"; message := msg; statusCode := None |}.

(* ================================================================= *)
(** ** Products, requests and responses *)

Record Product : Type := {
  id : string;
  name : string;
  description : string;
  price : JsNum;
  category : string;
  inStock : bool
}.

Inductive Method : Type :=
| GET | HEAD | POST | PUT | DELETE
| OtherMethod (verb : string).

Record Request : Type := {
  method : Method;
  originalUrl : string;
  path : list string;
  headers : gmap string string;
  query : gmap string string;
  body : gmap string JsVal
}.

(** The values bound to the named segments of the matched route. *)
Abbreviation Params := (gmap string string).

Record Env : Type := {
  NODE_ENV : option string;
  uuid : string
}.

Record Pagination : Type := {
  page : JsNum;
  limit : JsNum;
  totalPages : JsNum;
  hasNext : bool;
  hasPrev : bool
}.

Record PriceStats : Type := {
  highest : JsNum;
  lowest : JsNum;
  average : JsNum
}.

Record Stats : Type := {
  totalProducts : nat;
  totalInStock : nat;
  totalOutOfStock : nat;
  categories : gmap string nat;
  priceStats : PriceStats
}.

(** The bodies the application writes. All but the last are JSON; the last
    is the HTML page of the framework's final handler. *)
Inductive Payload : Type :=
| Welcome
| ProductList (count : nat) (pagination : Pagination) (data : list Product)
| SearchResults (q : string) (count : nat) (data : list Product)
| StatsData (data : Stats)
| ProductData (data : Product)
| Message (text : string)
| ErrorEnvelope (error : string) (stack : bool)
| HtmlPage.

Record Response : Type := {
  status : Z;
  payload : Payload
}.

(** The [success] property of a JSON body. *)
Definition success (p : Payload) : option bool :=
  match p with
  | Welcome | HtmlPage => None
  | ErrorEnvelope _ _ => Some false
  | _ => Some true
  end.

(** The [data] property of a JSON body, when the body has one. *)
Definition hasData (p : Payload) : bool :=
  match p with
  | ProductList _ _ _ | SearchResults _ _ _ | StatsData _ | ProductData _ => true
  | _ => false
  end.

(** [res.json(body)] leaves the status at 200; [res.status(c).json(body)]
    sets it. *)
Definition json (p : Payload) : Response := {| status := 200; payload := p |}.
Definition status_json (c : Z) (p : Payload) : Response :=
  {| status := c; payload := p |}.

(* ================================================================= *)
(** ** Handlers as stateful, fallible computations *)

(** How a statement ends: normally, by a thrown error, or on a value whose
    type the typed store cannot hold (a price that is not a number; the
    validation middleware excludes it, see [postRoute_typed]). *)
Inductive Completion (A : Type) : Type :=
| Normal (a : A)
| Throw (e : JsError)
| Untyped.
Arguments Normal {A} a.
Arguments Throw {A} e.
Arguments Untyped {A}.

Definition M (A : Type) : Type := list Product -> Completion A * list Product.

Definition ret {A : Type} (a : A) : M A := fun ps => (Normal a, ps).

Definition bind {A B : Type} (m : M A) (k : A -> M B) : M B :=
  fun ps =>
    match m ps with
    | (Normal a, ps') => k a ps'
    | (Throw e, ps') => (Throw e, ps')
    | (Untyped, ps') => (Untyped, ps')
    end.

Definition throw {A : Type} (e : JsError) : M A := fun ps => (Throw e, ps).
Definition untyped {A : Type} : M A := fun ps => (Untyped, ps).
Definition getProducts : M (list Product) := fun ps => (Normal ps, ps).
Definition setProducts (ps' : list Product) : M unit := fun _ => (Normal tt, ps').

Declare Scope js_scope.
Delimit Scope js_scope with js.
Notation "x <- m ;; k" := (bind m (fun x => k))
  (at level 100, m at next level, right associativity) : js_scope.
Notation "m ;;; k" := (bind m (fun _ => k))
  (at level 100, right associativity) : js_scope.
Local Open Scope js_scope.

(** What a middleware or handler did with the request. *)
Inductive Signal : Type :=
| Next
| Sent (r : Response).

Definition Handler : Type := Env -> Params -> Request -> M Signal.

(** [asyncHandler(fn)] forwards the rejection of [fn] to [next]; a thrown
    error already travels that way in [M]. *)
Definition asyncHandler (fn : Handler) : Handler := fn.

(* ================================================================= *)
(** ** Middleware *)

(** [req.body.<k>]: an absent property reads as [undefined]. *)
Definition field (k : string) (b : gmap string JsVal) : JsVal :=
  default JUndefined (b !! k).

(** Truthiness of a header or query parameter: present and not empty. *)
Definition present (v : option string) : bool :=
  match v with
  | Some s => negb (String.eqb s EmptyString)
  | None => false
  end.

Definition loggerMiddleware : Handler :=
  fun _ _ _ => ret Next.

Definition authMiddleware : Handler :=
  fun _ _ req =>
    let apiKey := headers req !! "x-api-key" in
    if negb (present apiKey) then
      throw (AuthenticationError
               "API key required. Please provide x-api-key in headers")
    else ret Next.

Definition validateProductMiddleware : Handler :=
  fun _ _ req =>
    let name := field "name" (body req) in
    let description := field "description" (body req) in
    let price := field "price" (body req) in
    let category := field "category" (body req) in
    if falsy name || falsy description || falsy price || falsy category then
      throw (ValidationError
               "Missing required fields: name, description, price, category")
    else if match name with
            | JStr s => (String.length (trim s) =? 0)%nat
            | _ => true
            end
    then throw (ValidationError "Name must be a non-empty string")
    else if match price with
            | JNum n => num_leb n zero
            | _ => true
            end
    then throw (ValidationError "Price must be a positive number")
    else ret Next.

(* ================================================================= *)
(** ** The in-memory products database *)

Definition products : list Product := [
  {| id := "1";
     name := "Laptop";
     description := "High-performance laptop with 16GB RAM";
     price := Fin 1200;
     category := "electronics";
     inStock := true |};
  {| id := "2";
     name := "Smartphone";
     description := "Latest model with 128GB storage";
     price := Fin 800;
     category := "electronics";
     inStock := true |};
  {| id := "3";
     name := "Coffee Maker";
     description := "Programmable coffee maker with timer";
     price := Fin 50;
     category := "kitchen";
     inStock := false |}
].

(* ================================================================= *)
(** ** Route handlers *)

Definition rootHandler : Handler :=
  fun _ _ _ => ret (Sent (json Welcome)).

(** The three filters of the list route, each a no-op when its query
    parameter is absent or empty. *)
Definition filterByCategory (req : Request) (ps : list Product) : list Product :=
  if present (query req !! "category") then
    List.filter
      (fun p => String.eqb (toLowerCase (category p))
                  (toLowerCase (default EmptyString (query req !! "category"))))
      ps
  else ps.

Definition filterByInStock (req : Request) (ps : list Product) : list Product :=
  if present (query req !! "inStock") then
    let wanted :=
      String.eqb (toLowerCase (default EmptyString (query req !! "inStock")))
        "true" in
    List.filter (fun p => Bool.eqb (inStock p) wanted) ps
  else ps.

Definition filterBySearch (req : Request) (ps : list Product) : list Product :=
  if present (query req !! "search") then
    let searchTerm :=
      toLowerCase (default EmptyString (query req !! "search")) in
    List.filter (fun p => includes (toLowerCase (name p)) searchTerm) ps
  else ps.

Definition filtered (req : Request) (ps : list Product) : list Product :=
  filterBySearch req (filterByInStock req (filterByCategory req ps)).

(** The ceiling of [n / limit] for an array length [n] and a non-zero
    integer [limit]. *)
Definition ceilDiv (n : nat) (limit : Z) : Z :=
  Qceiling (inject_Z (Z.of_nat n) / inject_Z limit).

(** [xs.length] as a number. *)
Definition lengthOf {A : Type} (xs : list A) : JsNum :=
  Fin (inject_Z (Z.of_nat (length xs))).

(** The body that [res.json] is given; in the JSON text a [NaN] or an
    infinity is written [null]. *)
Definition paginate (req : Request) (filteredProducts : list Product) : Payload :=
  let page := orDefault (parseInt (query req !! "page")) (Fin 1) in
  let limit := orDefault (parseInt (query req !! "limit")) (Fin 10) in
  let startIndex := idx_mul (idx_sub page (Fin 1)) limit in
  let endIndex := idx_add startIndex limit in
  let paginatedProducts := slice filteredProducts startIndex endIndex in
  ProductList (length filteredProducts)
    {| page := page;
       limit := limit;
       totalPages := Math_ceil (idx_div (lengthOf filteredProducts) limit);
       hasNext := num_ltb endIndex (lengthOf filteredProducts);
       hasPrev := num_ltb zero startIndex |}
    paginatedProducts.

(** GET /api/products *)
Definition listHandler : Handler :=
  fun _ _ req =>
    ps <- getProducts ;;
    let filteredProducts := filtered req ps in
    ret (Sent (json (paginate req filteredProducts))).

Definition dquote : string := String (ascii_of_nat 34) EmptyString.

(** GET /api/products/search *)
Definition searchHandler : Handler :=
  fun _ _ req =>
    let q := query req !! "q" in
    if negb (present q) then
      throw (ValidationError
               ("Search query parameter " ++ dquote ++ "q" ++ dquote
                ++ " is required"))
    else
      ps <- getProducts ;;
      let term := default EmptyString q in
      let searchResults :=
        List.filter
          (fun p => includes (toLowerCase (name p)) (toLowerCase term)) ps in
      ret (Sent (json (SearchResults term (length searchResults) searchResults))).

(** One turn of the [forEach] that counts the categories. The object
    [stats.categories] is a finite map of its own keys, absent until the
    loop writes them; members that an object literal inherits (a category
    named [constructor], say) are outside the model. A missing or zero
    entry is reset to 0 before the increment. *)
Definition countCategory (cats : gmap string nat) (product : Product)
  : gmap string nat :=
  let cats0 :=
    match cats !! category product with
    | Some (S _) => cats
    | _ => <[category product := 0]> cats
    end in
  <[category product := S (default 0 (cats0 !! category product))]> cats0.

Definition computeStats (ps : list Product) : Stats :=
  {| totalProducts := length ps;
     totalInStock := length (List.filter (fun p => inStock p) ps);
     totalOutOfStock := length (List.filter (fun p => negb (inStock p)) ps);
     categories := fold_left countCategory ps ∅;
     priceStats :=
       {| highest := Math_max (List.map price ps);
          lowest := Math_min (List.map price ps);
          average :=
            num_div (fold_left (fun sum p => num_add sum (price p)) ps zero)
              (Fin (inject_Z (Z.of_nat (length ps)))) |} |}.

(** GET /api/products/stats *)
Definition statsHandler : Handler :=
  fun _ _ _ =>
    ps <- getProducts ;;
    ret (Sent (json (StatsData (computeStats ps)))).

(** [p.id === req.params.id] *)
Definition hasId (rid : option string) (p : Product) : Prop := Some (id p) = rid.

#[global] Instance hasId_dec rid p : Decision (hasId rid p).
Proof. unfold hasId. apply _. Defined.

(** GET /api/products/:id *)
Definition getHandler : Handler :=
  fun _ params _ =>
    ps <- getProducts ;;
    match list_find (hasId (params !! "id")) ps with
    | None => throw (NotFoundError "Product not found")
    | Some (_, product) => ret (Sent (json (ProductData product)))
    end.

(** [v.trim()] on a body property named [what]. *)
Definition callTrim (what : string) (v : JsVal) : M string :=
  match v with
  | JStr s => ret (trim s)
  | JUndefined =>
      throw (TypeError "Cannot read properties of undefined (reading 'trim')")
  | JNull =>
      throw (TypeError "Cannot read properties of null (reading 'trim')")
  | _ => throw (TypeError (what ++ ".trim is not a function"))
  end.

(** The price is stored as received. The typed store holds numbers only:
    any other value, which the validation middleware does not let through,
    ends the computation on [Untyped]. A handler reads its price last, so
    that the [trim] calls, which can throw, come first as in the source. *)
Definition asNumber (v : JsVal) : M JsNum :=
  match v with
  | JNum n => ret n
  | _ => untyped
  end.

(** POST /api/products *)
Definition createHandler : Handler :=
  fun env _ req =>
    let name := field "name" (body req) in
    let description := field "description" (body req) in
    let price := field "price" (body req) in
    let category := field "category" (body req) in
    let inStock :=
      match field "inStock" (body req) with
      | JUndefined => JBool true
      | v => v
      end in
    let id' := uuid env in
    name' <- callTrim "name" name ;;
    description' <- callTrim "description" description ;;
    category' <- callTrim "category" category ;;
    price' <- asNumber price ;;
    let newProduct :=
      {| id := id';
         name := name';
         description := description';
         price := price';
         category := category';
         inStock := truthy inStock |} in
    ps <- getProducts ;;
    setProducts (ps ++ [newProduct]) ;;;
    ret (Sent (status_json 201 (ProductData newProduct))).

(** PUT /api/products/:id *)
Definition updateHandler : Handler :=
  fun _ params req =>
    ps <- getProducts ;;
    match list_find (hasId (params !! "id")) ps with
    | None => throw (NotFoundError "Product not found")
    | Some (productIndex, old) =>
        let name := field "name" (body req) in
        let description := field "description" (body req) in
        let price := field "price" (body req) in
        let category := field "category" (body req) in
        let inStock' := field "inStock" (body req) in
        name' <- callTrim "name" name ;;
        description' <- callTrim "description" description ;;
        category' <- callTrim "category" category ;;
        price' <- asNumber price ;;
        let updated :=
          {| id := id old;
             name := name';
             description := description';
             price := price';
             category := category';
             inStock :=
               match inStock' with
               | JUndefined => inStock old
               | v => truthy v
               end |} in
        setProducts (<[productIndex := updated]> ps) ;;;
        ret (Sent (json (ProductData updated)))
    end.

(** DELETE /api/products/:id *)
Definition deleteHandler : Handler :=
  fun _ params _ =>
    ps <- getProducts ;;
    match list_find (hasId (params !! "id")) ps with
    | None => throw (NotFoundError "Product not found")
    | Some (productIndex, _) =>
        setProducts (delete productIndex ps) ;;;
        ret (Sent (json (Message "Product deleted successfully")))
    end.

(** The global error-handling middleware. *)
Definition errorHandler (env : Env) (error : JsError) (req : Request) : Response :=
  let statusCode :=
    match statusCode error with
    | Some c => if (c =? 0)%Z then 500%Z else c
    | None => 500%Z
    end in
  let message :=
    if String.eqb (message error) EmptyString then "Internal Server Error"
    else message error in
  status_json statusCode
    (ErrorEnvelope message
       (match NODE_ENV env with
        | Some e => String.eqb e "development"
        | None => false
        end)).

(** The catch-all 404 handler. *)
Definition notFoundHandler : Handler :=
  fun _ _ req =>
    throw (NotFoundError ("Route " ++ originalUrl req ++ " not found")).

(* ================================================================= *)
(** ** The application: Express's layer stack

    Express keeps the middlewares and routes in the order of their
    registration. A request walks the stack from the top; a thrown error
    walks on from the layer that threw, skipping every layer that is not an
    error-handling middleware, and ends in the framework's final handler
    when no such middleware is left. *)

Inductive Segment : Type :=
| Lit (s : string)
| Param (key : string).

(** Route paths match case-insensitively, segment by segment. *)
Fixpoint matchPath (pattern : list Segment) (segs : list string) : option Params :=
  match pattern, segs with
  | [], [] => Some ∅
  | Lit s :: pattern', seg :: segs' =>
      if String.eqb (toLowerCase seg) (toLowerCase s)
      then matchPath pattern' segs' else None
  | Param k :: pattern', seg :: segs' =>
      (fun ps => <[k := seg]> ps) <$> matchPath pattern' segs'
  | _, _ => None
  end.

(** [app.use(mount, fn)] matches every path below the mount point. *)
Fixpoint matchMount (mount : list string) (segs : list string) : bool :=
  match mount, segs with
  | [], _ => true
  | s :: mount', seg :: segs' =>
      String.eqb (toLowerCase seg) (toLowerCase s) && matchMount mount' segs'
  | _ :: _, [] => false
  end.

Definition method_eqb (a b : Method) : bool :=
  match a, b with
  | GET, GET | HEAD, HEAD | POST, POST | PUT, PUT | DELETE, DELETE => true
  | OtherMethod x, OtherMethod y => String.eqb x y
  | _, _ => false
  end.

(** A route registered for GET also answers HEAD. *)
Definition handlesMethod (verb m : Method) : bool :=
  method_eqb verb m ||
  match verb, m with
  | GET, HEAD => true
  | _, _ => false
  end.

Inductive Layer : Type :=
| Use (mount : list string) (fn : Handler)
| Route (verb : Method) (pattern : list Segment) (chain : list Handler)
| UseError (fn : Env -> JsError -> Request -> Response).

(** The handlers of one route run in sequence, each on [next()] of the
    one before. *)
Fixpoint runChain (chain : list Handler) : Handler :=
  fun env params req =>
    match chain with
    | [] => ret Next
    | fn :: rest =>
        s <- fn env params req ;;
        match s with
        | Next => runChain rest env params req
        | Sent r => ret (Sent r)
        end
    end.

(** What a layer does with a request that carries no error: [None] when
    the layer does not apply. *)
Definition enter (layer : Layer) (env : Env) (req : Request) : option (M Signal) :=
  match layer with
  | Use mount fn =>
      if matchMount mount (path req) then Some (fn env ∅ req) else None
  | Route verb pattern chain =>
      if handlesMethod verb (method req) then
        match matchPath pattern (path req) with
        | Some params => Some (runChain chain env params req)
        | None => None
        end
      else None
  | UseError _ => None
  end.

(** Express's final handler: an HTML page, with the status the error
    carries when that is a 4xx or 5xx code. *)
Definition finalhandler (err : option JsError) : Response :=
  match err with
  | None => status_json 404 HtmlPage
  | Some e =>
      status_json
        match statusCode e with
        | Some c => if ((400 <=? c) && (c <? 600))%Z then c else 500%Z
        | None => 500%Z
        end
        HtmlPage
  end.

(** The walk over the stack. The result is [None] only when a handler
    ended on [Untyped]. *)
Fixpoint handle (stack : list Layer) (env : Env) (req : Request)
  (err : option JsError) (ps : list Product) : option Response * list Product :=
  match stack with
  | [] => (Some (finalhandler err), ps)
  | layer :: rest =>
      match err with
      | Some e =>
          match layer with
          | UseError fn => (Some (fn env e req), ps)
          | _ => handle rest env req err ps
          end
      | None =>
          match enter layer env req with
          | None => handle rest env req None ps
          | Some m =>
              match m ps with
              | (Normal Next, ps') => handle rest env req None ps'
              | (Normal (Sent r), ps') => (Some r, ps')
              | (Throw e, ps') => handle rest env req (Some e) ps'
              | (Untyped, ps') => (None, ps')
              end
          end
      end
  end.

(** [bodyParser.json()] on a body that it takes: the request carries the
    parsed body. For a body that it rejects see [serve]. *)
Definition jsonBodyParser : Handler := fun _ _ _ => ret Next.

Definition api_products : list Segment := [Lit "api"; Lit "products"].

(** The stack, in the order of the file. *)
Definition app : list Layer := [
  Use [] jsonBodyParser;
  Use [] loggerMiddleware;
  Use ["api"; "products"] authMiddleware;
  Route GET [] [rootHandler];
  Route GET api_products [asyncHandler listHandler];
  Route GET (api_products ++ [Lit "search"]) [asyncHandler searchHandler];
  Route GET (api_products ++ [Lit "stats"]) [asyncHandler statsHandler];
  Route GET (api_products ++ [Param "id"]) [asyncHandler getHandler];
  Route POST api_products [validateProductMiddleware; asyncHandler createHandler];
  Route PUT (api_products ++ [Param "id"])
    [validateProductMiddleware; asyncHandler updateHandler];
  Route DELETE (api_products ++ [Param "id"]) [asyncHandler deleteHandler];
  UseError errorHandler;
  Use [] notFoundHandler
].

Definition dispatch (env : Env) (req : Request) (ps : list Product)
  : option Response * list Product :=
  handle app env req None ps.

(** The application on a request as it arrives. [bodyParser.json()] is the
    first layer of the stack: a body that it cannot take (malformed JSON,
    a body over the size limit, a charset it does not know) makes it pass
    its error to [next], and the request goes down the stack with that
    error, [failure]; otherwise [body req] is what it parsed and
    [dispatch] is the answer. *)
Definition serve (env : Env) (failure : option JsError) (req : Request)
  (ps : list Product) : option Response * list Product :=
  handle app env req failure ps.

(* ================================================================= *)
(** ** Vocabulary of the specification *)

(** The rejection condition of the validation middleware, as the
    specification words it. *)
Definition spec_rejects (b : gmap string JsVal) : Prop :=
  falsy (field "name" b) = true
  ∨ falsy (field "description" b) = true
  ∨ falsy (field "price" b) = true
  ∨ falsy (field "category" b) = true
  ∨ ¬ (∃ s, field "name" b = JStr s ∧ trim s ≠ EmptyString)
  ∨ ¬ (∃ n, field "price" b = JNum n ∧ num_ltb zero n = true).

(** A computation that never writes the products array. *)
Definition readOnly {A : Type} (m : M A) : Prop := ∀ ps, snd (m ps) = ps.

(** A computation that never ends on [Untyped]. *)
Definition typed {A : Type} (m : M A) : Prop := ∀ ps, fst (m ps) ≠ Untyped.

(** A Hoare triple for one layer of the stack: from a store in [P] the
    layer either passes the request on with the store still in [P], or
    ends the request (by a response or by an error) with the store in [Q]. *)
Definition triple (P Q : list Product → Prop) (m : M Signal) : Prop :=
  ∀ ps, P ps →
    match m ps with
    | (Normal Next, ps') => P ps'
    | (_, ps') => Q ps'
    end.

(** The test each filter of the list route applies to a product; a filter
    whose query parameter is absent or empty keeps every product. *)
Definition categoryTest (req : Request) (p : Product) : bool :=
  if present (query req !! "category") then
    String.eqb (toLowerCase (category p))
      (toLowerCase (default EmptyString (query req !! "category")))
  else true.

Definition inStockTest (req : Request) (p : Product) : bool :=
  if present (query req !! "inStock") then
    Bool.eqb (inStock p)
      (String.eqb (toLowerCase (default EmptyString (query req !! "inStock")))
         "true")
  else true.

Definition searchTest (req : Request) (p : Product) : bool :=
  if present (query req !! "search") then
    includes (toLowerCase (name p))
      (toLowerCase (default EmptyString (query req !! "search")))
  else true.

(** The three filters by name, and a run of them in a given order. *)
Inductive FilterName : Type := ByCategory | ByInStock | BySearch.

Definition applyFilter (req : Request) (f : FilterName)
  : list Product → list Product :=
  match f with
  | ByCategory => filterByCategory req
  | ByInStock => filterByInStock req
  | BySearch => filterBySearch req
  end.

Definition filterTest (req : Request) (f : FilterName) : Product → bool :=
  match f with
  | ByCategory => categoryTest req
  | ByInStock => inStockTest req
  | BySearch => searchTest req
  end.

Definition applyInOrder (req : Request) (order : list FilterName)
  (ps : list Product) : list Product :=
  fold_left (fun acc f => applyFilter req f acc) order ps.

(** Sample requests, used to exercise the statements below. *)
Definition sampleEnv : Env :=
  {| NODE_ENV := None; uuid := "9b1deb4d-3b7d-4bad-9bdd-2b0d7b3dcb6d" |}.

Definition withKey : gmap string string := {[ "x-api-key" := "secret" ]}.

Definition secondPageOfTwo : Request :=
  {| method := GET;
     originalUrl := "/api/products?page=2&limit=2";
     path := ["api"; "products"];
     headers := withKey;
     query := {[ "page" := "2"; "limit" := "2" ]};
     body := ∅ |}.

(** The record the create handler builds from a payload whose name,
    description and category are the strings [s], [d], [c] and whose price
    is the number [n]: [inStock] is true when the payload has none. *)
Definition createdProduct (env : Env) (b : gmap string JsVal)
  (s d c : string) (n : JsNum) : Product :=
  {| id := uuid env;
     name := trim s;
     description := trim d;
     price := n;
     category := trim c;
     inStock :=
       match field "inStock" b with
       | JUndefined => true
       | v => truthy v
       end |}.

(** The record the update handler puts in the place of [old]. *)
Definition updatedProduct (old : Product) (b : gmap string JsVal)
  (s d c : string) (n : JsNum) : Product :=
  {| id := id old;
     name := trim s;
     description := trim d;
     price := n;
     category := trim c;
     inStock :=
       match field "inStock" b with
       | JUndefined => inStock old
       | v => truthy v
       end |}.

(** A payload that the validation middleware accepts although its
    description is a number. *)
Definition numericDescription : gmap string JsVal :=
  {[ "name" := JStr "Pen";
     "description" := JNum (Fin 5);
     "price" := JNum (Fin 1);
     "category" := JStr "office" ]}.

Definition createNumericDescription : Request :=
  {| method := POST;
     originalUrl := "/api/products";
     path := ["api"; "products"];
     headers := withKey;
     query := ∅;
     body := numericDescription |}.

Definition updateNumericDescription : Request :=
  {| method := PUT;
     originalUrl := "/api/products/1";
     path := ["api"; "products"; "1"];
     headers := withKey;
     query := ∅;
     body := numericDescription |}.

(** The store invariant: ids are unique and prices are above zero. *)
Definition positivePrice (p : Product) : Prop := num_ltb zero (price p) = true.

Definition storeInvariant (ps : list Product) : Prop :=
  NoDup (id <$> ps) ∧ Forall positivePrice ps.

(** The shape of the strings [uuidv4()] returns:
    [xxxxxxxx-xxxx-4xxx-yxxx-xxxxxxxxxxxx], with [x] a hexadecimal digit
    and [y] one of 8, 9, a, b. *)
Definition hexDigit (c : ascii) : bool :=
  let n := nat_of_ascii c in
  (((48 <=? n) && (n <=? 57)) || ((97 <=? n) && (n <=? 102)))%nat.

Definition variantDigit (c : ascii) : bool :=
  let n := nat_of_ascii c in
  ((n =? 56) || (n =? 57) || (n =? 97) || (n =? 98))%nat.

Fixpoint matchesTemplate (template s : string) : bool :=
  match template, s with
  | EmptyString, EmptyString => true
  | String t template', String c s' =>
      (if Ascii.eqb t "x" then hexDigit c
       else if Ascii.eqb t "y" then variantDigit c
       else Ascii.eqb t c)
      && matchesTemplate template' s'
  | _, _ => false
  end.

Definition is_uuid_v4 (s : string) : bool :=
  matchesTemplate "xxxxxxxx-xxxx-4xxx-yxxx-xxxxxxxxxxxx" s.

(** A request on which the application calls [uuidv4()]. *)
Definition creates (req : Request) : bool :=
  handlesMethod POST (method req)
  && bool_decide (is_Some (matchPath api_products (path req))).

(** The ids generated along a sequence of requests, each request coming
    with the environment in which it is served. *)
Definition generated (trace : list (Env * Request)) : list string :=
  (fun er => uuid (fst er)) <$> List.filter (fun er => creates (snd er)) trace.

(** The store after serving a sequence of requests one by one. *)
Fixpoint run (trace : list (Env * Request)) (ps : list Product) : list Product :=
  match trace with
  | [] => ps
  | (env, req) :: rest => run rest (snd (dispatch env req ps))
  end.

(** The invariant that the induction carries: on top of [storeInvariant],
    every id is a seed id or one of the ids generated so far. *)
Definition tracked (used : list string) (ps : list Product) : Prop :=
  storeInvariant ps
  ∧ Forall (fun p => id p ∈ (id <$> products) ∨ id p ∈ used) ps.

(** The ids handed out once one more request has been served. *)
Definition usedAfter (env : Env) (req : Request) (used : list string)
  : list string :=
  if creates req then uuid env :: used else used.

(** Two creations, an update and a deletion, to exercise the invariant. *)
Definition validPayload : gmap string JsVal :=
  {[ "name" := JStr " Desk lamp ";
     "description" := JStr "LED lamp";
     "price" := JNum (Fin 35);
     "category" := JStr "home" ]}.

Definition createValid : Request :=
  {| method := POST;
     originalUrl := "/api/products";
     path := ["api"; "products"];
     headers := withKey;
     query := ∅;
     body := validPayload |}.

Definition deleteFirst : Request :=
  {| method := DELETE;
     originalUrl := "/api/products/1";
     path := ["api"; "products"; "1"];
     headers := withKey;
     query := ∅;
     body := ∅ |}.

Definition electronicsInStock : Request :=
  {| method := GET;
     originalUrl := "/api/products?category=Electronics&inStock=true&search=phone";
     path := ["api"; "products"];
     headers := withKey;
     query := {[ "category" := "Electronics"; "inStock" := "true";
                 "search" := "phone" ]};
     body := ∅ |}.

Definition sampleTrace : list (Env * Request) := [
  ({| NODE_ENV := None; uuid := "9b1deb4d-3b7d-4bad-9bdd-2b0d7b3dcb6d" |},
   {| method := POST; originalUrl := "/api/products";
      path := ["api"; "products"]; headers := withKey; query := ∅;
      body := validPayload |});
  ({| NODE_ENV := None; uuid := "1b9d6bcd-bbfd-4b2d-9b5d-ab8dfbbd4bed" |},
   {| method := PUT; originalUrl := "/api/products/2";
      path := ["api"; "products"; "2"]; headers := withKey; query := ∅;
      body := validPayload |});
  ({| NODE_ENV := None; uuid := "1b9d6bcd-bbfd-4b2d-9b5d-ab8dfbbd4bed" |},
   {| method := DELETE; originalUrl := "/api/products/1";
      path := ["api"; "products"; "1"]; headers := withKey; query := ∅;
      body := ∅ |});
  ({| NODE_ENV := None; uuid := "6ec0bd7f-11c0-43da-975e-2a8ad9ebae0b" |},
   {| method := POST; originalUrl := "/api/products";
      path := ["api"; "products"]; headers := withKey; query := ∅;
      body := validPayload |})
].

(** How many products of a store are in a category. *)
Definition inCategory (c : string) (ps : list Product) : nat :=
  length (List.filter (fun p => String.eqb (category p) c) ps).






(** The answer of the application once a route handler has run: what the
    handler sent, or the envelope of the global error handler for what it
    threw. A handler that called [next()] would fall through to the
    catch-all handler. *)
Definition answer (env : Env) (req : Request)
  (out : Completion Signal * list Product) : option Response * list Product :=
  match out with
  | (Normal (Sent r), ps') => (Some r, ps')
  | (Normal Next, ps') => (Some (status_json 404 HtmlPage), ps')
  | (Throw e, ps') => (Some (errorHandler env e req), ps')
  | (Untyped, ps') => (None, ps')
  end.

(** Whether a route of the stack takes the request. *)
Definition routeMatches (req : Request) (layer : Layer) : bool :=
  match layer with
  | Route verb pattern _ =>
      handlesMethod verb (method req)
      && bool_decide (is_Some (matchPath pattern (path req)))
  | _ => false
  end.

Definition routed (req : Request) : bool := existsb (routeMatches req) app.

(** Whether the request gets past the API-key check. *)
Definition authorized (req : Request) : bool :=
  negb (matchMount ["api"; "products"] (path req))
  || present (headers req !! "x-api-key").

(** A request for a path that no route knows. *)
Definition unknownRoute : Request :=
  {| method := GET;
     originalUrl := "/nope";
     path := ["nope"];
     headers := ∅;
     query := ∅;
     body := ∅ |}.

(** A request below /api/products that no route knows, without API key. *)
Definition unknownProductRoute : Request :=
  {| method := GET;
     originalUrl := "/api/products/1/reviews";
     path := ["api"; "products"; "1"; "reviews"];
     headers := ∅;
     query := ∅;
     body := ∅ |}.

(** The decimal numeral of a positive integer, as it is written in a
    query string. *)
Definition decimal (p : positive) : string :=
  NilEmpty.string_of_uint (Pos.to_uint p).

(* ----------------------------------------------------------------- *)
(** *** Answers of the application *)

(** Whether the server runs in its development configuration. *)
Definition isDev (env : Env) : bool :=
  match NODE_ENV env with
  | Some e => String.eqb e "development"
  | None => false
  end.

Definition authMessage : string :=
  "API key required. Please provide x-api-key in headers".

(** The parameters of a request that a route with an [:id] takes. *)
Definition idParams (req : Request) (params : Params) : Prop :=
  matchPath (api_products ++ [Param "id"])%list (path req) = Some params.

(** Every way in which the application answers a request [req] that
    arrives on the store [ps]: the answer and the store afterwards. *)
Inductive Served (env : Env) (req : Request) (ps : list Product)
  : option Response → list Product → Prop :=
| served_unauthorized :
    authorized req = false →
    Served env req ps
      (Some (status_json 401 (ErrorEnvelope authMessage (isDev env)))) ps
| served_welcome :
    handlesMethod GET (method req) = true →
    Served env req ps (Some (json Welcome)) ps
| served_list :
    handlesMethod GET (method req) = true →
    Served env req ps (Some (json (paginate req (filtered req ps)))) ps
| served_search_missing msg :
    handlesMethod GET (method req) = true →
    present (query req !! "q") = false →
    Served env req ps (Some (status_json 400 (ErrorEnvelope msg (isDev env)))) ps
| served_search term results :
    handlesMethod GET (method req) = true →
    query req !! "q" = Some term →
    Served env req ps
      (Some (json (SearchResults term (length results) results))) ps
| served_stats :
    handlesMethod GET (method req) = true →
    Served env req ps (Some (json (StatsData (computeStats ps)))) ps
| served_found params p :
    handlesMethod GET (method req) = true →
    idParams req params →
    p ∈ ps →
    hasId (params !! "id") p →
    Served env req ps (Some (json (ProductData p))) ps
| served_not_found params :
    idParams req params →
    Forall (fun q => ¬ hasId (params !! "id") q) ps →
    Served env req ps
      (Some (status_json 404 (ErrorEnvelope "Product not found" (isDev env)))) ps
| served_invalid msg :
    method req = POST ∨ method req = PUT →
    spec_rejects (body req) →
    Served env req ps (Some (status_json 400 (ErrorEnvelope msg (isDev env)))) ps
| served_type_error msg :
    method req = POST ∨ method req = PUT →
    ¬ spec_rejects (body req) →
    (∀ s, field "description" (body req) ≠ JStr s)
    ∨ (∀ s, field "category" (body req) ≠ JStr s) →
    msg ≠ EmptyString →
    Served env req ps (Some (status_json 500 (ErrorEnvelope msg (isDev env)))) ps
| served_created s d c n :
    method req = POST →
    ¬ spec_rejects (body req) →
    field "name" (body req) = JStr s →
    field "description" (body req) = JStr d →
    field "category" (body req) = JStr c →
    field "price" (body req) = JNum n →
    Served env req ps
      (Some (status_json 201
               (ProductData (createdProduct env (body req) s d c n))))
      (ps ++ [createdProduct env (body req) s d c n])
| served_updated params (l1 : list Product) old l2 s d c n :
    method req = PUT →
    ¬ spec_rejects (body req) →
    idParams req params →
    ps = (l1 ++ old :: l2)%list →
    hasId (params !! "id") old →
    Forall (fun q => ¬ hasId (params !! "id") q) l1 →
    field "name" (body req) = JStr s →
    field "description" (body req) = JStr d →
    field "category" (body req) = JStr c →
    field "price" (body req) = JNum n →
    Served env req ps
      (Some (json (ProductData (updatedProduct old (body req) s d c n))))
      (l1 ++ updatedProduct old (body req) s d c n :: l2)%list
| served_deleted params (l1 : list Product) p l2 :
    method req = DELETE →
    idParams req params →
    ps = (l1 ++ p :: l2)%list →
    hasId (params !! "id") p →
    Forall (fun q => ¬ hasId (params !! "id") q) l1 →
    Served env req ps
      (Some (json (Message "Product deleted successfully"))) (l1 ++ l2)%list
| served_no_route :
    routed req = false →
    authorized req = true →
    Served env req ps (Some (status_json 404 HtmlPage)) ps.

(** What a route did with a request: it sent an answer, or threw an error
    that the global error handler puts into its envelope; in both cases
    the outcome is one of [Served]. *)
Definition Answered (env : Env) (req : Request) (ps : list Product)
  (out : Completion Signal * list Product) : Prop :=
  (∃ r ps', out = (Normal (Sent r), ps') ∧ Served env req ps (Some r) ps')
  ∨ (∃ e, out = (Throw e, ps)
          ∧ Served env req ps (Some (errorHandler env e req)) ps).

(** The request with its API key replaced. *)
Definition withKeyValue (req : Request) (k : string) : Request :=
  {| method := method req;
     originalUrl := originalUrl req;
     path := path req;
     headers := <[ "x-api-key" := k ]> (headers req);
     query := query req;
     body := body req |}.

(** The message of the validation error for a payload, by the order of
    the three checks; [None] for a payload that passes. *)
Definition validationError (b : gmap string JsVal) : option string :=
  if falsy (field "name" b) || falsy (field "description" b)
     || falsy (field "price" b) || falsy (field "category" b)
  then Some "Missing required fields: name, description, price, category"
  else if match field "name" b with
          | JStr s => String.eqb (trim s) EmptyString
          | _ => true
          end
  then Some "Name must be a non-empty string"
  else if match field "price" b with
          | JNum n => negb (num_ltb zero n)
          | _ => true
          end
  then Some "Price must be a positive number"
  else None.

(** A write request: a POST to /api/products or a PUT to
    /api/products/:id. *)
Definition writesPayload (req : Request) : Prop :=
  (method req = POST ∧ path req = ["api"; "products"])
  ∨ (method req = PUT ∧ ∃ rid, path req = ["api"; "products"; rid]).

Definition zeroPrice : gmap string JsVal :=
  {[ "name" := JStr "Pen";
     "description" := JStr "Ballpoint";
     "price" := JNum (Fin 0);
     "category" := JStr "office" ]}.

Definition updateZeroPrice : Request :=
  {| method := PUT;
     originalUrl := "/api/products/no-such-id";
     path := ["api"; "products"; "no-such-id"];
     headers := withKey;
     query := ∅;
     body := zeroPrice |}.

(* ----------------------------------------------------------------- *)
(** *** Pages *)

(** The request for page [P] of size [L]: the page and limit parameters
    are the decimal numerals, the rest of the request is kept. *)
Definition withPage (req : Request) (P L : positive) : Request :=
  {| method := method req;
     originalUrl := originalUrl req;
     path := path req;
     headers := headers req;
     query := <[ "page" := decimal P ]> (<[ "limit" := decimal L ]> (query req));
     body := body req |}.

(** The integers that a JavaScript number holds exactly
    ([Number.MAX_SAFE_INTEGER] is 2^53 - 1): on these [parseInt] of the
    decimal numeral is the integer itself. *)
Definition safeInteger (z : Z) : Prop := (Z.abs z ≤ 2 ^ 53 - 1)%Z.

(** The [data] and the [pagination] of the answer of the list handler. *)
Definition listData (env : Env) (req : Request) (ps : list Product)
  : list Product :=
  match listHandler env ∅ req ps with
  | (Normal (Sent {| payload := ProductList _ _ data |}), _) => data
  | _ => []
  end.

Definition listPagination (env : Env) (req : Request) (ps : list Product)
  : option Pagination :=
  match listHandler env ∅ req ps with
  | (Normal (Sent {| payload := ProductList _ pg _ |}), _) => Some pg
  | _ => None
  end.

(** A page of the listing as the specification has it for the page
    number [P] and the limit [L]: the count, the number of pages, the two
    flags and the slice. *)
Definition pageAsSpecified (env : Env) (params : Params) (req : Request)
  (ps : list Product) (P L : positive) : Prop :=
  ∃ pg data,
    listHandler env params req ps
    = (Normal (Sent (json (ProductList (length (filtered req ps)) pg data))), ps)
    ∧ totalPages pg
      = Fin (inject_Z
               (Qceiling (inject_Z (Z.of_nat (length (filtered req ps)))
                          / inject_Z (Z.pos L))))
    ∧ (hasNext pg = true
       ↔ (Z.pos P * Z.pos L < Z.of_nat (length (filtered req ps)))%Z)
    ∧ (hasPrev pg = true ↔ ((Z.pos P - 1) * Z.pos L > 0)%Z)
    ∧ ∀ k : nat,
        data !! k
        = if bool_decide (Z.of_nat k < Z.pos L)%Z
          then filtered req ps !! (Z.to_nat ((Z.pos P - 1) * Z.pos L) + k)%nat
          else None.

(** The first page, asked for with a limit of 401 digits. *)
Definition hugeLimit : Request :=
  {| method := GET;
     originalUrl := "/api/products?page=1&limit=" ++ decimal (10 ^ 400);
     path := ["api"; "products"];
     headers := withKey;
     query := {[ "page" := "1"; "limit" := decimal (10 ^ 400) ]};
     body := ∅ |}.

(** The number of pages of size [L] that the list handler reports. *)
Definition pagesOf (req : Request) (ps : list Product) (L : positive) : nat :=
  Z.to_nat (ceilDiv (length (filtered req ps)) (Z.pos L)).

(** A listing asked for with a page that is zero and a limit that is not a
    number. *)
Definition zeroPage : Request :=
  {| method := GET;
     originalUrl := "/api/products?page=0&limit=ten";
     path := ["api"; "products"];
     headers := withKey;
     query := {[ "page" := "0"; "limit" := "ten" ]};
     body := ∅ |}.

(* ----------------------------------------------------------------- *)
(** *** Search *)

(** The request for a listing filtered by nothing but a search term. *)
Definition withSearch (req : Request) (term : string) : Request :=
  {| method := method req;
     originalUrl := originalUrl req;
     path := path req;
     headers := headers req;
     query := {[ "search" := term ]};
     body := body req |}.

(** A path segment without %-escapes: the segment that the routes match
    is then the one that Express decodes for [:id]. *)
Definition escapeFree (seg : string) : Prop := includes seg "%" = false.

Definition searchPhone : Request :=
  {| method := GET;
     originalUrl := "/api/products/search?q=PHONE";
     path := ["api"; "products"; "search"];
     headers := withKey;
     query := {[ "q" := "PHONE" ]};
     body := ∅ |}.

(* ----------------------------------------------------------------- *)
(** *** Fetching a record *)

(** The record that [find] returns for an id: the first one with it. *)
Definition fetch (rid : string) (ps : list Product) : option Product :=
  snd <$> list_find (hasId (Some rid)) ps.

Definition getCreated : Request :=
  {| method := GET;
     originalUrl := "/api/products/9b1deb4d-3b7d-4bad-9bdd-2b0d7b3dcb6d";
     path := ["api"; "products"; "9b1deb4d-3b7d-4bad-9bdd-2b0d7b3dcb6d"];
     headers := withKey;
     query := ∅;
     body := ∅ |}.

Definition updateSecond : Request :=
  {| method := PUT;
     originalUrl := "/api/products/2";
     path := ["api"; "products"; "2"];
     headers := withKey;
     query := ∅;
     body := validPayload |}.

Definition getSecond : Request :=
  {| method := GET;
     originalUrl := "/api/products/2";
     path := ["api"; "products"; "2"];
     headers := withKey;
     query := ∅;
     body := ∅ |}.

Definition deleteSecond : Request :=
  {| method := DELETE;
     originalUrl := "/api/products/2";
     path := ["api"; "products"; "2"];
     headers := withKey;
     query := ∅;
     body := ∅ |}.

(* ----------------------------------------------------------------- *)
(** *** Stored strings *)

(** A string that [trim] leaves as it is. *)
Definition trimmed (s : string) : Prop := trim s = s.

(** What the write handlers store: a name that is not empty, and a name,
    a description and a category without white space around them. *)
Definition wellNamed (p : Product) : Prop :=
  name p ≠ EmptyString
  ∧ trimmed (name p) ∧ trimmed (description p) ∧ trimmed (category p).

(* ----------------------------------------------------------------- *)
(** *** The inStock parameter *)

Definition withInStock (req : Request) (v : string) : Request :=
  {| method := method req;
     originalUrl := originalUrl req;
     path := path req;
     headers := headers req;
     query := <[ "inStock" := v ]> (query req);
     body := body req |}.

Definition withoutInStock (req : Request) : Request :=
  {| method := method req;
     originalUrl := originalUrl req;
     path := path req;
     headers := headers req;
     query := delete "inStock" (query req);
     body := body req |}.

Definition listAll : Request :=
  {| method := GET;
     originalUrl := "/api/products";
     path := ["api"; "products"];
     headers := withKey;
     query := ∅;
     body := ∅ |}.

(* ----------------------------------------------------------------- *)
(** *** Category counts *)

(** The sum of the counts of a [categories] object. *)
Definition sumCounts (cats : gmap string nat) : nat :=
  map_fold (fun _ n acc => n + acc) 0 cats.

(** The property names that every object literal inherits from
    [Object.prototype]: a category with one of these names does not start
    from an absent entry in [stats.categories]. *)
Definition inheritedKeys : list string :=
  [ "constructor"; "__proto__"; "hasOwnProperty"; "isPrototypeOf";
    "propertyIsEnumerable"; "toLocaleString"; "toString"; "valueOf";
    "__defineGetter__"; "__defineSetter__"; "__lookupGetter__";
    "__lookupSetter__" ].

Definition plainCategories (ps : list Product) : Prop :=
  Forall (fun p => category p ∉ inheritedKeys) ps.

(** Requests for an id that the seeded store does not have. *)
Definition missingId (m : Method) : Request :=
  {| method := m;
     originalUrl := "/api/products/42";
     path := ["api"; "products"; "42"];
     headers := withKey;
     query := ∅;
     body := numericDescription |}.

(* ================================================================= *)
(** ** The router layout *)

(** The same API written as an [express.Router()] module. Its get-by-id,
    create, update and delete handlers are those of the single-file server
    word for word; its list, search and stats handlers differ and are
    embedded here. A router handler ends by sending its response. *)
Module Router.

Record Pagination : Type := {
  page : JsNum;
  limit : JsNum;
  totalPages : JsNum
}.

Record Stats : Type := {
  totalProducts : nat;
  totalInStock : nat;
  categories : gmap string nat
}.

Inductive Payload : Type :=
| ProductList (count : nat) (pagination : Pagination) (data : list Product)
| SearchError (error : string)
| SearchResults (q : string) (count : nat) (data : list Product)
| StatsData (data : Stats).

Record Response : Type := {
  status : Z;
  payload : Payload
}.

Definition json (p : Payload) : Response := {| status := 200; payload := p |}.
Definition status_json (c : Z) (p : Payload) : Response :=
  {| status := c; payload := p |}.

Definition products : list Product := [
  {| id := "1";
     name := "Laptop";
     description := "High-performance laptop";
     price := roundDouble (99999 # 100);
     category := "Electronics";
     inStock := true |}
].

(** GET / of the router *)
Definition listHandler : Env -> Params -> Request -> M Response :=
  fun _ _ req =>
    ps <- getProducts ;;
    let filteredProducts :=
      if present (query req !! "category") then
        List.filter
          (fun p => String.eqb (toLowerCase (category p))
                      (toLowerCase (default EmptyString (query req !! "category"))))
          ps
      else ps in
    let page := orDefault (parseInt (query req !! "page")) (Fin 1) in
    let limit := orDefault (parseInt (query req !! "limit")) (Fin 10) in
    let startIndex := idx_mul (idx_sub page (Fin 1)) limit in
    let paginatedProducts :=
      slice filteredProducts startIndex (idx_add startIndex limit) in
    ret (json (ProductList (length filteredProducts)
                 {| page := page;
                    limit := limit;
                    totalPages :=
                      Math_ceil (idx_div (lengthOf filteredProducts) limit) |}
                 paginatedProducts)).

(** GET /search of the router *)
Definition searchHandler : Env -> Params -> Request -> M Response :=
  fun _ _ req =>
    let q := query req !! "q" in
    if negb (present q) then
      ret (status_json 400
             (SearchError ("Search query parameter " ++ dquote ++ "q" ++ dquote
                           ++ " is required")))
    else
      ps <- getProducts ;;
      let term := default EmptyString q in
      let searchResults :=
        List.filter
          (fun p => includes (toLowerCase (name p)) (toLowerCase term)) ps in
      ret (json (SearchResults term (length searchResults) searchResults)).

(** GET /stats of the router *)
Definition statsHandler : Env -> Params -> Request -> M Response :=
  fun _ _ _ =>
    ps <- getProducts ;;
    ret (json (StatsData
                 {| totalProducts := length ps;
                    totalInStock := length (List.filter (fun p => inStock p) ps);
                    categories := fold_left countCategory ps ∅ |})).

(** What a client of the router gets. *)
Definition served (out : Completion Response * list Product)
  : option Response * list Product :=
  match out with
  | (Normal r, ps') => (Some r, ps')
  | (_, ps') => (None, ps')
  end.

End Router.

(** A body of the single-file server, read with the fields that the
    router writes: the pagination without [hasNext] and [hasPrev], the
    statistics without [totalOutOfStock] and [priceStats], the error
    envelope without a stack. *)
Definition routerPayload (p : Payload) : option Router.Payload :=
  match p with
  | ProductList n pg data =>
      Some (Router.ProductList n
              {| Router.page := page pg;
                 Router.limit := limit pg;
                 Router.totalPages := totalPages pg |}
              data)
  | SearchResults q n data => Some (Router.SearchResults q n data)
  | StatsData st =>
      Some (Router.StatsData
              {| Router.totalProducts := totalProducts st;
                 Router.totalInStock := totalInStock st;
                 Router.categories := categories st |})
  | ErrorEnvelope msg false => Some (Router.SearchError msg)
  | _ => None
  end.

Definition routerResponse (r : Response) : option Router.Response :=
  (fun p => {| Router.status := status r; Router.payload := p |})
    <$> routerPayload (payload r).

Definition routerView (a : option Response * list Product)
  : option Router.Response * list Product :=
  (fst a ≫= routerResponse, snd a).

(** The request with the two filters that the router does not know taken
    out of the query. *)
Definition categoryOnly (req : Request) : Request :=
  {| method := method req;
     originalUrl := originalUrl req;
     path := path req;
     headers := headers req;
     query := delete "inStock" (delete "search" (query req));
     body := body req |}.

(** The root route, asked for without an API key. *)
Definition rootRequest : Request :=
  {| method := GET;
     originalUrl := "/";
     path := [];
     headers := ∅;
     query := ∅;
     body := ∅ |}.

(* ================================================================= *)
(** * Properties *)

Local Open Scope list_scope.

(* ================================================================= *)
(** ** Validation middleware *)

Lemma length_zero_empty (s : string) :
  (String.length s =? 0)%nat = true ↔ s = EmptyString.
Proof.
  destruct s; simpl; split; intros H; try done.
Qed.

Lemma positive_number (n : JsNum) :
  num_truthy n = true → num_leb n zero = false → num_ltb zero n = true.
Proof.
  destruct n; simpl; try done.
  intros _ H. by rewrite H.
Qed.

Lemma not_positive_number (n : JsNum) :
  num_leb n zero = true → num_ltb zero n = false.
Proof.
  destruct n; simpl; try done.
  intros H. by rewrite H.
Qed.

(** What the middleware does, branch by branch. *)
Lemma validate_cases env params req ps :
  (validateProductMiddleware env params req ps = (Normal Next, ps)
   ∧ ¬ spec_rejects (body req))
  ∨ (∃ msg, validateProductMiddleware env params req ps
            = (Throw (ValidationError msg), ps)
     ∧ spec_rejects (body req)).
Proof.
  unfold validateProductMiddleware, spec_rejects.
  destruct (falsy (field "name" (body req))) eqn:Hn; simpl.
  { right. eexists. split; [reflexivity | tauto]. }
  destruct (falsy (field "description" (body req))) eqn:Hd; simpl.
  { right. eexists. split; [reflexivity | tauto]. }
  destruct (falsy (field "price" (body req))) eqn:Hp; simpl.
  { right. eexists. split; [reflexivity | tauto]. }
  destruct (falsy (field "category" (body req))) eqn:Hc; simpl.
  { right. eexists. split; [reflexivity | tauto]. }
  destruct (field "name" (body req)) as [| |b|n|s|l|l] eqn:En;
    try (right; eexists; split; [reflexivity |];
         do 4 right; left; intros (s' & Hs' & _); discriminate).
  destruct (String.length (trim s) =? 0)%nat eqn:Hlen.
  { right. eexists. split; [reflexivity |].
    do 4 right. left. intros (s' & Hs' & Hne). injection Hs' as <-.
    apply length_zero_empty in Hlen. contradiction. }
  destruct (field "price" (body req)) as [| |b|n|s'|l|l] eqn:Ep;
    try (right; eexists; split; [reflexivity |];
         do 5 right; intros (n' & Hn' & _); discriminate).
  destruct (num_leb n zero) eqn:Hle.
  { right. eexists. split; [reflexivity |].
    do 5 right. intros (n' & Hn' & Hlt). injection Hn' as <-.
    apply not_positive_number in Hle. simpl in Hle, Hlt. congruence. }
  left. split; [reflexivity |].
  intros [H|[H|[H|[H|[H|H]]]]]; try discriminate.
  - apply H. exists s. split; [done |].
    intros Hs. rewrite Hs in Hlen. discriminate.
  - apply H. exists n. split; [done |].
    apply positive_number; [| done].
    unfold falsy in Hp. simpl in Hp. by destruct (num_truthy n).
Qed.

(** C2. For every request body the validation middleware throws a
    ValidationError, which carries status 400 and is answered with status
    400, exactly when one of name, description, price, category is falsy,
    or name is not a string with a non-empty trimmed form, or price is not
    a number strictly greater than zero. When it passes, it calls [next()]
    and the handlers after it run on the same request and the same store. *)
Theorem validation_rejects_iff env params req ps :
  ((∃ msg, validateProductMiddleware env params req ps
           = (Throw (ValidationError msg), ps))
   ↔ spec_rejects (body req))
  ∧ (∀ msg, statusCode (ValidationError msg) = Some 400%Z
            ∧ status (errorHandler env (ValidationError msg) req) = 400%Z)
  ∧ (¬ spec_rejects (body req) →
     validateProductMiddleware env params req ps = (Normal Next, ps)
     ∧ ∀ rest, runChain (validateProductMiddleware :: rest) env params req ps
               = runChain rest env params req ps).
Proof.
  destruct (validate_cases env params req ps) as [[Hok Hno]|(msg & Hthrow & Hyes)].
  - split; [| split].
    + split; [| tauto]. intros (msg & Hmsg). rewrite Hok in Hmsg. discriminate.
    + intros msg. split; reflexivity.
    + intros _. split; [done |]. intros rest.
      cbn [runChain]. unfold bind. by rewrite Hok.
  - split; [| split].
    + split; [tauto |]. intros _. by exists msg.
    + intros msg'. split; reflexivity.
    + tauto.
Qed.

Lemma validation_rejects_iff_witness :
  ¬ spec_rejects (body createValid)
  ∧ validateProductMiddleware sampleEnv ∅ createValid products
    = (Normal Next, products)
  ∧ runChain [validateProductMiddleware; asyncHandler listHandler]
      sampleEnv ∅ createValid products
    = runChain [asyncHandler listHandler] sampleEnv ∅ createValid products.
Proof.
  destruct (validation_rejects_iff sampleEnv ∅ createValid products)
    as ([_ Hthrows] & _ & Hpass).
  assert (Hacc : ¬ spec_rejects (body createValid)).
  { intros Hrej. destruct (Hthrows Hrej) as [msg Hmsg].
    vm_compute in Hmsg. discriminate. }
  split; [exact Hacc |].
  split; [exact (proj1 (Hpass Hacc)) | exact (proj2 (Hpass Hacc) _)].
Defined.

(* ================================================================= *)
(** ** Frame reasoning over the layer stack *)

Section ReadOnly.

Context {A B : Type}.

Lemma readOnly_ret (a : A) : readOnly (ret a).
Proof. by intros ps. Qed.

Lemma readOnly_throw (e : JsError) : readOnly (@throw A e).
Proof. by intros ps. Qed.

Lemma readOnly_untyped : readOnly (@untyped A).
Proof. by intros ps. Qed.

Lemma readOnly_bind (m : M A) (k : A → M B) :
  readOnly m → (∀ a, readOnly (k a)) → readOnly (bind m k).
Proof.
  intros Hm Hk ps. unfold bind. specialize (Hm ps).
  destruct (m ps) as [[a|e|] ps']; simpl in *; subst ps'; [apply Hk | done | done].
Qed.

End ReadOnly.

Lemma readOnly_getProducts : readOnly getProducts.
Proof. by intros ps. Qed.

Lemma readOnly_callTrim what v : readOnly (callTrim what v).
Proof. destruct v; apply readOnly_ret || apply readOnly_throw. Qed.

Lemma readOnly_asNumber v : readOnly (asNumber v).
Proof. destruct v; apply readOnly_ret || apply readOnly_untyped. Qed.

Create HintDb frame.
#[local] Hint Resolve readOnly_ret readOnly_throw readOnly_untyped
  readOnly_getProducts readOnly_callTrim readOnly_asNumber : frame.

Ltac read_only :=
  repeat first
    [ apply readOnly_bind; [| intros ?]
    | solve [auto with frame]
    | match goal with
      | |- readOnly (if ?c then _ else _) => destruct c
      | |- readOnly (match ?o with _ => _ end) => destruct o
      | |- readOnly (let '(_, _) := ?x in _) => destruct x
      end ].

Lemma readOnly_jsonBodyParser env params req :
  readOnly (jsonBodyParser env params req).
Proof. unfold jsonBodyParser. read_only. Qed.

Lemma readOnly_logger env params req : readOnly (loggerMiddleware env params req).
Proof. unfold loggerMiddleware. read_only. Qed.

Lemma readOnly_auth env params req : readOnly (authMiddleware env params req).
Proof. unfold authMiddleware. read_only. Qed.

Lemma readOnly_validate env params req :
  readOnly (validateProductMiddleware env params req).
Proof.
  intros ps.
  destruct (validate_cases env params req ps) as [[-> _]|(msg & -> & _)]; done.
Qed.

Lemma readOnly_root env params req : readOnly (rootHandler env params req).
Proof. unfold rootHandler. read_only. Qed.

Lemma readOnly_list env params req : readOnly (listHandler env params req).
Proof. unfold listHandler. read_only. Qed.

Lemma readOnly_search env params req : readOnly (searchHandler env params req).
Proof. unfold searchHandler. read_only. Qed.

Lemma readOnly_stats env params req : readOnly (statsHandler env params req).
Proof. unfold statsHandler. read_only. Qed.

Lemma readOnly_get env params req : readOnly (getHandler env params req).
Proof. unfold getHandler. read_only. Qed.

Lemma readOnly_notFound env params req : readOnly (notFoundHandler env params req).
Proof. unfold notFoundHandler. read_only. Qed.

Lemma readOnly_triple (P Q : list Product → Prop) (m : M Signal) :
  (∀ ps, P ps → Q ps) → readOnly m → triple P Q m.
Proof.
  intros HPQ Hm ps HP. specialize (Hm ps).
  destruct (m ps) as [[[|r]|e|] ps']; simpl in Hm; subst ps'; auto.
Qed.

Section Stack.

Variables (env : Env) (req : Request).
Variables (P Q : list Product → Prop).
Hypothesis P_Q : ∀ ps, P ps → Q ps.

(** Once an error travels, no handler runs any more. *)
Lemma handle_error_store stack e ps :
  snd (handle stack env req (Some e) ps) = ps.
Proof.
  induction stack as [|layer rest IH]; [done |].
  destruct layer; simpl; auto.
Qed.

Lemma runChain_triple chain params :
  Forall (fun fn : Handler => triple P Q (fn env params req)) chain →
  triple P Q (runChain chain env params req).
Proof.
  induction 1 as [|fn rest Hfn _ IH]; intros ps HP; simpl; [done |].
  unfold bind. specialize (Hfn ps HP).
  destruct (fn env params req ps) as [[[|r]|e|] ps']; auto.
  by apply IH.
Qed.

Lemma handle_triple stack :
  Forall (fun layer => ∀ m, enter layer env req = Some m → triple P Q m) stack →
  ∀ ps, P ps → Q (snd (handle stack env req None ps)).
Proof.
  induction 1 as [|layer rest Hl _ IH]; intros ps HP; simpl; [auto |].
  destruct (enter layer env req) as [m|] eqn:Em; [| auto].
  specialize (Hl m eq_refl ps HP).
  destruct (m ps) as [[[|r]|e|] ps']; simpl; auto.
  by rewrite handle_error_store.
Qed.

End Stack.

Lemma enter_use mount fn env req m :
  enter (Use mount fn) env req = Some m → m = fn env ∅ req.
Proof.
  simpl. destruct (matchMount mount (path req)); congruence.
Qed.

Lemma enter_route verb pattern chain env req m :
  enter (Route verb pattern chain) env req = Some m →
  handlesMethod verb (method req) = true
  ∧ ∃ params, matchPath pattern (path req) = Some params
              ∧ m = runChain chain env params req.
Proof.
  simpl. destruct (handlesMethod verb (method req)); [| done].
  destruct (matchPath pattern (path req)) as [params|]; [| done].
  intros [= <-]. eauto.
Qed.

Lemma readOnly_chain chain env params req :
  Forall (fun fn : Handler => readOnly (fn env params req)) chain →
  readOnly (runChain chain env params req).
Proof.
  induction 1 as [|fn rest Hfn _ IH]; simpl; [apply readOnly_ret |].
  apply readOnly_bind; [done |]. intros [|r]; [done | apply readOnly_ret].
Qed.

Lemma write_routes_skip_reads verb m :
  handlesMethod GET m = true → verb = POST ∨ verb = PUT ∨ verb = DELETE →
  handlesMethod verb m = false.
Proof.
  intros Hm [->|[->| ->]]; destruct m; simpl in *; done.
Qed.

(** C10. The list, search, stats and get-by-id handlers leave the products
    array as it was, for every store and every request; and so does the
    whole application on any GET or HEAD request, whatever the route, the
    query or the outcome (a response or an error). *)
Theorem read_only_handlers env params req ps :
  snd (listHandler env params req ps) = ps
  ∧ snd (searchHandler env params req ps) = ps
  ∧ snd (statsHandler env params req ps) = ps
  ∧ snd (getHandler env params req ps) = ps
  ∧ (handlesMethod GET (method req) = true → snd (dispatch env req ps) = ps).
Proof.
  split; [apply readOnly_list |].
  split; [apply readOnly_search |].
  split; [apply readOnly_stats |].
  split; [apply readOnly_get |].
  intros Hget. unfold dispatch.
  apply (handle_triple env req (fun s => s = ps) (fun s => s = ps));
    [done | | done].
  unfold app.
  repeat apply Forall_cons_2; try apply Forall_nil_2; intros m Hm;
    (apply readOnly_triple; [done |]);
    first
      [ apply enter_use in Hm; subst m;
        first [ apply readOnly_jsonBodyParser | apply readOnly_logger
              | apply readOnly_auth | apply readOnly_notFound ]
      | apply enter_route in Hm; destruct Hm as (Hverb & params' & _ & ->);
        first
          [ rewrite (write_routes_skip_reads _ _ Hget) in Hverb by tauto;
            discriminate
          | apply readOnly_chain; unfold asyncHandler;
            repeat apply Forall_cons_2; try apply Forall_nil_2;
            first [ apply readOnly_root | apply readOnly_list
                  | apply readOnly_search | apply readOnly_stats
                  | apply readOnly_get ] ]
      | discriminate ].
Qed.

Lemma read_only_handlers_witness :
  snd (dispatch sampleEnv secondPageOfTwo products) = products.
Proof.
  apply (read_only_handlers sampleEnv ∅ secondPageOfTwo products). reflexivity.
Defined.

Lemma runChain_single (fn : Handler) env params req ps :
  runChain [fn] env params req ps = fn env params req ps.
Proof.
  simpl. unfold bind.
  by destruct (fn env params req ps) as [[[|r]|e|] ps'].
Qed.

(* ================================================================= *)
(** ** Routing of the write requests *)

Ltac walk_stack Hm Hp Hk :=
  unfold dispatch, app; cbn [handle enter];
  rewrite Hm, Hp;
  cbn [handlesMethod method_eqb orb matchPath matchMount app api_products];
  change (toLowerCase "api") with "api";
  change (toLowerCase "products") with "products";
  cbn [String.eqb Ascii.eqb Bool.eqb andb fmap option_fmap option_map];
  unfold jsonBodyParser, loggerMiddleware, authMiddleware, ret;
  rewrite Hk; cbn [negb].

Lemma dispatch_delete env req rid ps :
  method req = DELETE → path req = ["api"; "products"; rid] →
  present (headers req !! "x-api-key") = true →
  dispatch env req ps = answer env req (deleteHandler env {[ "id" := rid ]} req ps).
Proof.
  intros Hm Hp Hk. walk_stack Hm Hp Hk.
  change (matchPath (api_products ++ [Param "id"]) ["api"; "products"; rid])
    with (Some ({[ "id" := rid ]} : Params)).
  cbv beta iota. rewrite runChain_single. unfold asyncHandler.
  by destruct (deleteHandler _ _ _ _) as [[[|r]|e|] ps'].
Qed.

Lemma dispatch_create env req ps :
  method req = POST → path req = ["api"; "products"] →
  present (headers req !! "x-api-key") = true →
  dispatch env req ps
  = answer env req
      (runChain [validateProductMiddleware; asyncHandler createHandler]
         env ∅ req ps).
Proof.
  intros Hm Hp Hk. walk_stack Hm Hp Hk.
  by destruct (runChain _ _ _ _ _) as [[[|r]|e|] ps'].
Qed.

Lemma dispatch_update env req rid ps :
  method req = PUT → path req = ["api"; "products"; rid] →
  present (headers req !! "x-api-key") = true →
  dispatch env req ps
  = answer env req
      (runChain [validateProductMiddleware; asyncHandler updateHandler]
         env {[ "id" := rid ]} req ps).
Proof.
  intros Hm Hp Hk. walk_stack Hm Hp Hk.
  change (matchPath (api_products ++ [Param "id"]) ["api"; "products"; rid])
    with (Some ({[ "id" := rid ]} : Params)).
  cbv beta iota.
  by destruct (runChain _ _ _ _ _) as [[[|r]|e|] ps'].
Qed.

(* ================================================================= *)
(** ** Filtering *)

Lemma filterByCategory_filter req ps :
  filterByCategory req ps = List.filter (categoryTest req) ps.
Proof.
  unfold filterByCategory, categoryTest.
  destruct (present (query req !! "category")); [done |].
  induction ps as [|p ps IH]; simpl; congruence.
Qed.

Lemma filterByInStock_filter req ps :
  filterByInStock req ps = List.filter (inStockTest req) ps.
Proof.
  unfold filterByInStock, inStockTest.
  destruct (present (query req !! "inStock")); [done |].
  induction ps as [|p ps IH]; simpl; congruence.
Qed.

Lemma filterBySearch_filter req ps :
  filterBySearch req ps = List.filter (searchTest req) ps.
Proof.
  unfold filterBySearch, searchTest.
  destruct (present (query req !! "search")); [done |].
  induction ps as [|p ps IH]; simpl; congruence.
Qed.

Lemma filter_filter {A : Type} (f g : A → bool) (l : list A) :
  List.filter f (List.filter g l) = List.filter (fun x => g x && f x) l.
Proof.
  induction l as [|x l IH]; simpl; [done |].
  destruct (g x); simpl; [destruct (f x) |]; congruence.
Qed.

Lemma applyFilter_filter req f ps :
  applyFilter req f ps = List.filter (filterTest req f) ps.
Proof.
  destruct f; simpl;
    auto using filterByCategory_filter, filterByInStock_filter,
      filterBySearch_filter.
Qed.

Lemma applyInOrder_filter req order ps :
  applyInOrder req order ps
  = List.filter (fun p => forallb (fun f => filterTest req f p) order) ps.
Proof.
  unfold applyInOrder. revert ps.
  induction order as [|f order IH]; intros ps; simpl.
  - induction ps as [|p ps IHps]; simpl; congruence.
  - by rewrite IH, applyFilter_filter, filter_filter.
Qed.

Lemma forallb_Permutation {A : Type} (f : A → bool) (l l' : list A) :
  l ≡ₚ l' → forallb f l = forallb f l'.
Proof.
  induction 1 as [|x l l' _ IH|x y l|l l' l'' _ IH1 _ IH2]; simpl;
    [done | congruence | | congruence].
  destruct (f x), (f y); done.
Qed.

Lemma filtered_filter req ps :
  filtered req ps
  = List.filter (fun p => categoryTest req p && inStockTest req p && searchTest req p) ps.
Proof.
  unfold filtered.
  rewrite filterBySearch_filter, filterByInStock_filter, filterByCategory_filter.
  rewrite !filter_filter. apply filter_ext. intros p. apply andb_assoc.
Qed.

(** C4. For every store and every combination of the category, inStock and
    search parameters, the set the list handler paginates is the
    intersection of what each filter matches on the store by itself, it is
    the same list in whatever order the three filters are applied, and its
    length is the count the handler reports. *)
Theorem filters_intersect req ps :
  (∀ p, In p (filtered req ps)
        ↔ In p (filterByCategory req ps)
          ∧ In p (filterByInStock req ps)
          ∧ In p (filterBySearch req ps))
  ∧ (∀ order, order ≡ₚ [ByCategory; ByInStock; BySearch] →
              applyInOrder req order ps = filtered req ps)
  ∧ (∀ env params,
       listHandler env params req ps
       = (Normal (Sent (json (paginate req (filtered req ps)))), ps)
       ∧ ∃ pg data, paginate req (filtered req ps)
                    = ProductList (length (filtered req ps)) pg data).
Proof.
  split; [| split].
  - intros p.
    rewrite filtered_filter, filterByCategory_filter, filterByInStock_filter,
      filterBySearch_filter, !filter_In, !andb_true_iff.
    tauto.
  - intros order Hperm.
    rewrite applyInOrder_filter, filtered_filter.
    apply filter_ext. intros p.
    rewrite (forallb_Permutation _ _ _ Hperm). simpl.
    by rewrite andb_true_r, andb_assoc.
  - intros env params. split; [done | unfold paginate; eauto].
Qed.

Lemma filters_intersect_witness :
  applyInOrder electronicsInStock [BySearch; ByCategory; ByInStock] products
  = filtered electronicsInStock products
  ∧ id <$> filtered electronicsInStock products = ["2"].
Proof.
  split; [| vm_compute; reflexivity].
  apply (proj1 (proj2 (filters_intersect electronicsInStock products))).
  exact (Permutation_cons_append [ByCategory; ByInStock] BySearch).
Defined.

(* ================================================================= *)
(** ** Pagination *)

(** [Math.ceil(n / L)] is the least number of pages of size [L] that
    hold [n] products. *)
Lemma ceilDiv_spec (n : nat) (L : Z) :
  (0 < L)%Z →
  ((ceilDiv n L - 1) * L < Z.of_nat n ≤ ceilDiv n L * L)%Z.
Proof.
  intros HL. unfold ceilDiv, Qceiling, Qfloor.
  destruct L as [|l|l]; try lia.
  unfold Qdiv, Qmult, Qinv, Qopp, inject_Z. cbn [Qnum Qden].
  rewrite Z.mul_1_r, Pos.mul_1_l.
  generalize (Z.of_nat n). intros N.
  pose proof (Z.div_mod (- N) (Z.pos l) ltac:(lia)) as Hdm.
  pose proof (Z.mod_pos_bound (- N) (Z.pos l) ltac:(lia)) as Hb.
  nia.
Qed.

(** A slice that starts inside or after the array and has a positive
    width, read by index. *)
Lemma sliceInt_lookup {A : Type} (xs : list A) (start len : Z) (k : nat) :
  (0 ≤ start)%Z → (0 < len)%Z →
  sliceInt xs start (start + len) !! k
  = if bool_decide (Z.of_nat k < len)%Z then xs !! (Z.to_nat start + k) else None.
Proof.
  intros Hs Hl. unfold sliceInt, sliceIndex.
  rewrite !(proj2 (Z.ltb_ge _ _)) by lia.
  rewrite lookup_take, lookup_drop.
  case_bool_decide as Hk; case_decide as Hk'; try done.
  - f_equal. lia.
  - symmetry. apply lookup_ge_None_2. lia.
  - exfalso. lia.
Qed.

(** *** Doubles *)

(** [roundDouble] at the landmarks of the format: a fraction that no
    double is (0.1), the first integers that are not doubles (ties go to
    the even significand), the largest double and the overflow above it,
    the smallest double and the underflow below it. *)
Lemma roundDouble_landmarks :
  roundDouble (1 # 10) = Fin (3602879701896397 # 2 ^ 55)
  ∧ roundDouble (inject_Z (2 ^ 53 + 1)) = Fin (inject_Z (2 ^ 53))
  ∧ roundDouble (inject_Z (2 ^ 53 + 3)) = Fin (inject_Z (2 ^ 53 + 4))
  ∧ roundDouble (inject_Z (2 ^ 1024 - 2 ^ 970 - 1))
    = Fin (inject_Z (2 ^ 1024 - 2 ^ 971))
  ∧ roundDouble (inject_Z (2 ^ 1024 - 2 ^ 970)) = PosInf
  ∧ roundDouble (inject_Z (- 2 ^ 1024)) = NegInf
  ∧ roundDouble (1 # 2 ^ 1074) = Fin (1 # 2 ^ 1074)
  ∧ roundDouble (1 # 2 ^ 1075) = Fin 0
  ∧ roundDouble (3 # 2 ^ 1075) = Fin (1 # 2 ^ 1073).
Proof. repeat split; vm_compute; reflexivity. Qed.

(** *** Doubles that are integers *)


Lemma Qred_inject_Z (z : Z) : Qred (inject_Z z) = inject_Z z.
Proof.
  apply Qcanon.Qred_identity. unfold inject_Z. cbn [Qnum Qden].
  apply Z.gcd_1_r.
Qed.

Lemma Qred_scaled (z : Z) (d : positive) :
  Qred ((z * Z.pos d) # d) = inject_Z z.
Proof.
  rewrite <- Qred_inject_Z. apply Qred_complete.
  unfold Qeq, inject_Z. cbn [Qnum Qden]. lia.
Qed.

Lemma roundHalfEven_exact (n : Z) : roundHalfEven n 1 = n.
Proof.
  unfold roundHalfEven. by rewrite Z.mod_1_r, Z.div_1_r.
Qed.

(** An integer of at most 53 bits is a double. *)
Lemma roundDouble_integer (z : Z) :
  safeInteger z → roundDouble (inject_Z z) = Fin (inject_Z z).
Proof.
  unfold safeInteger. intros Hz. unfold roundDouble. rewrite Qred_inject_Z.
  unfold inject_Z at 1 2. cbn [Qnum Qden]. unfold roundFraction.
  destruct (Z.eqb_spec (Z.abs z) 0) as [H0|H0].
  { by assert (z = 0)%Z as -> by lia. }
  assert (Hpos : (0 < Z.abs z)%Z) by lia.
  assert (Hlog : (0 ≤ Z.log2 (Z.abs z) < 53)%Z).
  { split; [apply Z.log2_nonneg |]. apply Z.log2_lt_pow2; lia. }
  assert (He : floorLog2 (Z.abs z) 1 = Z.log2 (Z.abs z)).
  { unfold floorLog2. change (Z.log2 1) with 0%Z. rewrite Z.sub_0_r.
    rewrite Z.max_l, Z.max_r by lia. rewrite Z.pow_0_r, Z.mul_1_r, Z.mul_1_l.
    pose proof (Z.log2_spec (Z.abs z) Hpos) as [Hle _].
    by rewrite (proj2 (Z.leb_le _ _) Hle). }
  rewrite He. set (e := Z.log2 (Z.abs z)) in *.
  rewrite (Z.max_l (e - 52) (-1074)) by lia.
  rewrite (Z.max_r (e - 52) 0) by lia.
  rewrite (Z.max_l (- (e - 52)) 0) by lia.
  rewrite Z.pow_0_r, !Z.mul_1_r, roundHalfEven_exact.
  assert (Hd : (0 < 2 ^ (- (e - 52)))%Z) by (apply Z.pow_pos_nonneg; lia).
  assert (Hbig : (Z.abs z < 2 ^ 1024)%Z).
  { apply Z.le_lt_trans with (2 ^ 53 - 1)%Z; [lia |].
    apply Z.lt_trans with (2 ^ 53)%Z; [lia |].
    apply Z.pow_lt_mono_r; lia. }
  destruct (Z.leb_spec (2 ^ 1024 * 2 ^ (- (e - 52))) (Z.abs z * 2 ^ (- (e - 52))))
    as [Hover|_]; [nia |].
  f_equal.
  replace (Z.sgn z * (Z.abs z * 2 ^ (- (e - 52))))%Z
    with (z * Z.pos (Z.to_pos (2 ^ (- (e - 52)))))%Z.
  - apply Qred_scaled.
  - rewrite Z2Pos.id by lia. rewrite Z.mul_assoc. f_equal. lia.
Qed.

Lemma roundHalfEven_bounds (num den : Z) :
  (num / den ≤ roundHalfEven num den ≤ num / den + 1)%Z.
Proof.
  unfold roundHalfEven.
  destruct (2 * (num mod den) ?= den)%Z; [destruct (Z.even _) | |]; lia.
Qed.

Lemma floorLog2_integer (z : Z) : (0 < z)%Z → floorLog2 z 1 = Z.log2 z.
Proof.
  intros Hz. unfold floorLog2. change (Z.log2 1) with 0%Z. rewrite Z.sub_0_r.
  pose proof (Z.log2_nonneg z).
  rewrite Z.max_l, Z.max_r by lia. rewrite Z.pow_0_r, Z.mul_1_r, Z.mul_1_l.
  pose proof (Z.log2_spec z Hz) as [Hle _].
  by rewrite (proj2 (Z.leb_le _ _) Hle).
Qed.

(** A positive integer of more than 53 bits becomes an integer of more
    than 53 bits, or infinity when it has more than 1023. *)
Lemma roundDouble_large (z : Z) :
  (2 ^ 53 ≤ z)%Z →
  (roundDouble (inject_Z z) = PosInf ∧ (2 ^ 1023 ≤ z)%Z)
  ∨ ∃ z', (2 ^ 53 ≤ z')%Z ∧ roundDouble (inject_Z z) = Fin (inject_Z z').
Proof.
  intros Hz. assert (Hpos : (0 < z)%Z) by lia.
  unfold roundDouble. rewrite Qred_inject_Z.
  unfold inject_Z at 1 3. cbn [Qnum Qden]. unfold roundFraction.
  rewrite Z.abs_eq by lia.
  destruct (Z.eqb_spec z 0) as [H0|_]; [lia |].
  rewrite floorLog2_integer by done.
  assert (Hlog : (53 ≤ Z.log2 z)%Z) by (apply Z.log2_le_pow2; lia).
  pose proof (Z.log2_spec z Hpos) as [Hlo Hhi].
  set (e := Z.log2 z) in *.
  rewrite (Z.max_l (e - 52) (-1074)) by lia.
  rewrite (Z.max_l (e - 52) 0) by lia.
  rewrite (Z.max_r (- (e - 52)) 0) by lia.
  rewrite Z.pow_0_r, !Z.mul_1_r, Z.mul_1_l.
  assert (Hup : (0 < 2 ^ (e - 52))%Z) by (apply Z.pow_pos_nonneg; lia).
  assert (He : (2 ^ e = 2 ^ 52 * 2 ^ (e - 52))%Z).
  { rewrite <- Z.pow_add_r by lia. f_equal. lia. }
  assert (He' : (2 ^ Z.succ e = 2 ^ 53 * 2 ^ (e - 52))%Z).
  { rewrite <- Z.pow_add_r by lia. f_equal. lia. }
  pose proof (roundHalfEven_bounds z (2 ^ (e - 52))) as [Hm1 Hm2].
  assert (Hq1 : (2 ^ 52 ≤ z / 2 ^ (e - 52))%Z).
  { apply Z.div_le_lower_bound; lia. }
  assert (Hq2 : (z / 2 ^ (e - 52) < 2 ^ 53)%Z).
  { apply Z.div_lt_upper_bound; lia. }
  set (m := roundHalfEven z (2 ^ (e - 52))) in *.
  destruct (Z.leb_spec (2 ^ 1024) (m * 2 ^ (e - 52))) as [Hover|Hfin].
  - left. destruct (z <? 0)%Z eqn:E; [lia |]. split; [reflexivity |].
    destruct (Z.le_gt_cases (2 ^ 1023) z) as [|Hsmall]; [done |].
    exfalso.
    assert (e < 1023)%Z by (apply Z.log2_lt_pow2; lia).
    assert (2 ^ Z.succ e ≤ 2 ^ 1023)%Z by (apply Z.pow_le_mono_r; lia).
    assert (2 ^ 1023 < 2 ^ 1024)%Z by (apply Z.pow_lt_mono_r; lia).
    nia.
  - right. exists (m * 2 ^ (e - 52))%Z. split.
    + assert (2 ^ 53 ≤ 2 ^ e)%Z by (apply Z.pow_le_mono_r; lia). nia.
    + f_equal. rewrite Z.sgn_pos by lia. rewrite Z.mul_1_l.
      change (Z.to_pos 1) with 1%positive.
      apply (Qred_inject_Z (m * 2 ^ (e - 52))).
Qed.

(** What a positive integer becomes: itself when it has at most 53 bits. *)
Lemma roundDouble_positive (z : Z) :
  (0 < z)%Z →
  (roundDouble (inject_Z z) = PosInf ∧ (2 ^ 1023 ≤ z)%Z)
  ∨ ∃ z', roundDouble (inject_Z z) = Fin (inject_Z z')
          ∧ (0 < z')%Z
          ∧ (z' = z ∨ ((2 ^ 53 ≤ z)%Z ∧ (2 ^ 53 ≤ z')%Z)).
Proof.
  intros Hz. destruct (Z.lt_ge_cases z (2 ^ 53)) as [Hsafe|Hlarge].
  - right. exists z. rewrite roundDouble_integer by (unfold safeInteger; lia).
    auto.
  - destruct (roundDouble_large z Hlarge) as [?|(z' & Hz' & Hrun)]; [by left |].
    right. exists z'. split; [done |]. split; [lia | auto].
Qed.

Lemma truncate_integer (q : Q) (z : Z) : (q == inject_Z z)%Q → truncate q = z.
Proof.
  unfold Qeq, inject_Z, truncate. cbn [Qnum Qden]. intros H.
  rewrite Z.mul_1_r in H. rewrite H. apply Z.quot_mul. lia.
Qed.

Lemma num_ltb_integers (p q : Q) (a b : Z) :
  (p == inject_Z a)%Q → (q == inject_Z b)%Q →
  num_ltb (Fin p) (Fin q) = (a <? b)%Z.
Proof.
  intros Hp Hq. cbn [num_ltb].
  destruct (Z.ltb_spec a b) as [Hlt|Hge].
  - apply negb_true_iff. destruct (Qle_bool q p) eqn:Hle; [| done].
    apply Qle_bool_iff in Hle. rewrite Hp, Hq, <- Zle_Qle in Hle. lia.
  - apply negb_false_iff, Qle_bool_iff. rewrite Hp, Hq, <- Zle_Qle. lia.
Qed.

Lemma orDefault_nonzero (z : Z) (d : JsNum) :
  z ≠ 0%Z → orDefault (Fin (inject_Z z)) d = Fin (inject_Z z).
Proof.
  intros Hz. unfold orDefault, num_truthy.
  destruct (Qeq_bool (inject_Z z) 0) eqn:E; [| done].
  apply Qeq_bool_eq in E. unfold Qeq, inject_Z in E. cbn [Qnum Qden] in E. lia.
Qed.

Lemma parseDigits_acc (d : Decimal.uint) :
  ∀ acc : positive,
    parseDigits 10 (NilEmpty.string_of_uint d) true (Z.pos acc)
    = Some (Z.pos (Pos.of_uint_acc d acc)).
Proof.
  induction d as [|d IH|d IH|d IH|d IH|d IH|d IH|d IH|d IH|d IH|d IH];
    intros acc; cbn [NilEmpty.string_of_uint parseDigits Pos.of_uint_acc];
    [done | ..];
    match goal with
    | |- context [digitIn 10 ?c] =>
        let v := eval vm_compute in (digitIn 10 c) in
        change (digitIn 10 c) with v
    end; cbv iota; rewrite <- IH; f_equal; lia.
Qed.

Lemma parseDigits_zero (d : Decimal.uint) :
  parseDigits 10 (NilEmpty.string_of_uint d) true 0
  = Some (Z.of_N (Pos.of_uint d)).
Proof.
  induction d as [|d IH|d IH|d IH|d IH|d IH|d IH|d IH|d IH|d IH|d IH];
    cbn [NilEmpty.string_of_uint parseDigits Pos.of_uint];
    [done | ..];
    match goal with
    | |- context [digitIn 10 ?c] =>
        let v := eval vm_compute in (digitIn 10 c) in
        change (digitIn 10 c) with v
    end; cbv iota; [exact IH | ..]; apply parseDigits_acc.
Qed.

Lemma parseIntString_numeral (d : Decimal.uint) :
  d ≠ Decimal.Nil →
  parseIntString (NilEmpty.string_of_uint d) = Some (Z.of_N (Pos.of_uint d)).
Proof.
  intros Hd. rewrite <- parseDigits_zero.
  destruct d as [|d|d|d|d|d|d|d|d|d|d]; try done; try reflexivity.
  destruct d; reflexivity.
Qed.

(** The integer that [parseInt] reads from a decimal numeral. *)
Lemma parseIntString_decimal (p : positive) :
  parseIntString (decimal p) = Some (Z.pos p).
Proof.
  unfold decimal. rewrite parseIntString_numeral.
  - by rewrite Unsigned.of_to.
  - intros Hnil. pose proof (Unsigned.of_to p) as H. by rewrite Hnil in H.
Qed.

(** A positive integer of at most 53 bits, written in decimal, is parsed
    back to itself. *)
Lemma parseInt_decimal (p : positive) :
  safeInteger (Z.pos p) →
  parseInt (Some (decimal p)) = Fin (inject_Z (Z.pos p)).
Proof.
  intros Hp. unfold parseInt. rewrite parseIntString_decimal.
  by apply roundDouble_integer.
Qed.

(** Equations between rationals that are integers. *)
Ltac integral :=
  unfold Qeq, Qplus, Qminus, Qmult, Qopp, inject_Z; cbn [Qnum Qden]; lia.

(** The answer of the list handler when the page and the limit that it
    uses are the positive integers [P] and [L]. *)
Lemma paginate_integers req (fp : list Product) (P L : Z) :
  orDefault (parseInt (query req !! "page")) (Fin 1) = Fin (inject_Z P) →
  orDefault (parseInt (query req !! "limit")) (Fin 10) = Fin (inject_Z L) →
  (0 < P)%Z → (0 < L)%Z →
  paginate req fp
  = ProductList (length fp)
      {| page := Fin (inject_Z P);
         limit := Fin (inject_Z L);
         totalPages := Fin (inject_Z (ceilDiv (length fp) L));
         hasNext := (P * L <? Z.of_nat (length fp))%Z;
         hasPrev := (0 <? (P - 1) * L)%Z |}
      (sliceInt fp ((P - 1) * L) ((P - 1) * L + L)).
Proof.
  intros Hpage Hlimit HP HL. unfold paginate.
  rewrite Hpage, Hlimit.
  cbn [idx_sub idx_add idx_mul num_opp].
  f_equal.
  - f_equal.
    + unfold idx_div, lengthOf.
      destruct (Qeq_bool (inject_Z L) 0) eqn:E; [| done].
      apply Qeq_bool_eq in E. unfold Qeq, inject_Z in E. cbn [Qnum Qden] in E.
      lia.
    + unfold lengthOf.
      apply (num_ltb_integers _ _ (P * L) (Z.of_nat (length fp)));
        [integral | reflexivity].
    + unfold zero. apply (num_ltb_integers _ _ 0 ((P - 1) * L)); integral.
  - unfold slice. cbn [toIntegerWithin].
    f_equal; apply truncate_integer; integral.
Qed.

Lemma paginate_parsed req (fp : list Product) (P L : Z) :
  parseInt (query req !! "page") = Fin (inject_Z P) →
  parseInt (query req !! "limit") = Fin (inject_Z L) →
  (0 < P)%Z → (0 < L)%Z →
  paginate req fp
  = ProductList (length fp)
      {| page := Fin (inject_Z P);
         limit := Fin (inject_Z L);
         totalPages := Fin (inject_Z (ceilDiv (length fp) L));
         hasNext := (P * L <? Z.of_nat (length fp))%Z;
         hasPrev := (0 <? (P - 1) * L)%Z |}
      (sliceInt fp ((P - 1) * L) ((P - 1) * L + L)).
Proof.
  intros Hpage Hlimit HP HL.
  apply paginate_integers; [| | done | done].
  - rewrite Hpage. apply orDefault_nonzero. lia.
  - rewrite Hlimit. apply orDefault_nonzero. lia.
Qed.

Lemma ceilDiv_above (n : nat) (L : Z) :
  (Z.of_nat n < L)%Z → ceilDiv n L = if (Z.of_nat n =? 0)%Z then 0%Z else 1%Z.
Proof.
  intros Hn. pose proof (ceilDiv_spec n L ltac:(lia)) as Hc.
  destruct (Z.eqb_spec (Z.of_nat n) 0); nia.
Qed.

Lemma sliceInt_end {A : Type} (xs : list A) :
  sliceInt xs (Z.of_nat (length xs)) (Z.of_nat (length xs)) = [].
Proof.
  unfold sliceInt, sliceIndex.
  destruct (Z.ltb_spec (Z.of_nat (length xs)) 0); [lia |].
  by rewrite Z.min_id, Z.sub_diag.
Qed.

(** The answer of the list handler for a page number that has become
    infinity: no product, and a previous page. *)
Lemma paginate_infinite_page req (fp : list Product) (L : Z) :
  parseInt (query req !! "page") = PosInf →
  parseInt (query req !! "limit") = Fin (inject_Z L) →
  (0 < L)%Z →
  paginate req fp
  = ProductList (length fp)
      {| page := PosInf;
         limit := Fin (inject_Z L);
         totalPages := Fin (inject_Z (ceilDiv (length fp) L));
         hasNext := false;
         hasPrev := true |}
      [].
Proof.
  intros Hpage Hlimit HL. unfold paginate.
  rewrite Hpage, Hlimit, orDefault_nonzero by lia.
  change (orDefault PosInf (Fin 1)) with PosInf.
  cbn [idx_sub idx_add idx_mul num_opp num_sgn inject_Z Qnum].
  rewrite Z.sgn_pos by done. cbn [Z.mul Pos.mul idx_add].
  f_equal.
  - f_equal. unfold idx_div, lengthOf.
    destruct (Qeq_bool (inject_Z L) 0) eqn:E; [| done].
    apply Qeq_bool_eq in E. unfold Qeq, inject_Z in E. cbn [Qnum Qden] in E.
    lia.
  - unfold slice. cbn [toIntegerWithin]. apply sliceInt_end.
Qed.

Lemma guard_none {A : Type} (xs : list A) (b : bool) (i : nat) :
  (length xs ≤ i)%nat → (if b then xs !! i else None) = None.
Proof. intros Hi. destruct b; [by apply lookup_ge_None_2 | done]. Qed.

(** Page numbers and limits of more than 53 bits point past the end of
    every array, rounded or not. *)
Lemma page_lookup_agree {A : Type} (xs : list A) (P P' L L' : Z) (k : nat) :
  (Z.of_nat (length xs) ≤ 2 ^ 53 - 1)%Z →
  (0 < P)%Z → (0 < L)%Z → (0 < P')%Z → (0 < L')%Z →
  P' = P ∨ ((2 ^ 53 ≤ P)%Z ∧ (2 ^ 53 ≤ P')%Z) →
  L' = L ∨ ((2 ^ 53 ≤ L)%Z ∧ (2 ^ 53 ≤ L')%Z) →
  (if bool_decide (Z.of_nat k < L')%Z
   then xs !! (Z.to_nat ((P' - 1) * L') + k)%nat else None)
  = (if bool_decide (Z.of_nat k < L)%Z
     then xs !! (Z.to_nat ((P - 1) * L) + k)%nat else None).
Proof.
  intros HN HP HL HP' HL' [-> | [HPbig HP'big]] [-> | [HLbig HL'big]];
    [done | | |].
  - destruct (decide (P = 1%Z)) as [-> | HP1].
    + change ((1 - 1) * L')%Z with 0%Z. change ((1 - 1) * L)%Z with 0%Z.
      destruct (decide (k < length xs)%nat) as [Hk|Hk].
      * by rewrite !bool_decide_true by lia.
      * by rewrite !guard_none by lia.
    + assert (Z.of_nat (length xs) ≤ (P - 1) * L)%Z by nia.
      assert (Z.of_nat (length xs) ≤ (P - 1) * L')%Z by nia.
      by rewrite !guard_none by lia.
  - assert (Z.of_nat (length xs) ≤ (P - 1) * L)%Z by nia.
    assert (Z.of_nat (length xs) ≤ (P' - 1) * L)%Z by nia.
    by rewrite !guard_none by lia.
  - assert (Z.of_nat (length xs) ≤ (P - 1) * L)%Z by nia.
    assert (Z.of_nat (length xs) ≤ (P' - 1) * L')%Z by nia.
    by rewrite !guard_none by lia.
Qed.

(** C3 (amended). For a filtered list of [N] products, [N] below 2^53 as
    in every array, and a query whose page and limit are the decimal
    numerals of positive integers [P] and [L], [L] below 2^1023 so that it
    stays a finite number, the list handler reports count [N], totalPages
    the ceiling of [N / L], hasNext exactly when [P * L < N], hasPrev
    exactly when [(P - 1) * L > 0], and as data the products of the
    filtered list at the indices from [(P - 1) * L] up to, and excluding,
    [P * L]. It reports [P] and [L] as page and limit when they are
    numbers themselves, as every integer up to 2^53 - 1 is. *)
Theorem pagination_positive env params req ps (P L : positive) :
  query req !! "page" = Some (decimal P) →
  query req !! "limit" = Some (decimal L) →
  (Z.pos L < 2 ^ 1023)%Z →
  safeInteger (Z.of_nat (length (filtered req ps))) →
  pageAsSpecified env params req ps P L
  ∧ (safeInteger (Z.pos P) → safeInteger (Z.pos L) →
     ∃ pg, listPagination env req ps = Some pg
           ∧ page pg = Fin (inject_Z (Z.pos P))
           ∧ limit pg = Fin (inject_Z (Z.pos L))).
Proof.
  intros Hpage Hlimit HL HN. unfold safeInteger in HN.
  assert (Hp : parseInt (query req !! "page") = roundDouble (inject_Z (Z.pos P)))
    by (rewrite Hpage; unfold parseInt; by rewrite parseIntString_decimal).
  assert (Hl : parseInt (query req !! "limit") = roundDouble (inject_Z (Z.pos L)))
    by (rewrite Hlimit; unfold parseInt; by rewrite parseIntString_decimal).
  split.
  - destruct (roundDouble_positive (Z.pos L) ltac:(lia))
      as [[_ ?]|(L' & HL' & HL'pos & HLcase)]; [lia |].
    rewrite HL' in Hl.
    assert (Htotal : ceilDiv (length (filtered req ps)) L'
                     = ceilDiv (length (filtered req ps)) (Z.pos L)).
    { destruct HLcase as [-> | [? ?]]; [done |].
      rewrite !ceilDiv_above by lia. done. }
    unfold pageAsSpecified, listHandler, bind, getProducts, ret.
    destruct (roundDouble_positive (Z.pos P) ltac:(lia))
      as [[HP' HPbig]|(P' & HP' & HP'pos & HPcase)]; rewrite HP' in Hp.
    + rewrite (paginate_infinite_page req _ L') by done.
      eexists _, _. split; [reflexivity |]. cbn [totalPages hasNext hasPrev].
      split; [by rewrite Htotal |].
      assert (2 ^ 53 ≤ 2 ^ 1023)%Z by (apply Z.pow_le_mono_r; lia).
      split; [split; [done | nia] |].
      split; [split; [nia | done] |].
      intros k. rewrite lookup_nil. case_bool_decide; [| done].
      symmetry. apply lookup_ge_None_2. nia.
    + rewrite (paginate_parsed req _ P' L') by done.
      eexists _, _. split; [reflexivity |]. cbn [totalPages hasNext hasPrev].
      split; [by rewrite Htotal |].
      split; [rewrite Z.ltb_lt; destruct HPcase as [-> | [? ?]];
              destruct HLcase as [-> | [? ?]]; split; nia |].
      split; [rewrite Z.ltb_lt; destruct HPcase as [-> | [? ?]];
              destruct HLcase as [-> | [? ?]]; split; nia |].
      intros k. rewrite sliceInt_lookup by nia.
      apply page_lookup_agree; first [done | lia].
  - intros HPsafe HLsafe.
    rewrite roundDouble_integer in Hp, Hl by done.
    unfold listPagination, listHandler, bind, getProducts, ret.
    rewrite (paginate_parsed req _ (Z.pos P) (Z.pos L)) by (done || lia).
    eexists. split; [reflexivity |]. done.
Qed.

Lemma pagination_positive_witness :
  pageAsSpecified sampleEnv ∅ secondPageOfTwo products 2 2
  ∧ ∃ pg, listPagination sampleEnv secondPageOfTwo products = Some pg
          ∧ page pg = Fin (inject_Z 2)
          ∧ limit pg = Fin (inject_Z 2).
Proof.
  destruct (pagination_positive sampleEnv ∅ secondPageOfTwo products 2 2)
    as [Hpage Hecho];
    [reflexivity | reflexivity | reflexivity | vm_compute; discriminate |].
  split; [exact Hpage |].
  apply Hecho; vm_compute; discriminate.
Defined.

(** C3 (the claim as it was stated fails). A limit of 401 digits is a
    positive integer, but [parseInt] makes it the number Infinity: the
    start index [(1 - 1) * Infinity] is NaN, the slice is empty, and
    totalPages is the ceiling of [3 / Infinity], which is 0, where the claim
    has the three products on page 1 of 1. *)
Lemma pagination_limit_overflows :
  (query hugeLimit !! "page" = Some (decimal 1)
   ∧ query hugeLimit !! "limit" = Some (decimal (10 ^ 400)))
  ∧ listHandler sampleEnv ∅ hugeLimit products
    = (Normal (Sent (json (ProductList 3
                             {| page := Fin 1;
                                limit := PosInf;
                                totalPages := Fin 0;
                                hasNext := false;
                                hasPrev := false |}
                             []))),
       products)
  ∧ ¬ pageAsSpecified sampleEnv ∅ hugeLimit products 1 (10 ^ 400).
Proof.
  assert (Hrun : listHandler sampleEnv ∅ hugeLimit products
                 = (Normal (Sent (json (ProductList 3
                                          {| page := Fin 1;
                                             limit := PosInf;
                                             totalPages := Fin 0;
                                             hasNext := false;
                                             hasPrev := false |}
                                          []))),
                    products))
    by (vm_compute; reflexivity).
  split; [split; reflexivity |]. split; [exact Hrun |].
  intros (pg & data & Hrun' & _ & _ & _ & Hdata).
  rewrite Hrun in Hrun'. unfold json in Hrun'. injection Hrun' as _ <-.
  specialize (Hdata 0%nat). rewrite bool_decide_true in Hdata by lia.
  discriminate Hdata.
Qed.

(* ================================================================= *)
(** ** Lookup by id *)

Lemma delete_middle {A : Type} (l1 l2 : list A) (x : A) :
  delete (length l1) (l1 ++ x :: l2) = l1 ++ l2.
Proof. induction l1 as [|y l1 IH]; simpl; [done | by f_equal]. Qed.

Lemma insert_middle {A : Type} (l1 l2 : list A) (x y : A) :
  <[length l1 := y]> (l1 ++ x :: l2) = l1 ++ y :: l2.
Proof. induction l1 as [|z l1 IH]; simpl; [done | by f_equal]. Qed.

(** [find] and [findIndex] stop at the first product with the id. *)
Lemma find_first rid (l1 l2 : list Product) (p : Product) :
  Forall (fun q => ¬ hasId rid q) l1 → hasId rid p →
  list_find (hasId rid) (l1 ++ p :: l2) = Some (length l1, p).
Proof.
  intros Hl1 Hp.
  rewrite list_find_app_r by by apply list_find_None.
  simpl. by rewrite decide_True.
Qed.

Lemma find_none rid (ps : list Product) :
  Forall (fun q => ¬ hasId rid q) ps → list_find (hasId rid) ps = None.
Proof. apply list_find_None. Qed.

(** Every store either has no product with the id or splits at the
    first one. *)
Lemma find_split rid (ps : list Product) :
  Forall (fun q => ¬ hasId rid q) ps
  ∨ ∃ l1 p l2, ps = l1 ++ p :: l2
               ∧ hasId rid p ∧ Forall (fun q => ¬ hasId rid q) l1.
Proof.
  induction ps as [|q ps IH]; [by left |].
  destruct (decide (hasId rid q)) as [Hq|Hq].
  - right. exists [], q, ps. by repeat split.
  - destruct IH as [IH|(l1 & p & l2 & -> & Hp & Hl1)].
    + left. by constructor.
    + right. exists (q :: l1), p, l2. repeat split; [done | by constructor].
Qed.

(** With unique ids, the product with the id is the only one. *)
Lemma unique_id_elsewhere rid (l1 l2 : list Product) (p : Product) :
  NoDup (id <$> (l1 ++ p :: l2)) → hasId rid p →
  Forall (fun q => ¬ hasId rid q) (l1 ++ l2).
Proof.
  intros Hnd Hp. apply Forall_forall. intros q Hq Hidq.
  unfold hasId in *.
  assert (Heq : id q = id p) by congruence.
  rewrite fmap_app, fmap_cons in Hnd.
  apply NoDup_app in Hnd as (_ & Hdisj & Hnd2).
  apply NoDup_cons in Hnd2 as (Hnotin & _).
  apply elem_of_app in Hq as [Hq|Hq].
  - apply (Hdisj (id q)); [by apply list_elem_of_fmap_2 |].
    rewrite Heq. by left.
  - apply Hnotin. rewrite <- Heq. by apply list_elem_of_fmap_2.
Qed.

(* ================================================================= *)
(** ** Delete *)

(** The delete handler, case by case. *)
Lemma delete_removes_cases env params req ps :
  deleteHandler env params req ps = (Throw (NotFoundError "Product not found"), ps)
  ∨ ∃ l1 p l2, ps = l1 ++ p :: l2
               ∧ ∃ r, deleteHandler env params req ps = (Normal (Sent r), l1 ++ l2).
Proof.
  unfold deleteHandler, bind, getProducts.
  destruct (find_split (params !! "id") ps)
    as [Hnone|(l1 & p & l2 & -> & Hp & Hl1)].
  - left. by rewrite find_none.
  - right. exists l1, p, l2. split; [done |]. eexists.
    rewrite find_first by done. simpl.
    unfold setProducts, ret. by rewrite delete_middle.
Qed.

(** C7. For every store, when no product has the requested id the delete
    handler throws NotFoundError with the message "Product not found",
    answered with status 404, and the store is unchanged; otherwise it
    removes the first product with that id and no other, keeps the rest in
    their order, and responds 200 with a success message and no data
    field. With unique ids no product with the id is left. A DELETE request
    for /api/products/:id that carries an API key is answered with what the
    handler sent, or with the error envelope for what it threw. *)
Theorem delete_removes_one env params req ps :
  (Forall (fun q => ¬ hasId (params !! "id") q) ps →
   deleteHandler env params req ps
   = (Throw (NotFoundError "Product not found"), ps)
   ∧ ∃ dev, errorHandler env (NotFoundError "Product not found") req
            = status_json 404 (ErrorEnvelope "Product not found" dev))
  ∧ (∀ l1 p l2,
       ps = l1 ++ p :: l2 → hasId (params !! "id") p →
       Forall (fun q => ¬ hasId (params !! "id") q) l1 →
       deleteHandler env params req ps
       = (Normal (Sent (status_json 200 (Message "Product deleted successfully"))),
          l1 ++ l2)
       ∧ success (Message "Product deleted successfully") = Some true
       ∧ hasData (Message "Product deleted successfully") = false
       ∧ (NoDup (id <$> ps) →
          Forall (fun q => ¬ hasId (params !! "id") q) (l1 ++ l2)))
  ∧ (Forall (fun q => ¬ hasId (params !! "id") q) ps
     ∨ ∃ l1 p l2, ps = l1 ++ p :: l2
                  ∧ hasId (params !! "id") p
                  ∧ Forall (fun q => ¬ hasId (params !! "id") q) l1)
  ∧ (∀ rid,
       method req = DELETE → path req = ["api"; "products"; rid] →
       present (headers req !! "x-api-key") = true →
       dispatch env req ps
       = answer env req (deleteHandler env {[ "id" := rid ]} req ps)).
Proof.
  split; [| split; [| split]]; [| | | intros rid; apply dispatch_delete].
  - intros Hnone. split; [| eexists; reflexivity].
    unfold deleteHandler, bind, getProducts. by rewrite find_none.
  - intros l1 p l2 -> Hp Hl1.
    split; [| split; [done | split; [done |]]].
    + unfold deleteHandler, bind, getProducts.
      rewrite find_first by done. simpl.
      unfold setProducts, ret. by rewrite delete_middle.
    + intros Hnd. by apply unique_id_elsewhere with p.
  - apply find_split.
Qed.

Lemma delete_removes_one_witness :
  deleteHandler sampleEnv {[ "id" := "1" ]} deleteFirst products
  = (Normal (Sent (status_json 200 (Message "Product deleted successfully"))),
     [] ++ drop 1 products)
  ∧ dispatch sampleEnv deleteFirst products
    = answer sampleEnv deleteFirst
        (deleteHandler sampleEnv {[ "id" := "1" ]} deleteFirst products).
Proof.
  destruct (delete_removes_one sampleEnv {[ "id" := "1" ]} deleteFirst products)
    as (_ & Hfound & _ & Hroute).
  split.
  - apply (Hfound [] _ _ eq_refl); [reflexivity | constructor].
  - apply Hroute; reflexivity.
Defined.

(* ================================================================= *)
(** ** Create and update *)

Lemma callTrim_cases what v ps :
  (∃ s, v = JStr s ∧ callTrim what v ps = (Normal (trim s), ps))
  ∨ ((∀ s, v ≠ JStr s) ∧ ∃ e, callTrim what v ps = (Throw e, ps)).
Proof.
  destruct v; simpl; try (right; split; [done | eexists; reflexivity]).
  left. eauto.
Qed.

(** The create handler either throws on a property that has no [trim],
    leaving the store alone, or appends the new record. *)
Lemma create_cases env params req ps :
  (∃ e, createHandler env params req ps = (Throw e, ps)
        ∧ ((∀ s, field "name" (body req) ≠ JStr s)
           ∨ (∀ s, field "description" (body req) ≠ JStr s)
           ∨ (∀ s, field "category" (body req) ≠ JStr s)))
  ∨ (createHandler env params req ps = (Untyped, ps)
     ∧ ∀ n, field "price" (body req) ≠ JNum n)
  ∨ (∃ s d c n,
       field "name" (body req) = JStr s
       ∧ field "description" (body req) = JStr d
       ∧ field "category" (body req) = JStr c
       ∧ field "price" (body req) = JNum n
       ∧ createHandler env params req ps
         = (Normal (Sent (status_json 201
                            (ProductData (createdProduct env (body req) s d c n)))),
            ps ++ [createdProduct env (body req) s d c n])).
Proof.
  unfold createHandler, createdProduct, bind.
  destruct (callTrim_cases "name" (field "name" (body req)) ps)
    as [(s & Hs & ->)|(Hs & e & ->)]; [| left; eauto].
  destruct (callTrim_cases "description" (field "description" (body req)) ps)
    as [(d & Hd & ->)|(Hd & e & ->)]; [| left; eauto 6].
  destruct (callTrim_cases "category" (field "category" (body req)) ps)
    as [(c & Hc & ->)|(Hc & e & ->)]; [| left; eauto 6].
  destruct (field "price" (body req)) as [| |b|n|s'|l|l] eqn:Hp;
    try (right; left; split; [reflexivity | done]).
  right. right. exists s, d, c, n. repeat split; try done.
  simpl. unfold getProducts, setProducts, ret.
  by destruct (field "inStock" (body req)).
Qed.

(** The update handler: not found, a throw on a property that has no
    [trim], or the record replaced in its slot. *)
Lemma update_cases env params req (l1 l2 : list Product) (old : Product) :
  hasId (params !! "id") old →
  Forall (fun q => ¬ hasId (params !! "id") q) l1 →
  let ps := l1 ++ old :: l2 in
  (∃ e, updateHandler env params req ps = (Throw e, ps)
        ∧ ((∀ s, field "name" (body req) ≠ JStr s)
           ∨ (∀ s, field "description" (body req) ≠ JStr s)
           ∨ (∀ s, field "category" (body req) ≠ JStr s)))
  ∨ (updateHandler env params req ps = (Untyped, ps)
     ∧ ∀ n, field "price" (body req) ≠ JNum n)
  ∨ (∃ s d c n,
       field "name" (body req) = JStr s
       ∧ field "description" (body req) = JStr d
       ∧ field "category" (body req) = JStr c
       ∧ field "price" (body req) = JNum n
       ∧ updateHandler env params req ps
         = (Normal (Sent (status_json 200
                            (ProductData (updatedProduct old (body req) s d c n)))),
            l1 ++ updatedProduct old (body req) s d c n :: l2)).
Proof.
  intros Hold Hl1 ps.
  unfold updateHandler, updatedProduct, bind, getProducts.
  subst ps. rewrite find_first by done. cbv beta iota.
  destruct (callTrim_cases "name" (field "name" (body req)) (l1 ++ old :: l2))
    as [(s & Hs & ->)|(Hs & e & ->)]; [| left; eauto].
  destruct (callTrim_cases "description" (field "description" (body req))
              (l1 ++ old :: l2))
    as [(d & Hd & ->)|(Hd & e & ->)]; [| left; eauto 6].
  destruct (callTrim_cases "category" (field "category" (body req))
              (l1 ++ old :: l2))
    as [(c & Hc & ->)|(Hc & e & ->)]; [| left; eauto 6].
  destruct (field "price" (body req)) as [| |b|n|s'|l|l] eqn:Hp;
    try (right; left; split; [reflexivity | done]).
  right. right. exists s, d, c, n. repeat split; try done.
  simpl. unfold setProducts, ret. rewrite insert_middle.
  by destruct (field "inStock" (body req)).
Qed.

Lemma update_not_found env params req ps :
  Forall (fun q => ¬ hasId (params !! "id") q) ps →
  updateHandler env params req ps = (Throw (NotFoundError "Product not found"), ps).
Proof.
  intros Hnone. unfold updateHandler, bind, getProducts. by rewrite find_none.
Qed.

(** A payload that passed the validation carries a string for its name
    and a number above zero for its price. *)
Lemma accepted_payload (b : gmap string JsVal) :
  ¬ spec_rejects b →
  (∃ s, field "name" b = JStr s ∧ trim s ≠ EmptyString)
  ∧ (∃ n, field "price" b = JNum n ∧ num_ltb zero n = true)
  ∧ truthy (field "description" b) = true
  ∧ truthy (field "category" b) = true.
Proof.
  intros Hacc. unfold spec_rejects, falsy in Hacc.
  destruct (field "name" b) as [| |?|?|s|?|?] eqn:Hn;
    try (exfalso; apply Hacc; do 4 right; left; intros (? & ? & _); done).
  destruct (field "price" b) as [| |?|n|?|?|?] eqn:Hp;
    try (exfalso; apply Hacc; do 5 right; intros (? & ? & _); done).
  split; [| split; [| split]].
  - exists s. split; [done |]. intros Hs. apply Hacc. do 4 right. left.
    intros (s' & [= <-] & Hne). done.
  - exists n. split; [done |].
    destruct (num_ltb zero n) eqn:Hlt; [done |].
    exfalso. apply Hacc. do 5 right. intros (n' & [= <-] & Hn'). congruence.
  - destruct (truthy (field "description" b)); [done |]. exfalso. apply Hacc. tauto.
  - destruct (truthy (field "category" b)); [done |]. exfalso. apply Hacc. tauto.
Qed.

(* ================================================================= *)
(** ** The store invariant *)

Lemma matchesTemplate_length template s :
  matchesTemplate template s = true → String.length s = String.length template.
Proof.
  revert s. induction template as [|t template IH]; intros [|c s]; simpl; try done.
  intros [_ H]%andb_true_iff. f_equal. by apply IH.
Qed.

(** A generated id is none of the seed ids. *)
Lemma uuid_not_seed (u : string) :
  is_uuid_v4 u = true → u ∉ id <$> products.
Proof.
  intros Hu%matchesTemplate_length Hin. simpl in Hin.
  repeat (apply elem_of_cons in Hin as [->|Hin]; [simpl in Hu; discriminate |]).
  by apply elem_of_nil in Hin.
Qed.

Lemma tracked_mono used used' ps :
  used ⊆ used' → tracked used ps → tracked used' ps.
Proof.
  intros Hsub [Hinv Hknown]. split; [done |].
  eapply Forall_impl; [exact Hknown |]. intros p [H|H]; auto.
Qed.

Lemma tracked_append used ps (new : Product) :
  tracked used ps → positivePrice new →
  id new ∉ id <$> products → id new ∉ used →
  tracked (id new :: used) (ps ++ [new]).
Proof.
  intros [[Hnd Hpos] Hknown] Hnew Hseed Hused. split; [split |].
  - rewrite fmap_app. apply NoDup_app. split; [done |]. split; [| apply NoDup_singleton].
    intros x Hx ->%list_elem_of_singleton.
    apply list_elem_of_fmap in Hx as (p & Hid & Hp).
    rewrite Forall_forall in Hknown. destruct (Hknown p Hp) as [H|H];
      rewrite <- Hid in H; contradiction.
  - apply Forall_app. split; [done | by constructor].
  - apply Forall_app. split.
    + eapply Forall_impl; [exact Hknown |]. intros p [H|H]; [by left |].
      right. by apply list_elem_of_further.
    + constructor; [| done]. right. apply list_elem_of_here.
Qed.

Lemma tracked_replace used (l1 l2 : list Product) (old new : Product) :
  tracked used (l1 ++ old :: l2) → positivePrice new → id new = id old →
  tracked used (l1 ++ new :: l2).
Proof.
  intros [[Hnd Hpos] Hknown] Hnew Hid. split; [split |].
  - rewrite fmap_app, fmap_cons, Hid. by rewrite fmap_app, fmap_cons in Hnd.
  - apply Forall_app in Hpos as [H1 H2]. apply Forall_cons in H2 as [_ H2].
    apply Forall_app. split; [done | by constructor].
  - apply Forall_app in Hknown as [H1 H2]. apply Forall_cons in H2 as [Ho H2].
    apply Forall_app. split; [done |]. constructor; [by rewrite Hid | done].
Qed.

Lemma tracked_remove used (l1 l2 : list Product) (p : Product) :
  tracked used (l1 ++ p :: l2) → tracked used (l1 ++ l2).
Proof.
  intros [[Hnd Hpos] Hknown]. split; [split |].
  - rewrite fmap_app, fmap_cons in Hnd. rewrite fmap_app.
    apply NoDup_app in Hnd as (H1 & Hdisj & H2).
    apply NoDup_cons in H2 as [_ H2].
    apply NoDup_app. repeat split; [done | | done].
    intros x Hx Hx2. apply (Hdisj x Hx). by apply list_elem_of_further.
  - apply Forall_app in Hpos as [H1 H2]. apply Forall_cons in H2 as [_ H2].
    by apply Forall_app.
  - apply Forall_app in Hknown as [H1 H2]. apply Forall_cons in H2 as [_ H2].
    by apply Forall_app.
Qed.

(** A route guarded by the validation middleware: either the middleware
    throws and the store is as before, or the payload is accepted and the
    handler runs. *)
Lemma validated_route (fn : Handler) env params req ps :
  (∃ msg, runChain [validateProductMiddleware; fn] env params req ps
          = (Throw (ValidationError msg), ps))
  ∨ (¬ spec_rejects (body req)
     ∧ runChain [validateProductMiddleware; fn] env params req ps
       = fn env params req ps).
Proof.
  destruct (validate_cases env params req ps) as [[Hok Hacc]|(msg & Hthrow & _)].
  - right. split; [done |].
    transitivity (runChain [fn] env params req ps); [| apply runChain_single].
    cbn [runChain]. unfold bind at 1. by rewrite Hok.
  - left. exists msg. cbn [runChain]. unfold bind at 1. by rewrite Hthrow.
Qed.

Lemma creates_route env req m chain :
  enter (Route POST api_products chain) env req = Some m → creates req = true.
Proof.
  intros (Hverb & params & Hpath & _)%enter_route.
  unfold creates. by rewrite Hverb, Hpath.
Qed.

Section Step.

Variables (env : Env) (req : Request) (used : list string) (ps : list Product).
Hypothesis tracked_ps : tracked used ps.

Local Abbreviation used' := (usedAfter env req used).

Lemma used_grows : used ⊆ used'.
Proof.
  unfold usedAfter. destruct (creates req); [| done].
  intros x Hx. by apply list_elem_of_further.
Qed.

Lemma tracked_still : tracked used' ps.
Proof. eapply tracked_mono; [apply used_grows | done]. Qed.

Lemma reads_tracked (m : M Signal) :
  readOnly m → triple (fun s => s = ps) (tracked used') m.
Proof.
  intros Hm. apply readOnly_triple; [| done].
  intros s ->. apply tracked_still.
Qed.

Lemma post_tracked params :
  creates req = true →
  is_uuid_v4 (uuid env) = true → uuid env ∉ used →
  triple (fun s => s = ps) (tracked used')
    (runChain [validateProductMiddleware; asyncHandler createHandler]
       env params req).
Proof.
  intros Hcreates Huuid Hfresh s ->.
  destruct (validated_route (asyncHandler createHandler) env params req ps)
    as [(msg & ->)|(Hacc & ->)]; [apply tracked_still |].
  unfold asyncHandler.
  destruct (create_cases env params req ps)
    as [(e & -> & _)|[(-> & _)|(s & d & c & n & _ & _ & _ & Hn & ->)]];
    [apply tracked_still | apply tracked_still |].
  unfold usedAfter. rewrite Hcreates.
  apply (tracked_append used ps (createdProduct env (body req) s d c n));
    [done | | by apply uuid_not_seed | done].
  destruct (accepted_payload _ Hacc) as (_ & (n' & Hn' & Hpos) & _).
  rewrite Hn in Hn'. injection Hn' as <-. exact Hpos.
Qed.

Lemma put_tracked params :
  triple (fun s => s = ps) (tracked used')
    (runChain [validateProductMiddleware; asyncHandler updateHandler]
       env params req).
Proof.
  intros s ->.
  destruct (validated_route (asyncHandler updateHandler) env params req ps)
    as [(msg & ->)|(Hacc & ->)]; [apply tracked_still |].
  unfold asyncHandler.
  destruct (find_split (params !! "id") ps)
    as [Hnone|(l1 & old & l2 & Hps & Hold & Hl1)].
  { rewrite update_not_found by done. apply tracked_still. }
  pose proof tracked_still as Hstill. rewrite Hps in Hstill |- *.
  destruct (update_cases env params req l1 l2 old Hold Hl1)
    as [(e & -> & _)|[(-> & _)|(s & d & c & n & _ & _ & _ & Hn & ->)]];
    [done | done |].
  apply tracked_replace with old; [done | | done].
  destruct (accepted_payload _ Hacc) as (_ & (n' & Hn' & Hpos) & _).
  rewrite Hn in Hn'. injection Hn' as <-. exact Hpos.
Qed.

Lemma delete_tracked params :
  triple (fun s => s = ps) (tracked used')
    (runChain [asyncHandler deleteHandler] env params req).
Proof.
  intros s ->. rewrite runChain_single. unfold asyncHandler.
  destruct (delete_removes_cases env params req ps)
    as [->|(l1 & p & l2 & Hps & r & ->)]; [apply tracked_still |].
  pose proof tracked_still as Hstill. rewrite Hps in Hstill.
  by apply tracked_remove with p.
Qed.

End Step.

(** Serving one request keeps the tracked invariant, as long as the id
    that [uuidv4()] returns for a creating request is well formed and has
    not been returned before. *)
Lemma dispatch_tracked env req used ps :
  tracked used ps →
  (creates req = true → is_uuid_v4 (uuid env) = true ∧ uuid env ∉ used) →
  tracked (usedAfter env req used) (snd (dispatch env req ps)).
Proof.
  intros Htracked Hfresh. unfold dispatch.
  apply (handle_triple env req (fun s => s = ps)); [by intros s ->; apply tracked_still | | done].
  unfold app.
  repeat apply Forall_cons_2; try apply Forall_nil_2; intros m Hm;
    first
      [ apply enter_use in Hm; subst m; apply reads_tracked; [done |];
        first [ apply readOnly_jsonBodyParser | apply readOnly_logger
              | apply readOnly_auth | apply readOnly_notFound ]
      | discriminate
      | pose proof (creates_route _ _ _ _ Hm) as Hc;
        apply enter_route in Hm; destruct Hm as (_ & params' & _ & ->);
        destruct (Hfresh Hc); by apply post_tracked
      | apply enter_route in Hm; destruct Hm as (_ & params' & _ & ->);
        first
          [ by apply put_tracked
          | by apply delete_tracked
          | apply reads_tracked; [done |];
            apply readOnly_chain; unfold asyncHandler;
            repeat apply Forall_cons_2; try apply Forall_nil_2;
            first [ apply readOnly_root | apply readOnly_list
                  | apply readOnly_search | apply readOnly_stats
                  | apply readOnly_get ] ] ].
Qed.

Lemma generated_cons env req rest :
  generated ((env, req) :: rest)
  = if creates req then uuid env :: generated rest else generated rest.
Proof. unfold generated. simpl. by destruct (creates req). Qed.

Lemma run_tracked trace :
  ∀ used ps,
    tracked used ps →
    NoDup (used ++ generated trace) →
    Forall (fun u => is_uuid_v4 u = true) (generated trace) →
    storeInvariant (run trace ps).
Proof.
  induction trace as [|[env req] rest IH]; intros used ps Htracked Hnd Hwf; simpl.
  { apply Htracked. }
  rewrite generated_cons in Hnd, Hwf.
  apply (IH (usedAfter env req used)).
  - apply dispatch_tracked; [done |]. intros Hc. rewrite Hc in Hnd, Hwf.
    apply Forall_cons in Hwf as [Hu _]. split; [done |].
    apply NoDup_app in Hnd as (_ & Hdisj & _).
    intros Hin. apply (Hdisj _ Hin). apply list_elem_of_here.
  - unfold usedAfter. destruct (creates req); [| done].
    by rewrite <- Permutation_middle in Hnd.
  - destruct (creates req); [| done]. by apply Forall_cons in Hwf as [_ Hwf].
Qed.

Lemma tracked_seed : tracked [] products.
Proof.
  split; [split |].
  - apply (bool_decide_unpack _). vm_compute. reflexivity.
  - unfold products. repeat constructor.
  - unfold products. repeat constructor; left; simpl;
      repeat first [apply list_elem_of_here | apply list_elem_of_further].
Qed.

(** C1. Starting from the seeded store, after any sequence of requests
    served by the application (so that a payload reaches the create or the
    update handler only through the validation middleware), every record has
    an id that no other record has and a price above zero; the ids that
    [uuidv4()] hands out along the sequence are taken to be well-formed
    version-4 UUIDs that do not repeat. *)
Theorem store_invariant_holds (trace : list (Env * Request)) :
  NoDup (generated trace) →
  Forall (fun u => is_uuid_v4 u = true) (generated trace) →
  storeInvariant (run trace products).
Proof.
  intros Hnd Hwf. by apply (run_tracked trace [] products tracked_seed).
Qed.

Lemma store_invariant_holds_witness :
  (NoDup (generated sampleTrace)
   ∧ Forall (fun u => is_uuid_v4 u = true) (generated sampleTrace))
  ∧ length (run sampleTrace products) = 4
  ∧ storeInvariant (run sampleTrace products).
Proof.
  assert (Hnd : NoDup (generated sampleTrace)).
  { apply (bool_decide_unpack _). vm_compute. reflexivity. }
  assert (Hwf : Forall (fun u => is_uuid_v4 u = true) (generated sampleTrace)).
  { vm_compute. repeat constructor. }
  split; [by split |]. split; [vm_compute; reflexivity |].
  exact (store_invariant_holds sampleTrace Hnd Hwf).
Defined.

(* ================================================================= *)
(** ** Statistics *)

Lemma countCategory_lookup (cats : gmap string nat) (p : Product) (c : string) :
  countCategory cats p !! c
  = if decide (c = category p) then Some (S (default 0 (cats !! c)))
    else cats !! c.
Proof.
  unfold countCategory. case_decide as Hc.
  - subst c. rewrite lookup_insert_eq. f_equal. f_equal.
    destruct (cats !! category p) as [[|k]|] eqn:Hk;
      rewrite ?lookup_insert_eq, ?Hk; done.
  - rewrite lookup_insert_ne by done.
    destruct (cats !! category p) as [[|k]|];
      rewrite ?lookup_insert_ne by done; done.
Qed.

Lemma categories_lookup (ps : list Product) (c : string) :
  ∀ cats : gmap string nat,
    fold_left countCategory ps cats !! c
    = match inCategory c ps with
      | 0 => cats !! c
      | S k => Some (S k + default 0 (cats !! c))
      end.
Proof.
  unfold inCategory.
  induction ps as [|p ps IH]; intros cats; simpl; [done |].
  rewrite IH, countCategory_lookup.
  destruct (String.eqb_spec (category p) c) as [Hc|Hc].
  - rewrite decide_True by done. simpl.
    destruct (length (List.filter _ ps)); simpl; f_equal; lia.
  - rewrite decide_False by done. done.
Qed.















(* ================================================================= *)
(** ** Payloads the validation lets through *)

(** What the create route does with an accepted payload whose description
    and category are strings, for a fresh id: 201, the new record at the
    end of the store, and the record found again by its id. *)
Lemma create_string_payload env params req ps (d c : string) :
  ¬ spec_rejects (body req) →
  field "description" (body req) = JStr d →
  field "category" (body req) = JStr c →
  uuid env ∉ id <$> ps →
  ∃ s n,
    field "name" (body req) = JStr s
    ∧ field "price" (body req) = JNum n
    ∧ runChain [validateProductMiddleware; asyncHandler createHandler]
        env params req ps
      = (Normal (Sent (status_json 201
                         (ProductData (createdProduct env (body req) s d c n)))),
         ps ++ [createdProduct env (body req) s d c n])
    ∧ ∀ env' req',
        getHandler env' {[ "id" := uuid env ]} req'
          (ps ++ [createdProduct env (body req) s d c n])
        = (Normal (Sent (json (ProductData (createdProduct env (body req) s d c n)))),
           ps ++ [createdProduct env (body req) s d c n]).
Proof.
  intros Hacc Hd Hc Hfresh.
  destruct (validated_route (asyncHandler createHandler) env params req ps)
    as [(msg & Hthrow)|(_ & Hrun)].
  { destruct (validate_cases env params req ps) as [[Hok _]|(? & _ & ?)]; [| done].
    cbn [runChain] in Hthrow. unfold bind at 1 in Hthrow. rewrite Hok in Hthrow.
    exfalso. unfold asyncHandler in Hthrow.
    destruct (create_cases env params req ps)
      as [(e & He & [Hs|[Hs|Hs]])|[(_ & Hn)|(s & d' & c' & n & _ & _ & _ & _ & He)]].
    - destruct (accepted_payload _ Hacc) as ((s & ? & _) & _). by eapply Hs.
    - by eapply Hs.
    - by eapply Hs.
    - destruct (accepted_payload _ Hacc) as (_ & (n & ? & _) & _). by eapply Hn.
    - unfold bind in Hthrow. rewrite He in Hthrow. discriminate. }
  rewrite Hrun. unfold asyncHandler.
  destruct (create_cases env params req ps)
    as [(e & He & [Hs|[Hs|Hs]])|[(_ & Hn)|(s & d' & c' & n & Hs & Hd' & Hc' & Hn & He)]].
  - destruct (accepted_payload _ Hacc) as ((s & ? & _) & _). exfalso. by eapply Hs.
  - exfalso. by eapply Hs.
  - exfalso. by eapply Hs.
  - destruct (accepted_payload _ Hacc) as (_ & (n & ? & _) & _). exfalso. by eapply Hn.
  - rewrite Hd in Hd'. rewrite Hc in Hc'. injection Hd' as <-. injection Hc' as <-.
    exists s, n. repeat split; try done.
    intros env' req'. unfold getHandler, bind, getProducts.
    rewrite lookup_singleton_eq.
    rewrite (find_first (Some (uuid env)) ps []); [done | | done].
    apply Forall_forall. intros q Hq [= Hid]. apply Hfresh.
    rewrite <- Hid. by apply list_elem_of_fmap_2.
Qed.

(** What the update route does with an accepted payload whose description
    and category are strings, on a store that has the id. *)
Lemma update_string_payload env params req (l1 l2 : list Product)
  (old : Product) (d c : string) :
  ¬ spec_rejects (body req) →
  field "description" (body req) = JStr d →
  field "category" (body req) = JStr c →
  hasId (params !! "id") old →
  Forall (fun q => ¬ hasId (params !! "id") q) l1 →
  ∃ s n,
    field "name" (body req) = JStr s
    ∧ field "price" (body req) = JNum n
    ∧ runChain [validateProductMiddleware; asyncHandler updateHandler]
        env params req (l1 ++ old :: l2)
      = (Normal (Sent (status_json 200
                         (ProductData (updatedProduct old (body req) s d c n)))),
         l1 ++ updatedProduct old (body req) s d c n :: l2).
Proof.
  intros Hacc Hd Hc Hold Hl1.
  destruct (validated_route (asyncHandler updateHandler) env params req
              (l1 ++ old :: l2)) as [(msg & Hthrow)|(_ & Hrun)].
  { destruct (validate_cases env params req (l1 ++ old :: l2))
      as [[Hok _]|(? & _ & ?)]; [| done].
    cbn [runChain] in Hthrow. unfold bind at 1 in Hthrow. rewrite Hok in Hthrow.
    exfalso. unfold asyncHandler in Hthrow.
    destruct (update_cases env params req l1 l2 old Hold Hl1)
      as [(e & He & [Hs|[Hs|Hs]])|[(_ & Hn)|(s & d' & c' & n & _ & _ & _ & _ & He)]].
    - destruct (accepted_payload _ Hacc) as ((s & ? & _) & _). by eapply Hs.
    - by eapply Hs.
    - by eapply Hs.
    - destruct (accepted_payload _ Hacc) as (_ & (n & ? & _) & _). by eapply Hn.
    - unfold bind in Hthrow. rewrite He in Hthrow. discriminate. }
  rewrite Hrun. unfold asyncHandler.
  destruct (update_cases env params req l1 l2 old Hold Hl1)
    as [(e & He & [Hs|[Hs|Hs]])|[(_ & Hn)|(s & d' & c' & n & Hs & Hd' & Hc' & Hn & He)]].
  - destruct (accepted_payload _ Hacc) as ((s & ? & _) & _). exfalso. by eapply Hs.
  - exfalso. by eapply Hs.
  - exfalso. by eapply Hs.
  - destruct (accepted_payload _ Hacc) as (_ & (n & ? & _) & _). exfalso. by eapply Hn.
  - rewrite Hd in Hd'. rewrite Hc in Hc'. injection Hd' as <-. injection Hc' as <-.
    exists s, n. by repeat split.
Qed.

(** Behind the validation middleware the handlers never meet a price that
    is not a number. *)
Lemma postRoute_typed env params req ps :
  fst (runChain [validateProductMiddleware; asyncHandler createHandler]
         env params req ps) ≠ Untyped.
Proof.
  destruct (validated_route (asyncHandler createHandler) env params req ps)
    as [(msg & ->)|(Hacc & ->)]; [done |].
  unfold asyncHandler.
  destruct (create_cases env params req ps)
    as [(e & -> & _)|[(_ & Hn)|(s & d & c & n & _ & _ & _ & _ & ->)]]; try done.
  destruct (accepted_payload _ Hacc) as (_ & (n & ? & _) & _). exfalso. by eapply Hn.
Qed.

(** C5 (the code departs from the claim). A payload whose description is
    a number passes the validation middleware, and the create handler throws
    a TypeError on it: the request is answered with status 500, not 201,
    and nothing is appended to the store. *)
Theorem create_numeric_description :
  validateProductMiddleware sampleEnv ∅ createNumericDescription products
  = (Normal Next, products)
  ∧ createHandler sampleEnv ∅ createNumericDescription products
    = (Throw (TypeError "description.trim is not a function"), products)
  ∧ dispatch sampleEnv createNumericDescription products
    = (Some (status_json 500
               (ErrorEnvelope "description.trim is not a function" false)),
       products).
Proof. repeat split; vm_compute; reflexivity. Qed.

(** C6 (the code departs from the claim). The same payload sent to the
    update route for the id of a stored product passes the validation
    middleware, and the update handler throws a TypeError on it: the
    request is answered with status 500, not 200, and the record keeps its
    old name, description, price and category. *)
Theorem update_numeric_description :
  validateProductMiddleware sampleEnv {[ "id" := "1" ]} updateNumericDescription
    products
  = (Normal Next, products)
  ∧ updateHandler sampleEnv {[ "id" := "1" ]} updateNumericDescription products
    = (Throw (TypeError "description.trim is not a function"), products)
  ∧ dispatch sampleEnv updateNumericDescription products
    = (Some (status_json 500
               (ErrorEnvelope "description.trim is not a function" false)),
       products).
Proof. repeat split; vm_compute; reflexivity. Qed.

(* ================================================================= *)
(** ** Requests that no route takes *)

Lemma enter_unmatched verb pattern chain env req :
  routeMatches req (Route verb pattern chain) = false →
  enter (Route verb pattern chain) env req = None.
Proof.
  simpl. destruct (handlesMethod verb (method req)); [| done].
  destruct (matchPath pattern (path req)); [| done].
  simpl. intros H. exfalso. revert H. by rewrite ?bool_decide_eq_true_2.
Qed.

(** A request that no route takes and that gets past the API-key check
    reaches the catch-all handler; the error it throws finds no
    error-handling middleware below it in the stack, the global one being
    registered above, and Express's final handler answers with its HTML
    page. *)
Lemma unrouted_reaches_finalhandler env req ps :
  routed req = false → authorized req = true →
  notFoundHandler env ∅ req ps
  = (Throw (NotFoundError ("Route " ++ originalUrl req ++ " not found")%string), ps)
  ∧ dispatch env req ps = (Some (status_json 404 HtmlPage), ps).
Proof.
  intros Hrouted Hauth. split; [done |].
  unfold routed, app in Hrouted. cbn [existsb] in Hrouted.
  repeat (apply orb_false_iff in Hrouted as [? Hrouted]).
  unfold dispatch, app. cbn [handle].
  repeat match goal with
         | H : routeMatches req (Route ?v ?p ?c) = false |- _ =>
             rewrite (enter_unmatched v p c env req H); clear H
         end.
  cbn [enter].
  change (matchMount [] (path req)) with true. cbv iota.
  cbn [jsonBodyParser loggerMiddleware ret].
  unfold authorized in Hauth.
  destruct (matchMount ["api"; "products"] (path req)); cbn [negb orb] in Hauth.
  - unfold authMiddleware. rewrite Hauth. reflexivity.
  - reflexivity.
Qed.

(** C9 (the code departs from the claim). A GET for a path that no route
    knows: the catch-all handler throws the NotFoundError naming the path,
    but the answer is the HTML page of Express's final handler with status
    404, not the JSON envelope that the global error handler would have
    built from the same error. *)
Theorem unmatched_route_not_enveloped :
  notFoundHandler sampleEnv ∅ unknownRoute products
  = (Throw (NotFoundError "Route /nope not found"), products)
  ∧ dispatch sampleEnv unknownRoute products
    = (Some (status_json 404 HtmlPage), products)
  ∧ success HtmlPage = None
  ∧ errorHandler sampleEnv (NotFoundError "Route /nope not found") unknownRoute
    = status_json 404 (ErrorEnvelope "Route /nope not found" false).
Proof. repeat split; vm_compute; reflexivity. Qed.

(** Below /api/products the API-key check comes first: without a key an
    unknown path is answered 401, in the JSON envelope. *)
Lemma unmatched_product_route_unauthorized :
  routed unknownProductRoute = false
  ∧ dispatch sampleEnv unknownProductRoute products
    = (Some (status_json 401
               (ErrorEnvelope
                  "API key required. Please provide x-api-key in headers" false)),
       products).
Proof. split; vm_compute; reflexivity. Qed.

(* ================================================================= *)
(** ** Every request is answered *)

Section Typed.

Context {A B : Type}.

Lemma typed_ret (a : A) : typed (ret a).
Proof. by intros ps. Qed.

Lemma typed_throw (e : JsError) : typed (@throw A e).
Proof. by intros ps. Qed.

Lemma typed_bind (m : M A) (k : A → M B) :
  typed m → (∀ a, typed (k a)) → typed (bind m k).
Proof.
  intros Hm Hk ps. unfold bind. specialize (Hm ps).
  destruct (m ps) as [[a|e|] ps']; simpl in *; [apply Hk | done | done].
Qed.

End Typed.

Lemma typed_getProducts : typed getProducts.
Proof. by intros ps. Qed.

Lemma typed_setProducts ps' : typed (setProducts ps').
Proof. by intros ps. Qed.

Create HintDb typing.
#[local] Hint Resolve typed_ret typed_throw typed_getProducts
  typed_setProducts : typing.

Ltac well_typed :=
  repeat first
    [ apply typed_bind; [| intros ?]
    | solve [auto with typing]
    | match goal with
      | |- typed (if ?c then _ else _) => destruct c
      | |- typed (match ?o with _ => _ end) => destruct o
      | |- typed (let '(_, _) := ?x in _) => destruct x
      end ].

Lemma typed_chain chain env params req :
  Forall (fun fn : Handler => typed (fn env params req)) chain →
  typed (runChain chain env params req).
Proof.
  induction 1 as [|fn rest Hfn _ IH]; simpl; [apply typed_ret |].
  apply typed_bind; [done |]. intros [|r]; [done | apply typed_ret].
Qed.

Lemma putRoute_typed env params req ps :
  fst (runChain [validateProductMiddleware; asyncHandler updateHandler]
         env params req ps) ≠ Untyped.
Proof.
  destruct (validated_route (asyncHandler updateHandler) env params req ps)
    as [(msg & ->)|(Hacc & ->)]; [done |].
  unfold asyncHandler.
  destruct (find_split (params !! "id") ps)
    as [Hnone|(l1 & old & l2 & -> & Hold & Hl1)].
  { by rewrite update_not_found. }
  destruct (update_cases env params req l1 l2 old Hold Hl1)
    as [(e & -> & _)|[(_ & Hn)|(s & d & c & n & _ & _ & _ & _ & ->)]]; try done.
  destruct (accepted_payload _ Hacc) as (_ & (n & ? & _) & _). exfalso. by eapply Hn.
Qed.

Lemma handle_typed stack env req :
  Forall (fun layer => ∀ m, enter layer env req = Some m → typed m) stack →
  ∀ err ps, is_Some (fst (handle stack env req err ps)).
Proof.
  induction 1 as [|layer rest Hl _ IH]; intros err ps; simpl; [done |].
  destruct err as [e|].
  - destruct layer; simpl; auto.
  - destruct (enter layer env req) as [m|] eqn:Em; [| auto].
    specialize (Hl m eq_refl ps).
    destruct (m ps) as [[[|r]|e|] ps']; simpl in *; auto. done.
Qed.

(** The application answers every request: no handler is left on a value
    outside the typed model. *)
Lemma dispatch_responds env req ps : is_Some (fst (dispatch env req ps)).
Proof.
  unfold dispatch. apply handle_typed. unfold app.
  repeat apply Forall_cons_2; try apply Forall_nil_2; intros m Hm;
    first
      [ apply enter_use in Hm; subst m;
        unfold jsonBodyParser, loggerMiddleware, authMiddleware, notFoundHandler;
        well_typed
      | discriminate
      | apply enter_route in Hm; destruct Hm as (_ & params' & _ & ->);
        first
          [ intros ps'; apply postRoute_typed
          | intros ps'; apply putRoute_typed
          | apply typed_chain; unfold asyncHandler;
            repeat apply Forall_cons_2; try apply Forall_nil_2;
            unfold rootHandler, listHandler, searchHandler, statsHandler,
              getHandler, deleteHandler;
            well_typed ] ].
Qed.

(* ================================================================= *)
(** ** Every answer of the application *)

Lemma only_method (verb m : Method) :
  verb = POST ∨ verb = PUT ∨ verb = DELETE →
  handlesMethod verb m = true → m = verb.
Proof.
  intros [->|[->| ->]]; destruct m; simpl; done.
Qed.

Lemma envelope_of env e req :
  errorHandler env e req
  = status_json
      match statusCode e with
      | Some c => if (c =? 0)%Z then 500%Z else c
      | None => 500%Z
      end
      (ErrorEnvelope
         (if String.eqb (message e) EmptyString then "Internal Server Error"
          else message e)
         (isDev env)).
Proof. reflexivity. Qed.

Lemma envelope_message_not_empty (msg : string) :
  (if String.eqb msg EmptyString then "Internal Server Error" else msg)
  ≠ EmptyString.
Proof.
  destruct (String.eqb_spec msg EmptyString); done.
Qed.

Lemma callTrim_throws what v ps e ps' :
  callTrim what v ps = (Throw e, ps') → statusCode e = None.
Proof.
  destruct v; simpl; unfold ret, throw; intros [= <- _]; done.
Qed.

(** The create handler throws nothing but the TypeError of a [trim] call. *)
Lemma create_throws env params req ps e ps' :
  createHandler env params req ps = (Throw e, ps') → statusCode e = None.
Proof.
  unfold createHandler, bind.
  destruct (callTrim "name" _ ps) as [[s|e1|] ps1] eqn:H1;
    [| intros [= <- _]; by eapply callTrim_throws | done].
  destruct (callTrim "description" _ ps1) as [[d|e2|] ps2] eqn:H2;
    [| intros [= <- _]; by eapply callTrim_throws | done].
  destruct (callTrim "category" _ ps2) as [[c|e3|] ps3] eqn:H3;
    [| intros [= <- _]; by eapply callTrim_throws | done].
  destruct (field "price" (body req)); simpl; done.
Qed.

Lemma update_throws env params req ps e ps' :
  updateHandler env params req ps = (Throw e, ps') →
  statusCode e = None ∨ e = NotFoundError "Product not found".
Proof.
  unfold updateHandler, bind, getProducts.
  destruct (list_find _ ps) as [[i old]|]; [| intros [= <- _]; by right].
  destruct (callTrim "name" _ ps) as [[s|e1|] ps1] eqn:H1;
    [| intros [= <- _]; left; by eapply callTrim_throws | done].
  destruct (callTrim "description" _ ps1) as [[d|e2|] ps2] eqn:H2;
    [| intros [= <- _]; left; by eapply callTrim_throws | done].
  destruct (callTrim "category" _ ps2) as [[c|e3|] ps3] eqn:H3;
    [| intros [= <- _]; left; by eapply callTrim_throws | done].
  destruct (field "price" (body req)); simpl; done.
Qed.

Section Answers.

Variables (env : Env) (req : Request) (ps : list Product).

Lemma served_envelope_500 e :
  method req = POST ∨ method req = PUT →
  ¬ spec_rejects (body req) →
  (∀ s, field "name" (body req) ≠ JStr s)
  ∨ (∀ s, field "description" (body req) ≠ JStr s)
  ∨ (∀ s, field "category" (body req) ≠ JStr s) →
  statusCode e = None →
  Served env req ps (Some (errorHandler env e req)) ps.
Proof.
  intros Hm Hacc Hfields He. rewrite envelope_of, He.
  apply served_type_error; [done | done | | apply envelope_message_not_empty].
  destruct Hfields as [Hname|Hrest]; [| done].
  destruct (accepted_payload _ Hacc) as ((s & Hs & _) & _).
  exfalso. by eapply Hname.
Qed.

Lemma root_answered params :
  handlesMethod GET (method req) = true →
  Answered env req ps (runChain [rootHandler] env params req ps).
Proof.
  intros Hm. left. eexists _, _. split; [reflexivity |]. by constructor.
Qed.

Lemma list_answered params :
  handlesMethod GET (method req) = true →
  Answered env req ps (runChain [asyncHandler listHandler] env params req ps).
Proof.
  intros Hm. left. eexists _, _. split; [reflexivity |]. by constructor.
Qed.

Lemma search_answered params :
  handlesMethod GET (method req) = true →
  Answered env req ps (runChain [asyncHandler searchHandler] env params req ps).
Proof.
  intros Hm. rewrite runChain_single. unfold asyncHandler, searchHandler.
  destruct (query req !! "q") as [term|] eqn:Hq; simpl.
  - destruct (String.eqb term EmptyString) eqn:Hterm; simpl.
    + right. eexists. split; [reflexivity |]. rewrite envelope_of.
      apply served_search_missing; [done |]. rewrite Hq. simpl. by rewrite Hterm.
    + left. eexists _, _. split; [reflexivity |]. by apply served_search.
  - right. eexists. split; [reflexivity |]. rewrite envelope_of.
    apply served_search_missing; [done |]. by rewrite Hq.
Qed.

Lemma stats_answered params :
  handlesMethod GET (method req) = true →
  Answered env req ps (runChain [asyncHandler statsHandler] env params req ps).
Proof.
  intros Hm. left. eexists _, _. split; [reflexivity |]. by constructor.
Qed.

Lemma get_answered params :
  handlesMethod GET (method req) = true →
  idParams req params →
  Answered env req ps (runChain [asyncHandler getHandler] env params req ps).
Proof.
  intros Hm Hparams.
  rewrite runChain_single. unfold asyncHandler, getHandler, bind, getProducts.
  destruct (list_find _ ps) as [[i p]|] eqn:Hfind.
  - left. eexists _, _. split; [reflexivity |].
    apply list_find_Some in Hfind as (Hp & Hid & _).
    apply served_found with params; [done | done | | done].
    by eapply list_elem_of_lookup_2.
  - right. eexists. split; [reflexivity |].
    apply served_not_found with params; [done |].
    by apply (proj1 (list_find_None _ _)).
Qed.

Lemma post_answered params :
  handlesMethod POST (method req) = true →
  Answered env req ps
    (runChain [validateProductMiddleware; asyncHandler createHandler]
       env params req ps).
Proof.
  intros Hm%only_method; [| tauto].
  destruct (validate_cases env params req ps) as [[Hok Hacc]|(msg & Hthrow & Hrej)].
  - assert (Hrun : runChain [validateProductMiddleware; asyncHandler createHandler]
                     env params req ps
                   = asyncHandler createHandler env params req ps).
    { transitivity (runChain [asyncHandler createHandler] env params req ps);
        [| apply runChain_single].
      cbn [runChain]. unfold bind at 1. by rewrite Hok. }
    rewrite Hrun.
    unfold asyncHandler.
    destruct (create_cases env params req ps)
      as [(e & He & Hf)|[(_ & Hn)|(s & d & c & n & ? & ? & ? & ? & He)]].
    + right. rewrite He. eexists. split; [reflexivity |].
      apply served_envelope_500; [tauto | done | done | by eapply create_throws].
    + destruct (accepted_payload _ Hacc) as (_ & (n & ? & _) & _).
      exfalso. by eapply Hn.
    + left. rewrite He. eexists _, _. split; [reflexivity |].
      by apply served_created.
  - right. exists (ValidationError msg). split.
    + cbn [runChain]. unfold bind at 1. by rewrite Hthrow.
    + rewrite envelope_of. apply served_invalid; [tauto | done].
Qed.

Lemma put_answered params :
  handlesMethod PUT (method req) = true →
  idParams req params →
  Answered env req ps
    (runChain [validateProductMiddleware; asyncHandler updateHandler]
       env params req ps).
Proof.
  intros Hm%only_method Hparams; [| tauto].
  destruct (validate_cases env params req ps) as [[Hok Hacc]|(msg & Hthrow & Hrej)].
  - assert (Hrun : runChain [validateProductMiddleware; asyncHandler updateHandler]
                     env params req ps
                   = updateHandler env params req ps).
    { transitivity (runChain [asyncHandler updateHandler] env params req ps);
        [| apply runChain_single].
      cbn [runChain]. unfold bind at 1. by rewrite Hok. }
    rewrite Hrun.
    destruct (find_split (params !! "id") ps)
      as [Hnone|(l1 & old & l2 & Hps & Hold & Hl1)].
    { right. rewrite update_not_found by done. eexists. split; [reflexivity |].
      by apply served_not_found with params. }
    pose proof (update_cases env params req l1 l2 old Hold Hl1) as Hcases.
    cbv zeta in Hcases. rewrite <- Hps in Hcases.
    destruct Hcases
      as [(e & He & Hf)|[(_ & Hn)|(s & d & c & n & ? & ? & ? & ? & He)]].
    + right. rewrite He. eexists. split; [reflexivity |].
      destruct (update_throws _ _ _ _ _ _ He) as [Hnone| ->].
      * apply served_envelope_500; [tauto | done | done | done].
      * exfalso. rewrite Hps in He. unfold updateHandler, bind, getProducts in He.
        rewrite find_first in He by done. cbv beta iota in He.
        destruct (callTrim "name" _ _) as [[?|e1|] ?] eqn:H1 in He;
          [| injection He as He _; apply callTrim_throws in H1;
             by rewrite He in H1 | done].
        destruct (callTrim "description" _ _) as [[?|e2|] ?] eqn:H2 in He;
          [| injection He as He _; apply callTrim_throws in H2;
             by rewrite He in H2 | done].
        destruct (callTrim "category" _ _) as [[?|e3|] ?] eqn:H3 in He;
          [| injection He as He _; apply callTrim_throws in H3;
             by rewrite He in H3 | done].
        destruct (field "price" (body req)); simpl in He; done.
    + destruct (accepted_payload _ Hacc) as (_ & (n & ? & _) & _).
      exfalso. by eapply Hn.
    + left. rewrite He. eexists _, _. split; [reflexivity |].
      by apply (served_updated env req ps params l1 old l2).
  - right. exists (ValidationError msg). split.
    + cbn [runChain]. unfold bind at 1. by rewrite Hthrow.
    + rewrite envelope_of. apply served_invalid; [tauto | done].
Qed.

Lemma delete_answered params :
  handlesMethod DELETE (method req) = true →
  idParams req params →
  Answered env req ps (runChain [asyncHandler deleteHandler] env params req ps).
Proof.
  intros Hm%only_method Hparams; [| tauto].
  rewrite runChain_single. unfold asyncHandler.
  destruct (find_split (params !! "id") ps)
    as [Hnone|(l1 & p & l2 & Hps & Hp & Hl1)].
  - right. eexists. split.
    { unfold deleteHandler, bind, getProducts. by rewrite find_none. }
    by apply served_not_found with params.
  - left. eexists _, _. split.
    { unfold deleteHandler, bind, getProducts. rewrite Hps.
      rewrite find_first by done. simpl.
      unfold setProducts, ret. by rewrite delete_middle. }
    by apply served_deleted with params p.
Qed.

End Answers.

Lemma unmatched_enter verb pattern chain env req :
  enter (Route verb pattern chain) env req = None →
  routeMatches req (Route verb pattern chain) = false.
Proof.
  simpl. destruct (handlesMethod verb (method req)); [| done].
  destruct (matchPath pattern (path req)); done.
Qed.

(** One step of the walk at a route that lies above the global error
    handler: the route answers, or the walk goes on below it. *)
Lemma walk_route verb pattern chain rest env req ps :
  (∀ params, handlesMethod verb (method req) = true →
             matchPath pattern (path req) = Some params →
             Answered env req ps (runChain chain env params req ps)) →
  (∀ e, handle rest env req (Some e) ps = (Some (errorHandler env e req), ps)) →
  (routeMatches req (Route verb pattern chain) = false →
   Served env req ps (fst (handle rest env req None ps))
     (snd (handle rest env req None ps))) →
  Served env req ps
    (fst (handle (Route verb pattern chain :: rest) env req None ps))
    (snd (handle (Route verb pattern chain :: rest) env req None ps)).
Proof.
  intros Hroute Herr Hrest. cbn [handle].
  destruct (enter (Route verb pattern chain) env req) as [m|] eqn:Em.
  - apply enter_route in Em as (Hverb & params & Hpath & ->).
    destruct (Hroute params Hverb Hpath) as [(r & ps' & -> & Hr)|(e & -> & He)].
    + exact Hr.
    + by rewrite Herr.
  - apply Hrest. by eapply unmatched_enter.
Qed.

Lemma handle_use mount fn rest env req ps :
  handle (Use mount fn :: rest) env req None ps
  = if matchMount mount (path req) then
      match fn env ∅ req ps with
      | (Normal Next, ps') => handle rest env req None ps'
      | (Normal (Sent r), ps') => (Some r, ps')
      | (Throw e, ps') => handle rest env req (Some e) ps'
      | (Untyped, ps') => (None, ps')
      end
    else handle rest env req None ps.
Proof.
  cbn [handle enter]. by destruct (matchMount mount (path req)).
Qed.

Ltac walk_routes :=
  repeat (apply walk_route;
          [ intros ? ? ?;
            first [ by apply root_answered | by apply list_answered
                  | by apply search_answered | by apply stats_answered
                  | by apply get_answered | by apply post_answered
                  | by apply put_answered | by apply delete_answered ]
          | reflexivity
          | intros ? ]);
  cbn [handle enter matchMount notFoundHandler throw finalhandler fst snd];
  apply served_no_route;
  [ unfold routed, app; cbn [existsb];
    repeat match goal with
           | H : routeMatches _ _ = false |- _ => rewrite H; clear H
           end;
    reflexivity
  | unfold authorized;
    repeat match goal with
           | H : matchMount _ _ = _ |- _ => rewrite H
           | H : present _ = _ |- _ => rewrite H
           end;
    reflexivity ].

(** The answer of the application to any request is one of [Served]. *)
Lemma dispatch_served env req ps :
  Served env req ps (fst (dispatch env req ps)) (snd (dispatch env req ps)).
Proof.
  unfold dispatch, app.
  do 2 (rewrite handle_use; change (matchMount [] (path req)) with true;
        cbv iota; cbn [jsonBodyParser loggerMiddleware ret]).
  rewrite handle_use.
  destruct (matchMount ["api"; "products"] (path req)) eqn:Hmount;
    [| walk_routes].
  unfold authMiddleware.
  destruct (present (headers req !! "x-api-key")) eqn:Hkey; cbn [negb];
    [cbn [ret]; walk_routes |].
  cbn [throw handle fst snd]. rewrite envelope_of.
  apply served_unauthorized. unfold authorized.
  by rewrite Hmount, Hkey.
Qed.

Lemma dispatch_unauthorized env req ps :
  authorized req = false →
  dispatch env req ps
  = (Some (status_json 401 (ErrorEnvelope authMessage (isDev env))), ps).
Proof.
  unfold authorized. intros Hauth.
  destruct (matchMount ["api"; "products"] (path req)) eqn:Hmount; [| done].
  destruct (present (headers req !! "x-api-key")) eqn:Hkey; [done |].
  unfold dispatch, app.
  do 2 (rewrite handle_use; change (matchMount [] (path req)) with true;
        cbv iota; cbn [jsonBodyParser loggerMiddleware ret]).
  rewrite handle_use, Hmount. unfold authMiddleware. rewrite Hkey. reflexivity.
Qed.

Ltac served_cases H :=
  inversion H; subst; clear H; cbn [status payload json status_json success] in *.

Lemma serve_failure env e req ps :
  serve env (Some e) req ps = (Some (errorHandler env e req), ps).
Proof. reflexivity. Qed.

(** X1. The API-key check. A request whose body the JSON parser has
    taken, whose path lies below /api/products and that carries no
    x-api-key header, or an empty one, is answered 401 with the fixed
    message in the error envelope, whatever its method, its route and the
    parsed body, and the store is left as it was. The parser runs before
    the check: a body that it rejects is answered with the parser's error
    in the envelope, key or no key. No other request is answered 401 (the
    parser's error apart, should it carry that status): any non-empty key
    passes. *)
Theorem api_key_gate env failure req ps :
  (failure = None → authorized req = false →
   serve env failure req ps
   = (Some (status_json 401 (ErrorEnvelope authMessage (isDev env))), ps))
  ∧ (∀ e, failure = Some e →
          serve env failure req ps = (Some (errorHandler env e req), ps))
  ∧ (∀ r, fst (serve env failure req ps) = Some r →
          status r = 401%Z →
          (failure = None ∧ authorized req = false)
          ∨ (∃ e, failure = Some e ∧ statusCode e = Some 401%Z)).
Proof.
  split; [| split].
  - intros -> Hauth. by apply dispatch_unauthorized.
  - intros e ->. apply serve_failure.
  - intros r Hr Hstatus. destruct failure as [e|].
    + right. exists e. split; [done |].
      rewrite serve_failure in Hr. injection Hr as <-.
      unfold errorHandler in Hstatus. cbn [status status_json] in Hstatus.
      destruct (statusCode e) as [c|]; [| done].
      destruct (Z.eqb_spec c 0); [done | by subst].
    + left. split; [done |].
      pose proof (dispatch_served env req ps) as Hserved.
      change (serve env None req ps) with (dispatch env req ps) in Hr.
      rewrite Hr in Hserved.
      served_cases Hserved; done.
Qed.

Lemma api_key_gate_witness :
  authorized unknownProductRoute = false
  ∧ serve sampleEnv None unknownProductRoute products
    = (Some (status_json 401 (ErrorEnvelope authMessage (isDev sampleEnv))),
       products).
Proof.
  split; [reflexivity |].
  apply (api_key_gate sampleEnv None unknownProductRoute products);
    reflexivity.
Defined.

(** X2. The shape of every answer. The application answers every request.
    When the JSON parser has taken the body the answer is one of three
    kinds: status 200 or 201 with a body whose [success] is true (or the
    welcome message of the root route); status 400, 401, 404 or 500 with
    the error envelope; or status 404 with the page of the framework's
    final handler; and status 201 is given to POST requests only. When
    the parser rejects the body the answer is the error envelope with the
    status of the parser's error (400, 413, 415, ...), 500 when it carries
    none. The envelope carries a stack exactly in the development
    configuration. *)
Theorem answer_shapes env failure req ps :
  ∃ r, fst (serve env failure req ps) = Some r
       ∧ match failure with
         | None =>
             (((status r = 200%Z ∨ status r = 201%Z)
               ∧ (success (payload r) = Some true ∨ payload r = Welcome))
              ∨ ((status r = 400%Z ∨ status r = 401%Z
                  ∨ status r = 404%Z ∨ status r = 500%Z)
                 ∧ ∃ msg, payload r = ErrorEnvelope msg (isDev env))
              ∨ r = status_json 404 HtmlPage)
             ∧ (status r = 201%Z → method req = POST)
         | Some e =>
             status r = match statusCode e with
                        | Some c => if (c =? 0)%Z then 500%Z else c
                        | None => 500%Z
                        end
             ∧ ∃ msg, payload r = ErrorEnvelope msg (isDev env)
         end.
Proof.
  destruct failure as [e|].
  { eexists. rewrite serve_failure. split; [reflexivity |].
    split; [reflexivity |]. unfold errorHandler, isDev. cbn [payload status_json].
    eauto. }
  change (serve env None req ps) with (dispatch env req ps).
  destruct (dispatch_responds env req ps) as [r Hr]. exists r. split; [done |].
  pose proof (dispatch_served env req ps) as Hserved. rewrite Hr in Hserved.
  served_cases Hserved;
    (split; [| try done]);
    first [ solve [left; split; tauto]
          | solve [right; left; split; [tauto | eauto]]
          | right; right; reflexivity ].
Qed.

(** X3. A request that is answered with status 400 or above leaves the
    store exactly as it was: no failed request writes. *)
Theorem failed_request_keeps_store env req ps r :
  fst (dispatch env req ps) = Some r →
  (400 ≤ status r)%Z →
  snd (dispatch env req ps) = ps.
Proof.
  intros Hr Hstatus.
  pose proof (dispatch_served env req ps) as Hserved. rewrite Hr in Hserved.
  destruct (dispatch env req ps) as [r' ps']. cbn [fst snd] in *.
  served_cases Hserved; try done; try (exfalso; lia).
Qed.

Lemma failed_request_keeps_store_witness :
  snd (dispatch sampleEnv createNumericDescription products) = products.
Proof.
  apply (failed_request_keeps_store sampleEnv createNumericDescription products
           (status_json 500
              (ErrorEnvelope "description.trim is not a function" false)));
    [vm_compute; reflexivity | vm_compute; discriminate].
Defined.

(** X4. What a request can do to the store: nothing; or, on a POST
    answered 201, append the one record of the answer; or, on a PUT
    answered 200, put the record of the answer in the place of the first
    record with the requested id, whose id it keeps; or, on a DELETE
    answered 200, remove the first record with the requested id. *)
Theorem store_changes env req ps :
  snd (dispatch env req ps) = ps
  ∨ (∃ new, method req = POST
            ∧ fst (dispatch env req ps)
              = Some (status_json 201 (ProductData new))
            ∧ id new = uuid env
            ∧ snd (dispatch env req ps) = ps ++ [new])
  ∨ (∃ params l1 old l2 new,
       method req = PUT ∧ idParams req params
       ∧ ps = l1 ++ old :: l2
       ∧ hasId (params !! "id") old
       ∧ Forall (fun q => ¬ hasId (params !! "id") q) l1
       ∧ id new = id old
       ∧ fst (dispatch env req ps) = Some (json (ProductData new))
       ∧ snd (dispatch env req ps) = l1 ++ new :: l2)
  ∨ (∃ params l1 p l2,
       method req = DELETE ∧ idParams req params
       ∧ ps = l1 ++ p :: l2
       ∧ hasId (params !! "id") p
       ∧ Forall (fun q => ¬ hasId (params !! "id") q) l1
       ∧ fst (dispatch env req ps)
         = Some (json (Message "Product deleted successfully"))
       ∧ snd (dispatch env req ps) = l1 ++ l2).
Proof.
  pose proof (dispatch_served env req ps) as Hserved.
  destruct (dispatch env req ps) as [r' ps']. cbn [fst snd] in *.
  inversion Hserved; subst; clear Hserved; try (by left).
  - right. left. exists (createdProduct env (body req) s d c n). by repeat split.
  - right. right. left.
    exists params, l1, old, l2, (updatedProduct old (body req) s d c n).
    by repeat split.
  - right. right. right. exists params, l1, p, l2. by repeat split.
Qed.

(* ================================================================= *)
(** ** The value of the API key *)

Lemma handle_ext stack env req1 req2 :
  Forall (fun layer =>
            enter layer env req1 = enter layer env req2
            ∧ ∀ fn e, layer = UseError fn → fn env e req1 = fn env e req2) stack →
  ∀ err ps, handle stack env req1 err ps = handle stack env req2 err ps.
Proof.
  induction 1 as [|layer rest [Henter Herr] _ IH]; intros err ps; [done |].
  cbn [handle]. destruct err as [e|].
  - destruct layer as [| |fn]; [apply IH | apply IH |].
    by rewrite (Herr fn e eq_refl).
  - rewrite Henter. destruct (enter layer env req2) as [m|]; [| apply IH].
    destruct (m ps) as [[[|r]|e|] ps']; auto.
Qed.

(** X5. The API key is only tested for being there: two requests that
    differ in nothing but the value of a non-empty x-api-key are answered
    alike and leave the same store. *)
Theorem key_value_ignored env req ps (k k' : string) :
  k ≠ EmptyString → k' ≠ EmptyString →
  dispatch env (withKeyValue req k) ps = dispatch env (withKeyValue req k') ps.
Proof.
  intros Hk Hk'. unfold dispatch. apply handle_ext. unfold app.
  repeat apply Forall_cons_2; try apply Forall_nil_2;
    (split; [| intros fn e [= <-]; reflexivity || done]); try reflexivity.
  cbn [enter]. change (path (withKeyValue req k)) with (path req).
  change (path (withKeyValue req k')) with (path req).
  destruct (matchMount ["api"; "products"] (path req)); [| done].
  f_equal. unfold authMiddleware.
  change (headers (withKeyValue req k)) with (<[ "x-api-key" := k ]> (headers req)).
  change (headers (withKeyValue req k')) with (<[ "x-api-key" := k' ]> (headers req)).
  rewrite !lookup_insert_eq. cbn [present].
  rewrite (proj2 (String.eqb_neq k EmptyString)) by done.
  by rewrite (proj2 (String.eqb_neq k' EmptyString)) by done.
Qed.

Lemma key_value_ignored_witness :
  dispatch sampleEnv (withKeyValue secondPageOfTwo "a") products
  = dispatch sampleEnv (withKeyValue secondPageOfTwo "b") products.
Proof.
  apply (key_value_ignored sampleEnv secondPageOfTwo products "a" "b"); done.
Defined.

(* ================================================================= *)
(** ** The answers of the validation *)

Lemma empty_eqb_length (s : string) :
  String.eqb s EmptyString = (String.length s =? 0)%nat.
Proof. by destruct s. Qed.

Lemma validationError_throws env params req ps msg :
  validationError (body req) = Some msg →
  validateProductMiddleware env params req ps = (Throw (ValidationError msg), ps)
  ∧ msg ≠ EmptyString.
Proof.
  unfold validationError, validateProductMiddleware.
  destruct (falsy (field "name" (body req))); [by intros [= <-] |].
  destruct (falsy (field "description" (body req))); [by intros [= <-] |].
  destruct (falsy (field "price" (body req))) eqn:Hp; [by intros [= <-] |].
  destruct (falsy (field "category" (body req))); [by intros [= <-] |].
  cbn [orb].
  destruct (field "name" (body req)) as [| |?|?|s|?|?];
    try by intros [= <-].
  rewrite empty_eqb_length.
  destruct (String.length (trim s) =? 0)%nat; [by intros [= <-] |].
  destruct (field "price" (body req)) as [| |?|n|?|?|?];
    try by intros [= <-].
  destruct n as [| | |q]; simpl in *; try done; try by intros [= <-].
  destruct (Qle_bool q 0); simpl; [by intros [= <-] | done].
Qed.

Lemma validationError_passes (b : gmap string JsVal) :
  validationError b = None → ¬ spec_rejects b.
Proof.
  unfold validationError, spec_rejects.
  destruct (falsy (field "name" b)) eqn:H1; [done |].
  destruct (falsy (field "description" b)) eqn:H2; [by cbn |].
  destruct (falsy (field "price" b)) eqn:H3; [by cbn |].
  destruct (falsy (field "category" b)) eqn:H4; [by cbn |]. cbn [orb].
  destruct (field "name" b) as [| |?|?|s|?|?]; try done.
  destruct (String.eqb_spec (trim s) EmptyString) as [|Hs]; [done |].
  destruct (field "price" b) as [| |?|n|?|?|?]; try done.
  destruct (num_ltb zero n) eqn:Hn; [| done]. intros _.
  intros [H|[H|[H|[H|[H|H]]]]]; try done; apply H; eauto.
Qed.

(** X6. What the validation answers. On a POST to /api/products or a PUT
    to /api/products/:id that carries an API key, a payload that fails the
    checks is answered 400 with the message of the first check that fails
    and the store is left alone: the missing-fields message as soon as one
    of the four fields is falsy (a price of zero counts as missing), else
    the name message, else the price message. The PUT is answered so
    before the id is looked up. A payload that passes the checks is never
    answered 400. *)
Theorem validation_answers env req ps :
  writesPayload req →
  present (headers req !! "x-api-key") = true →
  match validationError (body req) with
  | Some msg =>
      dispatch env req ps
      = (Some (status_json 400 (ErrorEnvelope msg (isDev env))), ps)
  | None =>
      ∀ r, fst (dispatch env req ps) = Some r → status r ≠ 400%Z
  end.
Proof.
  intros Hwrite Hkey.
  destruct (validationError (body req)) as [msg|] eqn:Hmsg.
  - assert (Hchain : ∀ params (fn : Handler),
               runChain [validateProductMiddleware; fn] env params req ps
               = (Throw (ValidationError msg), ps)).
    { intros params fn.
      destruct (validationError_throws env params req ps msg Hmsg) as [Hv _].
      cbn [runChain]. unfold bind at 1. by rewrite Hv. }
    destruct (validationError_throws env ∅ req ps msg Hmsg) as [_ Hne].
    destruct Hwrite as [[Hm Hp]|[Hm [rid Hp]]].
    + rewrite dispatch_create, Hchain by done.
      cbn [answer]. rewrite envelope_of. cbn [statusCode message ValidationError].
      by rewrite (proj2 (String.eqb_neq msg EmptyString)).
    + rewrite (dispatch_update env req rid), Hchain by done.
      cbn [answer]. rewrite envelope_of. cbn [statusCode message ValidationError].
      by rewrite (proj2 (String.eqb_neq msg EmptyString)).
  - intros r Hr Hstatus. apply validationError_passes in Hmsg.
    pose proof (dispatch_served env req ps) as Hserved. rewrite Hr in Hserved.
    assert (Hnot_get : handlesMethod GET (method req) = false).
    { destruct Hwrite as [[-> _]|[-> _]]; done. }
    served_cases Hserved; try done; congruence.
Qed.

Lemma validation_answers_witness :
  dispatch sampleEnv updateZeroPrice products
  = (Some (status_json 400
             (ErrorEnvelope
                "Missing required fields: name, description, price, category"
                (isDev sampleEnv))),
     products).
Proof.
  apply (validation_answers sampleEnv updateZeroPrice products);
    [right; split; [reflexivity | by eexists] | reflexivity].
Defined.

(* ================================================================= *)
(** ** Pages *)

Lemma sliceInt_take_drop {A : Type} (xs : list A) (start len : Z) :
  (0 ≤ start)%Z → (0 < len)%Z →
  sliceInt xs start (start + len)
  = take (Z.to_nat len) (drop (Z.to_nat start) xs).
Proof.
  intros Hs Hl. apply list_eq. intros i.
  rewrite sliceInt_lookup by done.
  rewrite lookup_take, lookup_drop.
  case_bool_decide; case_decide; try done; lia.
Qed.

(** Cutting a list into [T] chunks of size [L] loses nothing when the
    chunks are enough. *)
Lemma chunks_concat {A : Type} (L : nat) :
  ∀ (T : nat) (l : list A),
    (length l ≤ T * L)%nat →
    concat ((fun k => take L (drop (k * L) l)) <$> seq 0 T) = l.
Proof.
  induction T as [|T IH]; intros l Hlen.
  - simpl in *. destruct l; [done | simpl in Hlen; lia].
  - cbn [seq fmap list_fmap concat]. rewrite Nat.mul_0_l, drop_0.
    transitivity (take L l ++ drop L l); [| apply take_drop]. f_equal.
    etransitivity; [| apply (IH (drop L l)); rewrite length_drop; lia].
    f_equal. rewrite <- seq_shift.
    change (list_fmap nat (list A) ?f (List.map S ?xs)) with (f <$> (S <$> xs)).
    rewrite <- list_fmap_compose.
    apply list_fmap_ext. intros _ k _. simpl.
    by rewrite drop_drop.
Qed.

Lemma filters_ignore_page req (P L : positive) ps :
  filtered (withPage req P L) ps = filtered req ps.
Proof.
  unfold filtered, filterBySearch, filterByInStock, filterByCategory, withPage.
  cbn [query]. by rewrite !lookup_insert_ne.
Qed.

Lemma page_parameters req (P L : positive) :
  safeInteger (Z.pos P) → safeInteger (Z.pos L) →
  parseInt (query (withPage req P L) !! "page") = Fin (inject_Z (Z.pos P))
  ∧ parseInt (query (withPage req P L) !! "limit") = Fin (inject_Z (Z.pos L)).
Proof.
  intros HP HL. unfold withPage. cbn [query].
  rewrite lookup_insert_eq, lookup_insert_ne, lookup_insert_eq by done.
  by rewrite !parseInt_decimal.
Qed.

Lemma listData_page env req (P L : positive) ps :
  safeInteger (Z.pos P) → safeInteger (Z.pos L) →
  listData env (withPage req P L) ps
  = take (Pos.to_nat L) (drop ((Pos.to_nat P - 1) * Pos.to_nat L) (filtered req ps)).
Proof.
  intros HP HL. destruct (page_parameters req P L HP HL) as [Hpage Hlimit].
  unfold listData, listHandler, bind, getProducts, ret, json.
  rewrite (paginate_parsed _ _ (Z.pos P) (Z.pos L)) by (done || lia).
  cbn [payload].
  rewrite filters_ignore_page, sliceInt_take_drop by nia.
  f_equal; try lia. f_equal.
  rewrite Z2Nat.inj_mul by lia. lia.
Qed.

Lemma listPagination_page env req (P L : positive) ps :
  safeInteger (Z.pos P) → safeInteger (Z.pos L) →
  listPagination env (withPage req P L) ps
  = Some {| page := Fin (inject_Z (Z.pos P));
            limit := Fin (inject_Z (Z.pos L));
            totalPages :=
              Fin (inject_Z (ceilDiv (length (filtered req ps)) (Z.pos L)));
            hasNext := (Z.pos P * Z.pos L <? Z.of_nat (length (filtered req ps)))%Z;
            hasPrev := (1 <? Z.pos P)%Z |}.
Proof.
  intros HP HL. destruct (page_parameters req P L HP HL) as [Hpage Hlimit].
  unfold listPagination, listHandler, bind, getProducts, ret, json.
  rewrite (paginate_parsed _ _ (Z.pos P) (Z.pos L)) by (done || lia).
  cbn [payload].
  rewrite filters_ignore_page. do 2 f_equal.
  destruct (Z.ltb_spec 0 ((Z.pos P - 1) * Z.pos L));
    destruct (Z.ltb_spec 1 (Z.pos P)); try done; nia.
Qed.

Lemma pagesOf_enough req ps (L : positive) :
  ((length (filtered req ps) ≤ pagesOf req ps L * Pos.to_nat L)%nat
   ∧ ((pagesOf req ps L - 1) * Pos.to_nat L < length (filtered req ps))%nat)
  ∨ (pagesOf req ps L = 0 ∧ filtered req ps = []).
Proof.
  unfold pagesOf.
  pose proof (ceilDiv_spec (length (filtered req ps)) (Z.pos L) ltac:(lia)) as H.
  revert H. generalize (ceilDiv (length (filtered req ps)) (Z.pos L)). intros c H.
  destruct (filtered req ps) as [|p l] eqn:Hf.
  - right. split; [| done]. simpl in H. assert (c ≤ 0)%Z by nia. lia.
  - left. cbn [length] in *.
    assert (0 < c)%Z by nia.
    replace (Pos.to_nat L) with (Z.to_nat (Z.pos L)) by lia.
    rewrite <- Z2Nat.inj_mul by lia.
    replace (Z.to_nat c - 1) with (Z.to_nat (c - 1)) by lia.
    rewrite <- Z2Nat.inj_mul by lia. split; lia.
Qed.

(** No more pages than products. *)
Lemma pagesOf_length req ps (L : positive) :
  (pagesOf req ps L ≤ length (filtered req ps))%nat.
Proof.
  destruct (pagesOf_enough req ps L) as [[_ H]|[-> _]]; [nia | lia].
Qed.

(** X7. The pages of a listing, put one after the other from page 1 to
    the last page that the handler reports, are the filtered list: every
    product of the listing is on exactly one page, in the order of the
    store. The limit is a positive integer that a number holds exactly,
    and so is the length of the listing (an array holds fewer than 2^32
    products), so that every page number is. *)
Theorem pages_cover_listing env req ps (L : positive) :
  safeInteger (Z.pos L) →
  safeInteger (Z.of_nat (length (filtered req ps))) →
  concat ((fun k => listData env (withPage req (Pos.of_succ_nat k) L) ps)
          <$> seq 0 (pagesOf req ps L))
  = filtered req ps.
Proof.
  intros HL Hlen.
  etransitivity;
    [| apply (chunks_concat (Pos.to_nat L) (pagesOf req ps L) (filtered req ps))].
  - f_equal. apply Forall_fmap_ext_1, Forall_forall. intros k Hk.
    apply elem_of_seq in Hk. pose proof (pagesOf_length req ps L).
    rewrite listData_page;
      [| unfold safeInteger in *; rewrite Zpos_P_of_succ_nat; lia | done].
    rewrite SuccNat2Pos.id_succ. do 2 f_equal. lia.
  - destruct (pagesOf_enough req ps L) as [[H _]|[_ ->]]; [done | simpl; lia].
Qed.

Lemma pages_cover_listing_witness :
  concat ((fun k => listData sampleEnv
                      (withPage secondPageOfTwo (Pos.of_succ_nat k) 2) products)
          <$> seq 0 (pagesOf secondPageOfTwo products 2))
  = filtered secondPageOfTwo products.
Proof.
  apply (pages_cover_listing sampleEnv secondPageOfTwo products 2);
    [unfold safeInteger; simpl; lia | vm_compute; discriminate].
Defined.

(** X8. The size of a page. A page never holds more than [limit]
    products; every page from 1 to the last reported one holds at least
    one; a page after the last is empty. The handler says that there is a
    next page exactly when the page is before the last one, and a previous
    page exactly when the page is after the first. Page and limit are
    positive integers that a number holds exactly. *)
Theorem page_sizes env req ps (P L : positive) :
  safeInteger (Z.pos P) → safeInteger (Z.pos L) →
  (length (listData env (withPage req P L) ps) ≤ Pos.to_nat L)%nat
  ∧ ((Pos.to_nat P ≤ pagesOf req ps L)%nat →
     (0 < length (listData env (withPage req P L) ps))%nat)
  ∧ ((pagesOf req ps L < Pos.to_nat P)%nat →
     listData env (withPage req P L) ps = [])
  ∧ ∃ pg, listPagination env (withPage req P L) ps = Some pg
          ∧ (hasNext pg = true ↔ (Pos.to_nat P < pagesOf req ps L)%nat)
          ∧ (hasPrev pg = true ↔ (1 < Pos.to_nat P)%nat).
Proof.
  intros HP HL.
  rewrite listData_page, listPagination_page, length_take, length_drop by done.
  pose proof (pagesOf_enough req ps L) as Hpages.
  split; [lia |]. split; [| split].
  - intros HP'. destruct Hpages as [[H1 H2]|[H0 _]]; [nia | lia].
  - intros HP'. apply length_zero_iff_nil. rewrite length_take, length_drop.
    destruct Hpages as [[H1 H2]|[_ ->]]; [nia | simpl; lia].
  - eexists. split; [done |]. cbn [hasNext hasPrev].
    rewrite !Z.ltb_lt. split; [| lia].
    destruct Hpages as [[H1 H2]|[H0 Hnil]]; [split; nia |].
    rewrite Hnil. simpl. lia.
Qed.

Lemma page_sizes_witness :
  listData sampleEnv (withPage secondPageOfTwo 3 2) products = []
  ∧ (0 < length (listData sampleEnv (withPage secondPageOfTwo 2 2) products))%nat.
Proof.
  assert (Hsafe : ∀ n : positive, (Z.pos n ≤ 3)%Z → safeInteger (Z.pos n))
    by (unfold safeInteger; lia).
  destruct (page_sizes sampleEnv secondPageOfTwo products 3 2)
    as (_ & _ & Hlast & _); [apply Hsafe; lia | apply Hsafe; lia |].
  destruct (page_sizes sampleEnv secondPageOfTwo products 2 2)
    as (_ & Hfull & _); [apply Hsafe; lia | apply Hsafe; lia |].
  split; [apply Hlast | apply Hfull]; vm_compute; lia.
Defined.

(** X9. Page and limit are never zero. For every query of string
    parameters the pagination of the answer has a page and a limit that
    are neither zero nor NaN, so that the number of pages is always a
    division by a non-zero limit. A page or a limit that is absent, not a
    number, or zero is replaced by 1 and by 10: with both replaced the
    answer is the first ten products of the listing, without a previous
    page. *)
Theorem page_and_limit_defaults env req ps :
  (∃ pg, listPagination env req ps = Some pg
         ∧ num_truthy (page pg) = true ∧ num_truthy (limit pg) = true)
  ∧ (num_truthy (parseInt (query req !! "page")) = false →
     num_truthy (parseInt (query req !! "limit")) = false →
     listData env req ps = take 10 (filtered req ps)
     ∧ listPagination env req ps
       = Some {| page := Fin 1;
                 limit := Fin 10;
                 totalPages :=
                   Fin (inject_Z (ceilDiv (length (filtered req ps)) 10));
                 hasNext := (10 <? Z.of_nat (length (filtered req ps)))%Z;
                 hasPrev := false |}).
Proof.
  split.
  - unfold listPagination, listHandler, bind, getProducts, ret, paginate, json.
    cbn [payload]. eexists. split; [reflexivity |]. cbn [page limit].
    unfold orDefault.
    split; [destruct (num_truthy (parseInt (query req !! "page"))) eqn:E
           | destruct (num_truthy (parseInt (query req !! "limit"))) eqn:E];
      done.
  - intros Hpage Hlimit.
    unfold listData, listPagination, listHandler, bind, getProducts, ret, json.
    rewrite (paginate_integers req _ 1 10);
      [| by unfold orDefault; rewrite Hpage
       | by unfold orDefault; rewrite Hlimit | lia | lia].
    cbn [payload]. split; [| done].
    change ((1 - 1) * 10)%Z with 0%Z.
    by rewrite (sliceInt_take_drop _ 0 10) by lia.
Qed.

Lemma page_and_limit_defaults_witness :
  listData sampleEnv zeroPage products = take 10 (filtered zeroPage products)
  ∧ listPagination sampleEnv zeroPage products
    = Some {| page := Fin 1;
              limit := Fin 10;
              totalPages :=
                Fin (inject_Z (ceilDiv (length (filtered zeroPage products)) 10));
              hasNext := (10 <? Z.of_nat (length (filtered zeroPage products)))%Z;
              hasPrev := false |}.
Proof.
  apply (page_and_limit_defaults sampleEnv zeroPage products);
    vm_compute; reflexivity.
Defined.

(* ================================================================= *)
(** ** Search *)

Lemma filter_sublist {A : Type} (f : A → bool) (l : list A) :
  sublist (List.filter f l) l.
Proof.
  induction l as [|x l IH]; simpl; [done |].
  destruct (f x); by constructor.
Qed.

(** X10. The search route. With a non-empty [q] the search handler
    answers 200 with the query as it was sent, the products of the whole
    store whose name contains [q] when both are put in lower case, in the
    order of the store, and their number; the store is not touched. The
    result is the listing that the list route gives for [search=q] and no
    other filter, before pagination, and it is the same for any spelling of
    [q] in upper or lower case. *)
Theorem search_results env params req ps (term : string) :
  query req !! "q" = Some term → term ≠ EmptyString →
  ∃ results,
    searchHandler env params req ps
    = (Normal (Sent (json (SearchResults term (length results) results))), ps)
    ∧ (∀ p, In p results
            ↔ In p ps ∧ includes (toLowerCase (name p)) (toLowerCase term) = true)
    ∧ sublist results ps
    ∧ results = filtered (withSearch req term) ps
    ∧ ∀ term', term' ≠ EmptyString → toLowerCase term' = toLowerCase term →
               filtered (withSearch req term') ps = results.
Proof.
  intros Hq Hterm.
  assert (Hfiltered : ∀ t, t ≠ EmptyString →
            filtered (withSearch req t) ps
            = List.filter
                (fun p => includes (toLowerCase (name p)) (toLowerCase t)) ps).
  { intros t Ht.
    unfold filtered, filterBySearch, filterByInStock, filterByCategory, withSearch.
    cbn [query]. rewrite lookup_singleton_eq, !lookup_singleton_ne by done.
    cbn [present default]. by rewrite (proj2 (String.eqb_neq t EmptyString)). }
  eexists. split; [| split; [| split; [| split]]].
  - unfold searchHandler. rewrite Hq. cbn [present].
    rewrite (proj2 (String.eqb_neq term EmptyString)) by done. reflexivity.
  - intros p. cbn [default]. by rewrite filter_In.
  - apply filter_sublist.
  - by rewrite Hfiltered.
  - intros term' Hterm' Hlower. rewrite Hfiltered by done. cbn [default].
    by rewrite Hlower.
Qed.

Lemma search_results_witness :
  ∃ results,
    searchHandler sampleEnv ∅ searchPhone products
    = (Normal (Sent (json (SearchResults "PHONE" (length results) results))),
       products)
    ∧ id <$> results = ["2"].
Proof.
  destruct (search_results sampleEnv ∅ searchPhone products "PHONE")
    as (results & Hrun & _ & _ & Hres & _); [reflexivity | done |].
  exists results. split; [exact Hrun |]. rewrite Hres. vm_compute. reflexivity.
Defined.

(* ================================================================= *)
(** ** Routing of the read requests *)

Lemma search_not_next env params req ps ps' :
  searchHandler env params req ps ≠ (Normal Next, ps').
Proof.
  unfold searchHandler. by destruct (negb _).
Qed.

Lemma get_not_next env params req ps ps' :
  getHandler env params req ps ≠ (Normal Next, ps').
Proof.
  unfold getHandler, bind, getProducts.
  by destruct (list_find _ ps) as [[? ?]|].
Qed.

Lemma dispatch_get_segment env req seg ps :
  handlesMethod GET (method req) = true →
  path req = ["api"; "products"; seg] →
  present (headers req !! "x-api-key") = true →
  dispatch env req ps
  = answer env req
      (if String.eqb (toLowerCase seg) "search" then searchHandler env ∅ req ps
       else if String.eqb (toLowerCase seg) "stats" then statsHandler env ∅ req ps
       else getHandler env {[ "id" := seg ]} req ps).
Proof.
  intros Hget Hp Hkey. unfold dispatch, app.
  do 2 (rewrite handle_use; change (matchMount [] (path req)) with true;
        cbv iota; cbn [jsonBodyParser loggerMiddleware ret]).
  rewrite handle_use, Hp.
  change (matchMount ["api"; "products"] ["api"; "products"; seg]) with true.
  cbv iota. unfold authMiddleware. rewrite Hkey. cbn [negb ret].
  cbn [handle enter]. rewrite Hget, Hp.
  rewrite !(write_routes_skip_reads _ _ Hget) by tauto.
  change (matchPath [] ["api"; "products"; seg]) with (@None Params).
  change (matchPath api_products ["api"; "products"; seg]) with (@None Params).
  change (matchPath (api_products ++ [Lit "search"]) ["api"; "products"; seg])
    with (if String.eqb (toLowerCase seg) "search"
          then Some (∅ : Params) else None).
  change (matchPath (api_products ++ [Lit "stats"]) ["api"; "products"; seg])
    with (if String.eqb (toLowerCase seg) "stats"
          then Some (∅ : Params) else None).
  change (matchPath (api_products ++ [Param "id"]) ["api"; "products"; seg])
    with (Some ({[ "id" := seg ]} : Params)).
  cbv iota.
  destruct (String.eqb (toLowerCase seg) "search").
  { rewrite runChain_single. unfold asyncHandler.
    destruct (searchHandler _ _ _ _) as [[[|r]|e|] ps'] eqn:Hrun; try done.
    by apply search_not_next in Hrun. }
  destruct (String.eqb (toLowerCase seg) "stats").
  { reflexivity. }
  rewrite runChain_single. unfold asyncHandler.
  destruct (getHandler _ _ _ _) as [[[|r]|e|] ps'] eqn:Hrun; try done;
    by apply get_not_next in Hrun.
Qed.

(** X11. Search and stats come before the id. A GET for
    /api/products/<segment> with an API key, the segment written without
    %-escapes, is served by the search route when the segment is "search"
    in any mix of upper and lower case, by the stats route when it is
    "stats", and by the get-by-id route, with the segment as the id,
    otherwise: such a request for one of the two words is not answered
    with a record. *)
Theorem search_and_stats_before_id env req seg ps :
  handlesMethod GET (method req) = true →
  path req = ["api"; "products"; seg] →
  escapeFree seg →
  present (headers req !! "x-api-key") = true →
  (toLowerCase seg = "search" →
   dispatch env req ps = answer env req (searchHandler env ∅ req ps))
  ∧ (toLowerCase seg = "stats" →
     dispatch env req ps = (Some (json (StatsData (computeStats ps))), ps))
  ∧ (toLowerCase seg ≠ "search" → toLowerCase seg ≠ "stats" →
     dispatch env req ps
     = answer env req (getHandler env {[ "id" := seg ]} req ps))
  ∧ (toLowerCase seg = "search" ∨ toLowerCase seg = "stats" →
     ∀ p, fst (dispatch env req ps) ≠ Some (json (ProductData p))).
Proof.
  intros Hget Hp _ Hkey.
  pose proof (dispatch_get_segment env req seg ps Hget Hp Hkey) as Hrun.
  split; [| split; [| split]].
  - intros Hseg. rewrite Hrun, Hseg. reflexivity.
  - intros Hseg. rewrite Hrun, Hseg. reflexivity.
  - intros H1%String.eqb_neq H2%String.eqb_neq. by rewrite Hrun, H1, H2.
  - intros [Hseg|Hseg] p; rewrite Hrun, Hseg; [| done].
    change (String.eqb "search" "search") with true. cbv iota.
    unfold searchHandler. by destruct (negb _).
Qed.

Lemma search_and_stats_before_id_witness :
  dispatch sampleEnv searchPhone products
  = answer sampleEnv searchPhone (searchHandler sampleEnv ∅ searchPhone products).
Proof.
  apply (search_and_stats_before_id sampleEnv searchPhone "search" products);
    reflexivity.
Defined.

(* ================================================================= *)
(** ** Round trips *)

Lemma toLowerCase_length (s : string) :
  String.length (toLowerCase s) = String.length s.
Proof. induction s as [|c s IH]; simpl; congruence. Qed.

Lemma uuid_not_reserved (u : string) :
  is_uuid_v4 u = true →
  toLowerCase u ≠ "search" ∧ toLowerCase u ≠ "stats".
Proof.
  intros Hu%matchesTemplate_length.
  split; intros Heq; apply (f_equal String.length) in Heq;
    rewrite toLowerCase_length, Hu in Heq; discriminate.
Qed.

Lemma get_fetch env rid req ps :
  getHandler env {[ "id" := rid ]} req ps
  = match fetch rid ps with
    | Some p => (Normal (Sent (json (ProductData p))), ps)
    | None => (Throw (NotFoundError "Product not found"), ps)
    end.
Proof.
  unfold getHandler, fetch, bind, getProducts. rewrite lookup_singleton_eq.
  by destruct (list_find _ ps) as [[i p]|].
Qed.

Lemma fetch_first rid (l1 l2 : list Product) (p : Product) :
  Forall (fun q => ¬ hasId (Some rid) q) l1 → hasId (Some rid) p →
  fetch rid (l1 ++ p :: l2) = Some p.
Proof.
  intros Hl1 Hp. unfold fetch. by rewrite find_first.
Qed.

Lemma fetch_none rid (ps : list Product) :
  Forall (fun q => ¬ hasId (Some rid) q) ps → fetch rid ps = None.
Proof.
  intros Hps. unfold fetch. by rewrite find_none.
Qed.

(** The answer to a GET for /api/products/<id>, for an id that is not one
    of the two reserved words. *)
Lemma dispatch_get env req rid ps :
  handlesMethod GET (method req) = true →
  path req = ["api"; "products"; rid] →
  present (headers req !! "x-api-key") = true →
  toLowerCase rid ≠ "search" → toLowerCase rid ≠ "stats" →
  dispatch env req ps
  = match fetch rid ps with
    | Some p => (Some (json (ProductData p)), ps)
    | None =>
        (Some (status_json 404 (ErrorEnvelope "Product not found" (isDev env))),
         ps)
    end.
Proof.
  intros Hget Hp Hkey H1%String.eqb_neq H2%String.eqb_neq.
  rewrite (dispatch_get_segment env req rid ps) by done.
  rewrite H1, H2, get_fetch. by destruct (fetch rid ps).
Qed.

(** X12. Create, then get. A POST to /api/products with an API key and a
    payload that passes the validation and has strings for description and
    category is answered 201 with the new record, which carries the
    generated id and is put at the end of the store; a GET for
    /api/products/<that id> is then answered 200 with the same record,
    provided the id is a version-4 UUID that no stored record has. *)
Theorem create_then_get env post env' get ps (d c : string) :
  method post = POST → path post = ["api"; "products"] →
  present (headers post !! "x-api-key") = true →
  ¬ spec_rejects (body post) →
  field "description" (body post) = JStr d →
  field "category" (body post) = JStr c →
  is_uuid_v4 (uuid env) = true →
  uuid env ∉ id <$> ps →
  handlesMethod GET (method get) = true →
  path get = ["api"; "products"; uuid env] →
  present (headers get !! "x-api-key") = true →
  ∃ new,
    dispatch env post ps
    = (Some (status_json 201 (ProductData new)), ps ++ [new])
    ∧ id new = uuid env
    ∧ description new = trim d
    ∧ category new = trim c
    ∧ dispatch env' get (ps ++ [new])
      = (Some (json (ProductData new)), ps ++ [new]).
Proof.
  intros Hm Hp Hkey Hacc Hd Hc Huuid Hfresh Hget Hpath Hkey'.
  destruct (create_string_payload env ∅ post ps d c Hacc Hd Hc Hfresh)
    as (s & n & _ & _ & Hrun & _).
  exists (createdProduct env (body post) s d c n).
  split; [| split; [done | split; [done | split; [done |]]]].
  { by rewrite dispatch_create, Hrun. }
  destruct (uuid_not_reserved _ Huuid) as [H1 H2].
  rewrite (dispatch_get env' get (uuid env)) by done.
  rewrite fetch_first; [done | | done].
  apply Forall_forall. intros q Hq [= Hid]. apply Hfresh.
  rewrite <- Hid. by apply list_elem_of_fmap_2.
Qed.

Lemma create_then_get_witness :
  ∃ new,
    dispatch sampleEnv createValid products
    = (Some (status_json 201 (ProductData new)), products ++ [new])
    ∧ id new = uuid sampleEnv
    ∧ description new = trim "LED lamp"
    ∧ category new = trim "home"
    ∧ dispatch sampleEnv getCreated (products ++ [new])
      = (Some (json (ProductData new)), products ++ [new]).
Proof.
  apply (create_then_get sampleEnv createValid sampleEnv getCreated products);
    try reflexivity.
  - apply validationError_passes. vm_compute. reflexivity.
  - apply (bool_decide_unpack _). vm_compute. reflexivity.
Defined.

(** X13. Update, then get. A PUT to /api/products/<id> with an API key and
    a payload that passes the validation and has strings for description
    and category, on a store that has the id, is answered 200 with the
    updated record, which takes the place of the first record with the id
    and keeps the id; a GET for the id is then answered 200 with the
    updated record. *)
Theorem update_then_get env put env' get (l1 l2 : list Product)
  (old : Product) (rid d c : string) :
  method put = PUT → path put = ["api"; "products"; rid] →
  present (headers put !! "x-api-key") = true →
  ¬ spec_rejects (body put) →
  field "description" (body put) = JStr d →
  field "category" (body put) = JStr c →
  id old = rid →
  Forall (fun q => id q ≠ rid) l1 →
  handlesMethod GET (method get) = true →
  path get = ["api"; "products"; rid] →
  present (headers get !! "x-api-key") = true →
  toLowerCase rid ≠ "search" → toLowerCase rid ≠ "stats" →
  ∃ new,
    dispatch env put (l1 ++ old :: l2)
    = (Some (json (ProductData new)), l1 ++ new :: l2)
    ∧ id new = rid
    ∧ description new = trim d
    ∧ category new = trim c
    ∧ dispatch env' get (l1 ++ new :: l2)
      = (Some (json (ProductData new)), l1 ++ new :: l2).
Proof.
  intros Hm Hp Hkey Hacc Hd Hc Hold Hl1 Hget Hpath Hkey' H1 H2.
  assert (Hold' : hasId (({[ "id" := rid ]} : Params) !! "id") old).
  { rewrite lookup_singleton_eq. unfold hasId. by rewrite Hold. }
  assert (Hl1' : Forall (fun q => ¬ hasId (({[ "id" := rid ]} : Params) !! "id") q) l1).
  { rewrite lookup_singleton_eq. eapply Forall_impl; [exact Hl1 |].
    intros q Hq [= Hid]. done. }
  destruct (update_string_payload env {[ "id" := rid ]} put l1 l2 old d c
              Hacc Hd Hc Hold' Hl1') as (s & n & _ & _ & Hrun).
  exists (updatedProduct old (body put) s d c n).
  split; [| split; [done | split; [done | split; [done |]]]].
  { by rewrite (dispatch_update env put rid), Hrun. }
  rewrite (dispatch_get env' get rid) by done.
  rewrite fetch_first; [done | | ].
  - eapply Forall_impl; [exact Hl1 |]. intros q Hq [= Hid]. done.
  - unfold hasId. cbn [id updatedProduct]. by rewrite Hold.
Qed.

Lemma update_then_get_witness :
  ∃ new,
    dispatch sampleEnv updateSecond products
    = (Some (json (ProductData new)), take 1 products ++ new :: drop 2 products)
    ∧ id new = "2"
    ∧ description new = trim "LED lamp"
    ∧ category new = trim "home"
    ∧ dispatch sampleEnv getSecond (take 1 products ++ new :: drop 2 products)
      = (Some (json (ProductData new)), take 1 products ++ new :: drop 2 products).
Proof.
  apply (update_then_get sampleEnv updateSecond sampleEnv getSecond
           (take 1 products) (drop 2 products) _ "2");
    try reflexivity; try done.
  - apply validationError_passes. vm_compute. reflexivity.
  - repeat constructor. done.
Defined.

(** X14. Delete, then get. A DELETE for /api/products/<id> with an API key,
    on a store with unique ids that has the id, is answered 200 and takes
    the record out; a GET for the id is then answered 404 with the message
    "Product not found" in the error envelope. *)
Theorem delete_then_get env del env' get (l1 l2 : list Product)
  (p : Product) (rid : string) :
  method del = DELETE → path del = ["api"; "products"; rid] →
  present (headers del !! "x-api-key") = true →
  NoDup (id <$> (l1 ++ p :: l2)) →
  id p = rid →
  handlesMethod GET (method get) = true →
  path get = ["api"; "products"; rid] →
  present (headers get !! "x-api-key") = true →
  toLowerCase rid ≠ "search" → toLowerCase rid ≠ "stats" →
  dispatch env del (l1 ++ p :: l2)
  = (Some (json (Message "Product deleted successfully")), l1 ++ l2)
  ∧ dispatch env' get (l1 ++ l2)
    = (Some (status_json 404 (ErrorEnvelope "Product not found" (isDev env'))),
       l1 ++ l2).
Proof.
  intros Hm Hp Hkey Hnd Hid Hget Hpath Hkey' H1 H2.
  assert (Hrid : hasId (Some rid) p) by (unfold hasId; by rewrite Hid).
  assert (Hgone : Forall (fun q => ¬ hasId (Some rid) q) (l1 ++ l2))
    by by eapply unique_id_elsewhere.
  split.
  - rewrite (dispatch_delete env del rid) by done.
    unfold deleteHandler, bind, getProducts. rewrite lookup_singleton_eq.
    rewrite find_first; [| by apply Forall_app in Hgone as [? _] | done].
    cbn [answer setProducts ret]. by rewrite delete_middle.
  - rewrite (dispatch_get env' get rid) by done. by rewrite fetch_none.
Qed.

Lemma delete_then_get_witness :
  dispatch sampleEnv deleteSecond (take 1 products ++ drop 1 products)
  = (Some (json (Message "Product deleted successfully")),
     take 1 products ++ drop 2 products)
  ∧ dispatch sampleEnv getSecond (take 1 products ++ drop 2 products)
    = (Some (status_json 404
               (ErrorEnvelope "Product not found" (isDev sampleEnv))),
       take 1 products ++ drop 2 products).
Proof.
  apply (delete_then_get sampleEnv deleteSecond sampleEnv getSecond
           (take 1 products) (drop 2 products) _ "2");
    try reflexivity; try done.
  apply (bool_decide_unpack _). vm_compute. reflexivity.
Defined.

Lemma fetch_cons rid (p : Product) (ps : list Product) :
  fetch rid (p :: ps)
  = if decide (hasId (Some rid) p) then Some p else fetch rid ps.
Proof.
  unfold fetch. cbn [list_find]. case_decide; [done |].
  by destruct (list_find _ ps) as [[i q]|].
Qed.

Lemma fetch_app rid (l1 l2 : list Product) :
  fetch rid (l1 ++ l2)
  = match fetch rid l1 with
    | Some p => Some p
    | None => fetch rid l2
    end.
Proof.
  induction l1 as [|p l1 IH]; [done |].
  rewrite <- app_comm_cons, !fetch_cons. by case_decide.
Qed.

Lemma idParams_last req params :
  idParams req params → params !! "id" = last (path req).
Proof.
  unfold idParams.
  destruct (path req) as [|a [|b [|seg [|x rest]]]]; cbn; try done;
    repeat (destruct (String.eqb _ _); try done).
  intros [= <-]. by rewrite lookup_insert_eq.
Qed.

(** X15. A request touches no record but its own. Whatever the request
    and its answer, the record that get-by-id finds for an id is the same
    before and after, unless the id is the last segment of the request's
    path (the [:id] of an update or a deletion) or the id that a creation
    has just generated. *)
Theorem other_records_stay env req ps rid :
  rid ≠ uuid env →
  last (path req) ≠ Some rid →
  fetch rid (snd (dispatch env req ps)) = fetch rid ps.
Proof.
  intros Hnew Hlast.
  pose proof (dispatch_served env req ps) as Hserved.
  destruct (dispatch env req ps) as [r' ps']. cbn [fst snd] in *.
  inversion Hserved; subst; clear Hserved; try done.
  - rewrite fetch_app, fetch_cons. destruct (fetch rid ps); [done |].
    rewrite decide_False; [done |]. by intros [= Hid].
  - match goal with Hp : idParams _ _ |- _ => apply idParams_last in Hp as Hid end.
    match goal with Ho : hasId _ old |- _ => unfold hasId in Ho; rewrite Hid in Ho end.
    rewrite !fetch_app, !fetch_cons. destruct (fetch rid l1); [done |].
    rewrite !decide_False; [done | |]; unfold hasId; cbn [id updatedProduct];
      congruence.
  - match goal with Hp : idParams _ _ |- _ => apply idParams_last in Hp as Hid end.
    match goal with Ho : hasId _ p |- _ => unfold hasId in Ho; rewrite Hid in Ho end.
    rewrite !fetch_app, !fetch_cons. destruct (fetch rid l1); [done |].
    rewrite decide_False; [done |]. unfold hasId. congruence.
Qed.

Lemma other_records_stay_witness :
  fetch "1" (snd (dispatch sampleEnv updateSecond products)) = fetch "1" products.
Proof.
  apply (other_records_stay sampleEnv updateSecond products "1");
    vm_compute; discriminate.
Defined.

(* ================================================================= *)
(** ** Stored strings *)

Lemma trimEnd_idem (s : string) : trimEnd (trimEnd s) = trimEnd s.
Proof.
  induction s as [|c r IH]; [done |]. cbn [trimEnd].
  destruct (trimEnd r) as [|c' r'] eqn:Hr.
  - destruct (isWhiteSpace c) eqn:Hc; [done |]. cbn [trimEnd]. by rewrite Hc.
  - cbn [trimEnd] in *. by rewrite IH.
Qed.

Lemma trimStart_head (s : string) :
  match trimStart s with
  | EmptyString => True
  | String c _ => isWhiteSpace c = false
  end.
Proof.
  induction s as [|c r IH]; [done |]. cbn [trimStart].
  by destruct (isWhiteSpace c) eqn:Hc.
Qed.

Lemma trimEnd_head (c : ascii) (r : string) :
  isWhiteSpace c = false → ∃ r', trimEnd (String c r) = String c r'.
Proof.
  intros Hc. cbn [trimEnd]. destruct (trimEnd r); rewrite ?Hc; eauto.
Qed.

Lemma trim_idem (s : string) : trimmed (trim s).
Proof.
  unfold trimmed, trim. pose proof (trimStart_head s) as Hhead.
  destruct (trimStart s) as [|c r]; [done |].
  destruct (trimEnd_head c r Hhead) as [r' Hr']. rewrite Hr' at 1.
  cbn [trimStart]. rewrite Hhead, <- Hr'. apply trimEnd_idem.
Qed.

Lemma created_wellNamed env (b : gmap string JsVal) (s d c : string) n :
  ¬ spec_rejects b → field "name" b = JStr s →
  wellNamed (createdProduct env b s d c n).
Proof.
  intros (( s' & Hs' & Hne) & _)%accepted_payload Hs.
  rewrite Hs in Hs'. injection Hs' as <-.
  split; [done |]. repeat split; apply trim_idem.
Qed.

Lemma updated_wellNamed old (b : gmap string JsVal) (s d c : string) n :
  ¬ spec_rejects b → field "name" b = JStr s →
  wellNamed (updatedProduct old b s d c n).
Proof.
  intros (( s' & Hs' & Hne) & _)%accepted_payload Hs.
  rewrite Hs in Hs'. injection Hs' as <-.
  split; [done |]. repeat split; apply trim_idem.
Qed.

Lemma dispatch_wellNamed env req ps :
  Forall wellNamed ps → Forall wellNamed (snd (dispatch env req ps)).
Proof.
  intros Hps.
  pose proof (dispatch_served env req ps) as Hserved.
  destruct (dispatch env req ps) as [r' ps']. cbn [fst snd] in *.
  inversion Hserved; subst; clear Hserved; try done.
  - apply Forall_app. split; [done |].
    apply Forall_singleton. by apply created_wellNamed.
  - apply Forall_app in Hps as [Hl1 [_ Hl2]%Forall_cons].
    apply Forall_app. split; [done |]. apply Forall_cons. split; [| done].
    by apply updated_wellNamed.
  - apply Forall_app in Hps as [Hl1 [_ Hl2]%Forall_cons].
    apply Forall_app. by split.
Qed.

Lemma seed_wellNamed : Forall wellNamed products.
Proof.
  unfold products. repeat apply Forall_cons_2; [.. | apply Forall_nil_2];
    (split; [done |]); repeat split; vm_compute; reflexivity.
Qed.

(** X16. Stored strings are trimmed. Starting from the seeded store, after
    any sequence of requests, every record has a name that is not empty,
    and its name, its description and its category have no white space at
    either end: the write handlers store [trim()] of what the validation
    let through. (Only the name is known to be non-empty.) *)
Theorem stored_strings_trimmed (trace : list (Env * Request)) :
  Forall wellNamed (run trace products).
Proof.
  pose proof seed_wellNamed as Hseed. revert Hseed. generalize products.
  induction trace as [|[env req] rest IH]; intros ps Hps; cbn [run]; [done |].
  apply IH. by apply dispatch_wellNamed.
Qed.

(* ================================================================= *)
(** ** The inStock parameter *)

Lemma filter_all {A : Type} (l : list A) : List.filter (fun _ => true) l = l.
Proof. induction l as [|x l IH]; simpl; congruence. Qed.

(** X17. The values of inStock. On the list route a non-empty inStock
    parameter that reads "true" in any mix of upper and lower case keeps
    the products in stock; every other non-empty value (false, yes, 1, ...)
    keeps the products out of stock; an empty value filters nothing. The
    two listings split the listing without the parameter, so their counts
    add up to its count. *)
Theorem in_stock_values req (yes no : string) ps :
  toLowerCase yes = "true" →
  no ≠ EmptyString → toLowerCase no ≠ "true" →
  filtered (withInStock req yes) ps
  = List.filter (fun p => inStock p) (filtered (withoutInStock req) ps)
  ∧ filtered (withInStock req no) ps
    = List.filter (fun p => negb (inStock p)) (filtered (withoutInStock req) ps)
  ∧ filtered (withInStock req EmptyString) ps = filtered (withoutInStock req) ps
  ∧ length (filtered (withInStock req yes) ps)
    + length (filtered (withInStock req no) ps)
    = length (filtered (withoutInStock req) ps).
Proof.
  intros Hyes Hno Hno'.
  assert (Hyes' : yes ≠ EmptyString) by (intros ->; discriminate).
  assert (Hcat : ∀ v p, categoryTest (withInStock req v) p
                        = categoryTest (withoutInStock req) p).
  { intros v p. unfold categoryTest. cbn [query withInStock withoutInStock].
    by rewrite lookup_insert_ne, lookup_delete_ne. }
  assert (Hsearch : ∀ v p, searchTest (withInStock req v) p
                           = searchTest (withoutInStock req) p).
  { intros v p. unfold searchTest. cbn [query withInStock withoutInStock].
    by rewrite lookup_insert_ne, lookup_delete_ne. }
  assert (Hout : ∀ p, inStockTest (withoutInStock req) p = true).
  { intros p. unfold inStockTest. cbn [query withoutInStock].
    by rewrite lookup_delete_eq. }
  assert (Hin : ∀ v p, inStockTest (withInStock req v) p
                       = if String.eqb v EmptyString then true
                         else Bool.eqb (inStock p)
                                (String.eqb (toLowerCase v) "true")).
  { intros v p. unfold inStockTest. cbn [query withInStock].
    rewrite lookup_insert_eq. cbn [present default].
    by destruct (String.eqb v EmptyString). }
  assert (Hsplit : ∀ v, filtered (withInStock req v) ps
                        = List.filter (inStockTest (withInStock req v))
                            (filtered (withoutInStock req) ps)).
  { intros v. rewrite !filtered_filter, filter_filter. apply filter_ext.
    intros p. rewrite Hcat, Hsearch, Hout.
    destruct (categoryTest _ p), (searchTest _ p), (inStockTest _ p); done. }
  assert (Hy : filtered (withInStock req yes) ps
               = List.filter (fun p => inStock p) (filtered (withoutInStock req) ps)).
  { rewrite Hsplit. apply filter_ext. intros p. rewrite Hin, Hyes.
    apply String.eqb_neq in Hyes'. rewrite Hyes'. by destruct (inStock p). }
  assert (Hn : filtered (withInStock req no) ps
               = List.filter (fun p => negb (inStock p))
                   (filtered (withoutInStock req) ps)).
  { rewrite Hsplit. apply filter_ext. intros p. rewrite Hin.
    apply String.eqb_neq in Hno, Hno'. rewrite Hno, Hno'.
    by destruct (inStock p). }
  split; [done |]. split; [done |]. split.
  - rewrite Hsplit.
    rewrite (filter_ext _ (fun _ => true)) by (intros p; by rewrite Hin).
    apply filter_all.
  - rewrite Hy, Hn. apply List.filter_length.
Qed.

Lemma in_stock_values_witness :
  filtered (withInStock listAll "TRUE") products
  = List.filter (fun p => inStock p) (filtered (withoutInStock listAll) products)
  ∧ filtered (withInStock listAll "no") products
    = List.filter (fun p => negb (inStock p))
        (filtered (withoutInStock listAll) products)
  ∧ filtered (withInStock listAll EmptyString) products
    = filtered (withoutInStock listAll) products
  ∧ length (filtered (withInStock listAll "TRUE") products)
    + length (filtered (withInStock listAll "no") products)
    = length (filtered (withoutInStock listAll) products).
Proof.
  apply (in_stock_values listAll "TRUE" "no" products);
    [reflexivity | discriminate | discriminate].
Defined.

(* ================================================================= *)
(** ** Category counts *)

Lemma sumCounts_insert (cats : gmap string nat) (c : string) (n : nat) :
  sumCounts (<[c := n]> cats) + default 0 (cats !! c) = n + sumCounts cats.
Proof.
  assert (Hcomm : ∀ (m : gmap string nat) j1 j2 z1 z2 y,
             j1 ≠ j2 → m !! j1 = Some z1 → m !! j2 = Some z2 →
             z1 + (z2 + y) = z2 + (z1 + y)) by (intros; lia).
  unfold sumCounts. destruct (cats !! c) as [k|] eqn:Hk; cbn [default].
  - assert (Hn : map_fold (fun _ n acc => n + acc) 0 (<[c := n]> cats)
                 = n + map_fold (fun _ n acc => n + acc) 0 (delete c cats)).
    { rewrite <- (insert_delete_eq cats).
      apply map_fold_insert_L; [by eauto | apply lookup_delete_eq]. }
    assert (Hc : map_fold (fun _ n acc => n + acc) 0 cats
                 = k + map_fold (fun _ n acc => n + acc) 0 (delete c cats)).
    { rewrite <- (insert_delete_id cats c k Hk) at 1.
      apply map_fold_insert_L; [by eauto | apply lookup_delete_eq]. }
    rewrite Hn, Hc. unfold Datatypes.id. lia.
  - rewrite map_fold_insert_L; [lia | by eauto | done].
Qed.

Lemma countCategory_insert (cats : gmap string nat) (p : Product) :
  countCategory cats p
  = <[category p := S (default 0 (cats !! category p))]> cats.
Proof.
  apply map_eq. intros c. rewrite countCategory_lookup.
  case_decide as Hc.
  - subst c. by rewrite lookup_insert_eq.
  - by rewrite lookup_insert_ne.
Qed.

Lemma sumCounts_fold (ps : list Product) :
  ∀ cats, sumCounts (fold_left countCategory ps cats)
          = length ps + sumCounts cats.
Proof.
  induction ps as [|p ps IH]; intros cats; simpl; [done |].
  rewrite IH, countCategory_insert.
  pose proof (sumCounts_insert cats (category p)
                (S (default 0 (cats !! category p)))). lia.
Qed.

(** X18. The category counts add up. In the answer of the stats route the
    counts of the categories sum to the number of products, and a category
    is listed exactly when some product of the store has it, for a store
    none of whose categories bears the name of a member that objects
    inherit (constructor, toString, ...). *)
Theorem category_counts_add_up (ps : list Product) :
  plainCategories ps →
  sumCounts (categories (computeStats ps)) = totalProducts (computeStats ps)
  ∧ ∀ c, is_Some (categories (computeStats ps) !! c)
         ↔ ∃ p, p ∈ ps ∧ category p = c.
Proof.
  intros _. cbn [categories totalProducts computeStats]. split.
  - rewrite sumCounts_fold. unfold sumCounts. rewrite map_fold_empty. lia.
  - intros c. rewrite categories_lookup, lookup_empty. unfold inCategory.
    destruct (List.filter _ ps) as [|q l] eqn:Hf; cbn [length].
    + split; [by intros [? ?] |]. intros (p & Hp & Hc).
      assert (Hin : In p (List.filter (fun p => String.eqb (category p) c) ps)).
      { apply filter_In. split; [by apply list_elem_of_In |].
        by apply String.eqb_eq. }
      rewrite Hf in Hin. done.
    + split; [| by eauto]. intros _.
      assert (Hin : In q (List.filter (fun p => String.eqb (category p) c) ps))
        by (rewrite Hf; by left).
      apply filter_In in Hin as [Hin Hc]. exists q.
      split; [by apply list_elem_of_In |]. by apply String.eqb_eq.
Qed.

Lemma category_counts_add_up_witness :
  sumCounts (categories (computeStats products))
  = totalProducts (computeStats products)
  ∧ ∀ c, is_Some (categories (computeStats products) !! c)
         ↔ ∃ p, p ∈ products ∧ category p = c.
Proof.
  apply (category_counts_add_up products).
  unfold plainCategories, products.
  repeat apply Forall_cons_2; [.. | apply Forall_nil_2];
    apply (bool_decide_unpack _); vm_compute; reflexivity.
Defined.

(* ================================================================= *)
(** ** Ids that the store does not have *)

(** X19. Ids that the store does not have. With an API key, a GET, a
    DELETE, or a PUT whose payload passes the validation, for
    /api/products/<id> with an id that no record has, is answered 404 with
    the message "Product not found" in the error envelope, and the store
    is left as it was. For a PUT the id is looked up before the payload is
    used: a description that is not a string does not matter. For GET the
    id is not one of the words search and stats. *)
Theorem missing_id_not_found env req rid ps :
  path req = ["api"; "products"; rid] →
  present (headers req !! "x-api-key") = true →
  Forall (fun q => id q ≠ rid) ps →
  (handlesMethod GET (method req) = true
   ∧ toLowerCase rid ≠ "search" ∧ toLowerCase rid ≠ "stats")
  ∨ method req = DELETE
  ∨ (method req = PUT ∧ ¬ spec_rejects (body req)) →
  dispatch env req ps
  = (Some (status_json 404 (ErrorEnvelope "Product not found" (isDev env))), ps).
Proof.
  intros Hp Hkey Hnone Hcases.
  assert (Hnone' : Forall (fun q => ¬ hasId (Some rid) q) ps).
  { eapply Forall_impl; [exact Hnone |]. intros q Hq [= Hid]. done. }
  destruct Hcases as [(Hget & H1 & H2) | [Hdel | [Hput Hacc]]].
  - rewrite (dispatch_get env req rid) by done. by rewrite fetch_none.
  - rewrite (dispatch_delete env req rid) by done.
    unfold deleteHandler, bind, getProducts. rewrite lookup_singleton_eq.
    by rewrite find_none.
  - rewrite (dispatch_update env req rid) by done.
    destruct (validated_route (asyncHandler updateHandler) env
                {[ "id" := rid ]} req ps) as [(msg & Hbad) | [_ ->]].
    + exfalso. destruct (validate_cases env {[ "id" := rid ]} req ps)
        as [[Hok _] | (msg' & _ & Hrej)]; [| done].
      cbn [runChain] in Hbad. unfold bind at 1 in Hbad. rewrite Hok in Hbad.
      unfold asyncHandler, bind in Hbad.
      rewrite update_not_found in Hbad by by rewrite lookup_singleton_eq.
      done.
    + unfold asyncHandler.
      by rewrite update_not_found by by rewrite lookup_singleton_eq.
Qed.

Lemma missing_id_not_found_witness :
  dispatch sampleEnv (missingId PUT) products
  = (Some (status_json 404 (ErrorEnvelope "Product not found" (isDev sampleEnv))),
     products).
Proof.
  apply (missing_id_not_found sampleEnv (missingId PUT) "42" products);
    [reflexivity | reflexivity | | ].
  - unfold products. repeat constructor; discriminate.
  - right. right. split; [reflexivity |].
    apply validationError_passes. vm_compute. reflexivity.
Defined.

(* ================================================================= *)
(** ** The router layout *)

Lemma categoryOnly_filtered req ps :
  filtered (categoryOnly req) ps = filterByCategory req ps.
Proof.
  unfold filtered, filterBySearch, filterByInStock, filterByCategory.
  cbn [query categoryOnly].
  rewrite lookup_delete_eq.
  rewrite (lookup_delete_ne _ "inStock" "search") by done.
  rewrite lookup_delete_eq.
  by rewrite !(lookup_delete_ne _ _ "category") by done.
Qed.

(** X20. The router layout against the single-file server. The list
    handler of the router answers as the server does for the same request
    without its inStock and search parameters, which the router ignores,
    less the hasNext and hasPrev fields; the stats handler answers as the
    server's less totalOutOfStock and priceStats; the search handler
    answers as the server's search route, the inline 400 for a missing [q]
    being the envelope that the server's error handler writes outside the
    development configuration. None of the three writes the store. *)
Theorem router_agrees env params req ps :
  Router.served (Router.listHandler env params req ps)
  = routerView (answer env (categoryOnly req)
                  (listHandler env params (categoryOnly req) ps))
  ∧ Router.served (Router.statsHandler env params req ps)
    = routerView (answer env req (statsHandler env params req ps))
  ∧ (isDev env = false ∨ present (query req !! "q") = true →
     Router.served (Router.searchHandler env params req ps)
     = routerView (answer env req (searchHandler env params req ps)))
  ∧ snd (Router.listHandler env params req ps) = ps
  ∧ snd (Router.statsHandler env params req ps) = ps
  ∧ snd (Router.searchHandler env params req ps) = ps.
Proof.
  split; [| split; [| split; [| split; [| split]]]];
    [| | | reflexivity | reflexivity
     | unfold Router.searchHandler; by destruct (negb _)].
  - unfold listHandler, bind, getProducts, ret. rewrite categoryOnly_filtered.
    unfold paginate. cbn [query categoryOnly].
    rewrite !(lookup_delete_ne _ _ "page"), !(lookup_delete_ne _ _ "limit")
      by done.
    reflexivity.
  - reflexivity.
  - intros Hcase. unfold Router.searchHandler, searchHandler.
    destruct (present (query req !! "q")) eqn:Hq; cbn [negb]; [reflexivity |].
    destruct Hcase as [Hdev | ?]; [| done].
    unfold throw, ret, answer, errorHandler, routerView. cbn [fst snd].
    unfold isDev in Hdev. cbn [statusCode message ValidationError].
    rewrite Hdev. reflexivity.
Qed.

Lemma router_agrees_witness :
  Router.served (Router.searchHandler sampleEnv ∅ listAll Router.products)
  = routerView (answer sampleEnv listAll
                  (searchHandler sampleEnv ∅ listAll Router.products)).
Proof.
  apply (router_agrees sampleEnv ∅ listAll Router.products).
  left. reflexivity.
Defined.

(** X21. The root route is public. A GET for / is answered 200 with the
    welcome message, with or without an API key, whatever the query and
    the store, which it leaves alone. *)
Theorem root_is_public env req ps :
  handlesMethod GET (method req) = true →
  path req = [] →
  dispatch env req ps = (Some (json Welcome), ps).
Proof.
  intros Hget Hp. unfold dispatch, app.
  do 2 (rewrite handle_use; change (matchMount [] (path req)) with true;
        cbv iota; cbn [jsonBodyParser loggerMiddleware ret]).
  rewrite handle_use, Hp.
  change (matchMount ["api"; "products"] []) with false. cbv iota.
  cbn [handle enter]. rewrite Hget, Hp. reflexivity.
Qed.

Lemma root_is_public_witness :
  dispatch sampleEnv rootRequest products = (Some (json Welcome), products).
Proof.
  apply (root_is_public sampleEnv rootRequest products); reflexivity.
Defined.

(** X22. The list route always answers a query of strings. A GET for
    /api/products with an API key, every query parameter given once as a
    plain string, is answered 200 with the listing, whatever the strings:
    a page, a limit or a filter that makes no sense gives a listing, never
    an error. The count is the number of products that pass the filters,
    not the number on the page, and the store is left alone. *)
Theorem list_always_answers env req ps :
  handlesMethod GET (method req) = true →
  path req = ["api"; "products"] →
  present (headers req !! "x-api-key") = true →
  ∃ pg data,
    dispatch env req ps
    = (Some (json (ProductList (length (filtered req ps)) pg data)), ps)
    ∧ listPagination env req ps = Some pg
    ∧ listData env req ps = data
    ∧ sublist data (filtered req ps)
    ∧ sublist (filtered req ps) ps.
Proof.
  intros Hget Hp Hkey. eexists _, _. split; [| split; [| split; [| split]]].
  - unfold dispatch, app.
    do 2 (rewrite handle_use; change (matchMount [] (path req)) with true;
          cbv iota; cbn [jsonBodyParser loggerMiddleware ret]).
    rewrite handle_use, Hp.
    change (matchMount ["api"; "products"] ["api"; "products"]) with true.
    cbv iota. unfold authMiddleware. rewrite Hkey. cbn [negb ret].
    cbn [handle enter]. rewrite Hget, Hp.
    change (matchPath [] ["api"; "products"]) with (@None Params).
    change (matchPath api_products ["api"; "products"]) with (Some (∅ : Params)).
    cbv iota. reflexivity.
  - reflexivity.
  - reflexivity.
  - unfold paginate, slice. cbv zeta.
    etransitivity; [apply sublist_take | apply sublist_drop].
  - rewrite filtered_filter. apply filter_sublist.
Qed.

Lemma list_always_answers_witness :
  ∃ pg data,
    dispatch sampleEnv zeroPage products
    = (Some (json (ProductList (length (filtered zeroPage products)) pg data)),
       products)
    ∧ listPagination sampleEnv zeroPage products = Some pg
    ∧ listData sampleEnv zeroPage products = data
    ∧ sublist data (filtered zeroPage products)
    ∧ sublist (filtered zeroPage products) products.
Proof.
  apply (list_always_answers sampleEnv zeroPage products); reflexivity.
Defined.

(** X23. An update is idempotent. A PUT to /api/products/<id> with an API
    key and a payload that passes the validation and has strings for
    description and category, on a store that has the id, gives the same
    answer and the same store when it is sent a second time: the record
    is rebuilt from the payload, and what the payload leaves out (the id,
    and inStock when absent) is kept from the record. *)
Theorem update_twice env env' req (l1 l2 : list Product) (old : Product)
  (rid d c : string) :
  method req = PUT → path req = ["api"; "products"; rid] →
  present (headers req !! "x-api-key") = true →
  ¬ spec_rejects (body req) →
  field "description" (body req) = JStr d →
  field "category" (body req) = JStr c →
  id old = rid →
  Forall (fun q => id q ≠ rid) l1 →
  ∃ new,
    dispatch env req (l1 ++ old :: l2)
    = (Some (json (ProductData new)), l1 ++ new :: l2)
    ∧ dispatch env' req (l1 ++ new :: l2)
      = (Some (json (ProductData new)), l1 ++ new :: l2).
Proof.
  intros Hm Hp Hkey Hacc Hd Hc Hold Hl1.
  assert (Hl1' : Forall (fun q => ¬ hasId (({[ "id" := rid ]} : Params) !! "id") q) l1).
  { rewrite lookup_singleton_eq. eapply Forall_impl; [exact Hl1 |].
    intros q Hq [= Hid]. done. }
  assert (Hid : ∀ p, id p = rid →
                     hasId (({[ "id" := rid ]} : Params) !! "id") p).
  { intros p Hp'. rewrite lookup_singleton_eq. unfold hasId. by rewrite Hp'. }
  destruct (update_string_payload env {[ "id" := rid ]} req l1 l2 old d c
              Hacc Hd Hc (Hid old Hold) Hl1') as (s & n & Hs & Hn & Hrun).
  set (new := updatedProduct old (body req) s d c n) in *.
  assert (Hnew : id new = rid) by done.
  destruct (update_string_payload env' {[ "id" := rid ]} req l1 l2 new d c
              Hacc Hd Hc (Hid new Hnew) Hl1') as (s' & n' & Hs' & Hn' & Hrun').
  rewrite Hs in Hs'. injection Hs' as <-.
  rewrite Hn in Hn'. injection Hn' as <-.
  assert (Hsame : updatedProduct new (body req) s d c n = new).
  { unfold new, updatedProduct. cbn [id inStock]. f_equal.
    by destruct (field "inStock" (body req)). }
  rewrite Hsame in Hrun'.
  exists new. split.
  - by rewrite (dispatch_update env req rid), Hrun.
  - by rewrite (dispatch_update env' req rid), Hrun'.
Qed.

Lemma update_twice_witness :
  ∃ new,
    dispatch sampleEnv updateSecond products
    = (Some (json (ProductData new)), take 1 products ++ new :: drop 2 products)
    ∧ dispatch sampleEnv updateSecond (take 1 products ++ new :: drop 2 products)
      = (Some (json (ProductData new)), take 1 products ++ new :: drop 2 products).
Proof.
  apply (update_twice sampleEnv sampleEnv updateSecond
           (take 1 products) (drop 2 products) _ "2" "LED lamp" "home");
    try reflexivity.
  - apply validationError_passes. vm_compute. reflexivity.
  - repeat constructor. done.
Defined.
